(** * Pricing-page discovery and resumable batch extraction

    A shallow embedding of [main.py] (the plain HTTP pipeline) and
    [main_failed.py] (the browser-rendering pipeline) of the pricing scraper,
    and the properties of its existence checker, sitemap traversal, URL
    ranker, content extractor, per-site orchestrator and batch loop.  The
    two files share most of their code; where they differ a definition takes
    the [variant].  The batch loop is the one of [main.py]; the wall-clock
    alarm that [main_failed.py] and [main_1_1.py] set around each site is
    not modelled, an exception that reaches the loop is.

    Conventions of the embedding.
    - A Python [str] is a [string]; one [ascii] stands for one character, so
      the model covers 8-bit text.  Python [int] is [Z].
    - A Python [set] of strings is a [gset string], [list(s)] is
      [elements s]; the batch [results] dict is a [gmap string json]; a JSON
      object keeps its insertion order in an association list.  JSON numbers
      are integers: the code only looks at whether a value is zero.
    - Network, browser, language model and clock are collaborators: their
      answers are functions of the history of effects so far (the trace) and
      of the request, which covers servers that answer differently over time.
    - Every effect appends an event to the trace.  Calls of the content
      extractor, of the pricing analyzer, loop iterations and recursive
      invocations are recorded as events as well, so that the order and the
      number of calls can be stated.  Of the console output only the
      "PROCESSING" line of the batch loop and the pricing-indicator line of
      the content extractor are kept. *)

From Stdlib Require Import ZArith Ascii String DecimalString.
From stdpp Require Import gmap strings list fin_maps.

Local Open Scope Z_scope.

(** ** Strings *)

Module Str.

Definition len (s : string) : Z := Z.of_nat (String.length s).

(** [s.startswith(p)] *)
Fixpoint startswith (p s : string) : bool :=
  match p, s with
  | EmptyString, _ => true
  | String a p', String b s' => if Ascii.eqb a b then startswith p' s' else false
  | String _ _, EmptyString => false
  end.

(** [p in s] *)
Fixpoint contains (p s : string) : bool :=
  startswith p s ||
  match s with
  | EmptyString => false
  | String _ s' => contains p s'
  end.

Definition rev (s : string) : string :=
  string_of_list_ascii (List.rev (list_ascii_of_string s)).

(** [s.endswith(p)] *)
Definition endswith (p s : string) : bool := startswith (rev p) (rev s).

(** [s[:n]] for [0 <= n]; a negative bound counts from the end. *)
Definition slice_to (n : Z) (s : string) : string :=
  if n <? 0
  then String.substring 0 (String.length s - Z.to_nat (- n)) s
  else String.substring 0 (Z.to_nat n) s.

Definition in_range (lo hi : N) (c : ascii) : bool :=
  ((lo <=? N_of_ascii c) && (N_of_ascii c <=? hi))%N.

(** [str.lower] on 8-bit text: A-Z and the accented capitals. *)
Definition lower_char (c : ascii) : ascii :=
  if in_range 65 90 c || in_range 192 214 c || in_range 216 222 c
  then ascii_of_N (N_of_ascii c + 32)
  else c.

Fixpoint lower (s : string) : string :=
  match s with
  | EmptyString => EmptyString
  | String c s' => String (lower_char c) (lower s')
  end.

(** [str.isspace] on 8-bit text. *)
Definition is_space (c : ascii) : bool :=
  in_range 9 13 c || in_range 28 32 c || in_range 133 133 c || in_range 160 160 c.

Fixpoint lstrip (s : string) : string :=
  match s with
  | EmptyString => EmptyString
  | String c s' => if is_space c then lstrip s' else s
  end.

(** [s.strip()] *)
Definition strip (s : string) : string := rev (lstrip (rev (lstrip s))).

(** [str(n)] for an integer. *)
Definition of_Z (n : Z) : string := NilZero.string_of_int (Z.to_int n).

(** [any(k in s for k in keywords)] *)
Definition contains_any (keywords : list string) (s : string) : bool :=
  existsb (fun k => contains k s) keywords.

Definition endswith_any (suffixes : list string) (s : string) : bool :=
  existsb (fun k => endswith k s) suffixes.

Definition startswith_any (prefixes : list string) (s : string) : bool :=
  existsb (fun k => startswith k s) prefixes.

(** [bytes.lower]: only A-Z change. *)
Definition lower_byte (c : ascii) : ascii :=
  if in_range 65 90 c then ascii_of_N (N_of_ascii c + 32) else c.

Fixpoint lower_bytes (s : string) : string :=
  match s with
  | EmptyString => EmptyString
  | String c s' => String (lower_byte c) (lower_bytes s')
  end.

Definition newline : ascii := ascii_of_N 10.
Definition colon : ascii := ascii_of_N 58.
Definition dquote : string := String (ascii_of_N 34) EmptyString.

(** [s.split(c)] for a one-character separator. *)
Fixpoint split (c : ascii) (s : string) : list string :=
  match s with
  | EmptyString => [EmptyString]
  | String a s' =>
      if Ascii.eqb a c then EmptyString :: split c s'
      else match split c s' with
           | [] => [String a EmptyString]
           | w :: ws => String a w :: ws
           end
  end.

(** [s.split(c, 1)[1]]: what follows the first [c]; [None] for the
    [IndexError] when there is none. *)
Fixpoint after_first (c : ascii) (s : string) : option string :=
  match s with
  | EmptyString => None
  | String a s' => if Ascii.eqb a c then Some s' else after_first c s'
  end.

(** The suffix of [s] that starts at the first [c]. *)
Fixpoint from_first (c : ascii) (s : string) : option string :=
  match s with
  | EmptyString => None
  | String a s' => if Ascii.eqb a c then Some s else from_first c s'
  end.

(** The prefix of [s] that ends at the last [c]. *)
Fixpoint upto_last (c : ascii) (s : string) : option string :=
  match s with
  | EmptyString => None
  | String a s' =>
      match upto_last c s' with
      | Some p => Some (String a p)
      | None => if Ascii.eqb a c then Some (String a EmptyString) else None
      end
  end.

Definition lbrace : ascii := ascii_of_N 123.
Definition rbrace : ascii := ascii_of_N 125.

(** [re.search(r'\{.*\}', s, re.DOTALL)]: from the first opening brace to
    the last closing brace after it. *)
Definition brace_span (s : string) : option string :=
  match from_first lbrace s with
  | Some (String a rest) =>
      match upto_last rbrace rest with
      | Some p => Some (String a p)
      | None => None
      end
  | _ => None
  end.

(** [l[:n]] on a list. *)
Definition take_to {A} (n : Z) (l : list A) : list A :=
  if n <? 0 then take (length l - Z.to_nat (- n)) l else take (Z.to_nat n) l.

End Str.

(** ** JSON values and Python dicts *)

#[local] Unset Elimination Schemes.
Inductive json : Type :=
| JNull
| JBool (b : bool)
| JNum (z : Z)
| JStr (s : string)
| JArr (l : list json)
| JObj (d : list (string * json)).
#[local] Set Elimination Schemes.

Definition dict : Type := list (string * json).

Module Py.

(** [d.get(k)] *)
Fixpoint get (k : string) (d : dict) : option json :=
  match d with
  | [] => None
  | (k', v) :: d' => if String.eqb k k' then Some v else get k d'
  end.

(** [d[k] = v]: an existing key keeps its place, a new one goes last. *)
Fixpoint set (k : string) (v : json) (d : dict) : dict :=
  match d with
  | [] => [(k, v)]
  | (k', v') :: d' => if String.eqb k k' then (k, v) :: d' else (k', v') :: set k v d'
  end.

(** [d.update(new)] *)
Definition update (d new : dict) : dict :=
  fold_left (fun acc kv => set (fst kv) (snd kv) acc) new d.

(** Truth value of a Python object. *)
Definition truthy (v : json) : bool :=
  match v with
  | JNull => false
  | JBool b => b
  | JNum z => negb (z =? 0)
  | JStr s => negb (String.eqb s "")
  | JArr l => match l with [] => false | _ => true end
  | JObj d => match d with [] => false | _ => true end
  end.

(** [len(v)]; [None] stands for the [TypeError] of an unsized object. *)
Definition len (v : json) : option Z :=
  match v with
  | JStr s => Some (Str.len s)
  | JArr l => Some (Z.of_nat (length l))
  | JObj d => Some (Z.of_nat (length d))
  | _ => None
  end.

Fixpoint chars (s : string) : list json :=
  match s with
  | EmptyString => []
  | String c s' => JStr (String c EmptyString) :: chars s'
  end.

(** [for x in v]; [None] stands for the [TypeError] of a non-iterable. *)
Definition iter (v : json) : option (list json) :=
  match v with
  | JArr l => Some l
  | JStr s => Some (chars s)
  | JObj d => Some (map (fun kv => JStr (fst kv)) d)
  | _ => None
  end.

Definition strs (l : list string) : json := JArr (map JStr l).

End Py.

(** ** Effects: requests, events and the collaborators *)

Inductive variant := Plain | Browser.

Inductive method := HEAD | GET.

(** One HTTP request.  [r_agent] is a [User-Agent] header passed with the
    call, [r_session] tells [self.session] from the bare [requests] module. *)
Record request := Request {
  r_method : method;
  r_url : string;
  r_timeout : Z;
  r_redirects : bool;
  r_agent : option string;
  r_session : bool
}.

Record response := Response {
  status_code : Z;
  content : string;
  text : string;
  content_type : string
}.

Inductive prompt :=
| RankPrompt (model domain : string) (links : list string)
| AnalyzePrompt (model content url : string).

Record checkpoint := Checkpoint {
  cp_results : gmap string json;
  processed_count : Z;
  total_count : Z;
  timestamp : Z
}.

(** Effects on the world, then the calls that are recorded: what the content
    extractor returned for a URL, a call of the analyzer, an iteration of
    the sitemap queue loop with the value of its counter, an invocation of
    the nested-sitemap expansion that got past its guards, an item announced
    by the batch loop, a call of the per-site extraction, and the writes of
    the checkpoint and results files. *)
Inductive event :=
| EvHttp (r : request)
| EvGoto (url wait_until : string) (timeout : Z)
| EvRender (url : string)
| EvLinks (url : string)
| EvLLM (p : prompt)
| EvSleep (seconds : Z)
| EvIndicators (found : bool) (chars : Z)
| EvExtract (url content : string)
| EvAnalyze (content url : string)
| EvSitemapIter (iterations : Z) (url : string)
| EvNested (url : string) (depth : Z)
| EvProcessing (position total : Z) (name : string)
| EvSite (website name : string)
| EvCheckpoint (cp : checkpoint)
| EvOutput (results : gmap string json)
| EvRemoveCheckpoint.

Definition trace := list event.

(** An exception is carried by its message. *)
Definition exn := string.

(** The collaborators of the pipeline: the network, the browser, the
    language model, the clock, and the library functions that parse URLs,
    markup and JSON. *)
Class Env := {
  http : trace -> request -> exn + response;
  llm : trace -> prompt -> exn + string;
  (* page.goto: the status of the navigation response, if any *)
  goto_status : trace -> string -> exn + option Z;
  (* the markup of the rendered page after navigation and clicks *)
  render : trace -> string -> exn + string;
  (* the hrefs the browser read from the navigation selectors and from all
     anchors, and the failure that interrupted the reading, if any *)
  browser_links : trace -> string -> list (option string) * option exn;
  clock : trace -> Z;
  (* urljoin: [inl] when it raises, as it does on a base or a reference
     whose netloc is malformed *)
  urljoin : string -> string -> exn + string;
  (* urlparse: scheme and netloc; [None] when it raises *)
  urlparse : string -> option (string * string);
  (* json.loads of a span that starts with a brace: the decoded object, or
     the message of the error *)
  json_loads : string -> exn + dict;
  (* raw hrefs of the elements found by each of the four extraction methods *)
  html_methods : string -> list (list string);
  html_anchors : string -> list string;
  (* text of <body> once script, style, nav, footer, header are removed *)
  html_body_text : string -> option string;
  html_select_one : string -> string -> bool;
  (* some div[class*=border-] card shows a currency token *)
  html_card_currency : string -> bool;
  price_regex : string -> bool;
  (* the rendered page, iframes removed as well: texts of the elements
     matched by the main-content selectors, and the text of <body> *)
  html_main_texts : string -> list string;
  html_rendered_body : string -> option string;
  (* sitemap markup: texts of all <loc>, first <loc> of each <url>, first
     <loc> of each <sitemap> *)
  xml_locs : string -> list string;
  xml_url_locs : string -> list (option string);
  xml_sitemap_locs : string -> list (option string)
}.

(** ** The effect monad: state passing over the trace *)

Definition M (A : Type) : Type := trace -> A * trace.

Definition ret {A} (a : A) : M A := fun t => (a, t).

Definition bind {A B} (m : M A) (k : A -> M B) : M B :=
  fun t => let (a, t') := m t in k a t'.

Declare Scope eff_scope.
Delimit Scope eff_scope with eff.
Notation "x <- m ;; k" := (bind m (fun x => k))
  (at level 100, m at next level, right associativity) : eff_scope.
Notation "m ;;; k" := (bind m (fun _ => k))
  (at level 100, right associativity) : eff_scope.
Local Open Scope eff_scope.

Definition emit (e : event) : M unit := fun t => (tt, t ++ [e]).

(** The list a call returned; no element when it raised. *)
Definition returned {A} (r : exn + list A) : list A :=
  match r with
  | inr l => l
  | inl _ => []
  end.

(** [for x in l: s = body(x, s)] *)
Fixpoint for_each {A S} (l : list A) (body : A -> S -> M S) (s : S) : M S :=
  match l with
  | [] => ret s
  | x :: l' => s' <- body x s ;; for_each l' body s'
  end.

(** The same loop when its body may raise: it is left at the first
    exception. *)
Fixpoint for_each_try {A S} (l : list A) (body : A -> S -> M (exn + S)) (s : S)
  : M (exn + S) :=
  match l with
  | [] => ret (inr s)
  | x :: l' =>
      r <- body x s ;;
      match r with
      | inr s' => for_each_try l' body s'
      | inl e => ret (inl e)
      end
  end.

Section Pipeline.

Context `{Env}.

Definition send (r : request) : M (exn + response) :=
  fun t => (http t r, t ++ [EvHttp r]).

Definition session_head url timeout redirects agent :=
  send (Request HEAD url timeout redirects agent true).

Definition session_get url timeout redirects agent :=
  send (Request GET url timeout redirects agent true).

Definition requests_get url timeout agent :=
  send (Request GET url timeout true agent false).

Definition page_goto (url wait_until : string) (timeout : Z) : M (exn + option Z) :=
  fun t => (goto_status t url, t ++ [EvGoto url wait_until timeout]).

Definition sleep (seconds : Z) : M unit := emit (EvSleep seconds).

(** *** Existence checker *)

Definition status_is (r : exn + response) (ok : Z -> bool) : bool :=
  match r with
  | inr resp => ok (status_code resp)
  | inl _ => false
  end.

(** [main.py], [_check_url_exists]: HEAD, then GET. *)
Definition check_url_exists_plain (url : string) : M bool :=
  r <- session_head url 8 true None ;;
  if status_is r (Z.eqb 200) then ret true
  else
    g <- session_get url 8 true None ;;
    ret (status_is g (Z.eqb 200)).

Definition nav_ok (g : exn + option Z) : bool :=
  match g with
  | inr (Some s) => negb (s =? 0) && (s <? 400)
  | _ => false
  end.

(** [main_failed.py], [_check_url_exists]: GET, then the browser, then HEAD. *)
Definition check_url_exists_browser (url : string) : M bool :=
  r <- session_get url 8 true (Some "Mozilla/5.0") ;;
  if status_is r (fun s => s <? 400) then ret true
  else
    g <- page_goto url "domcontentloaded" 15000 ;;
    if nav_ok g then ret true
    else
      h <- session_head url 5 true (Some "Mozilla/5.0") ;;
      ret (status_is h (fun s => s <? 400)).

Definition _check_url_exists (v : variant) (url : string) : M bool :=
  match v with
  | Plain => check_url_exists_plain url
  | Browser => check_url_exists_browser url
  end.

(** *** URL validator *)

Definition asset_extensions : list string :=
  [".pdf"; ".jpg"; ".png"; ".gif"; ".zip"; ".exe"; ".css"; ".js"].

Definition _is_valid_url (url : string) : bool :=
  match urlparse url with
  | None => false
  | Some (scheme, netloc) =>
      if String.eqb scheme "" || String.eqb netloc "" then false
      else if Str.endswith_any asset_extensions (Str.lower url) then false
      else true
  end.

(** *** Link collector *)

Definition skipped_schemes : list string := ["javascript:"; "mailto:"; "tel:"; "#"].

(** The body of the loops over elements: strip the href, skip empty and
    non-page ones, resolve against the domain, keep the valid ones; [inl]
    when [urljoin] raises. *)
Definition add_href (domain : string) (links : gset string) (href : string)
  : exn + gset string :=
  let href := Str.strip href in
  if negb (String.eqb href "") && negb (Str.startswith_any skipped_schemes href)
  then
    match urljoin domain href with
    | inr full_url => inr (if _is_valid_url full_url then {[full_url]} ∪ links else links)
    | inl e => inl e
    end
  else inr links.

(** A loop over elements inside a [try]: it ends at the first exception,
    and the links added before stay in the set. *)
Fixpoint add_hrefs (domain : string) (hrefs : list string) (links : gset string)
  : gset string :=
  match hrefs with
  | [] => links
  | href :: rest =>
      match add_href domain links href with
      | inr links => add_hrefs domain rest links
      | inl _ => links
      end
  end.

Definition _extract_links_from_page (page domain : string) : list string :=
  elements (fold_left (fun links hrefs => add_hrefs domain hrefs links) (html_methods page) ∅).

Definition mac_agent : string :=
  "Mozilla/5.0 (Macintosh; Intel Mac OS X 10_15_7) AppleWebKit/537.36 (KHTML, like Gecko) Chrome/91.0.4472.124 Safari/537.36".

Definition _get_links_alternative_method (domain : string) : M (list string) :=
  r <- requests_get domain 15 (Some mac_agent) ;;
  match r with
  | inr resp =>
      if status_code resp =? 200
      then ret (elements (add_hrefs domain (html_anchors (content resp)) ∅))
      else ret (elements (∅ : gset string))
  | inl _ => ret (elements (∅ : gset string))
  end.

Definition important_pages : list string :=
  ["/features"; "/product"; "/products"; "/solutions"; "/services"; "/pricing"; "/plans"].

Definition union_list (l : list string) (s : gset string) : gset string :=
  list_to_set l ∪ s.

(** One round of the loop over the important pages; [inl] when [urljoin]
    raises, which nothing in the loop catches. *)
Definition visit_important (v : variant) (domain page : string) (all_links : gset string)
  : M (exn + gset string) :=
  match urljoin domain page with
  | inl e => ret (inl e)
  | inr page_url =>
      sleep 1 ;;;
      live <- _check_url_exists v page_url ;;
      if live then
        r <- session_get page_url 10 true None ;;
        match r with
        | inr resp =>
            if status_code resp =? 200
            then ret (inr (union_list (_extract_links_from_page (content resp) domain)
                                      all_links))
            else ret (inr all_links)
        | inl _ => ret (inr all_links)
        end
      else ret (inr all_links)
  end.

Definition get_all_website_links_plain (domain : string) : M (list string) :=
  r <- session_get domain 15 true None ;;
  match r with
  | inl _ => _get_links_alternative_method domain
  | inr resp =>
      if (status_code resp =? 403) || Str.contains "access denied" (Str.lower (text resp))
      then _get_links_alternative_method domain
      else if negb (status_code resp =? 200) then ret []
      else
        let all_links := union_list (_extract_links_from_page (content resp) domain) ∅ in
        r <- for_each_try important_pages (visit_important Plain domain) all_links ;;
        match r with
        | inr all_links => ret (elements all_links)
        | inl _ => _get_links_alternative_method domain
        end
  end.

Definition add_opt_href (domain : string) (links : gset string) (href : option string)
  : gset string :=
  match href with
  | Some h =>
      if negb (String.eqb h "") && negb (Str.startswith_any skipped_schemes h)
      then
        match urljoin domain h with
        | inr full_url => if _is_valid_url full_url then {[full_url]} ∪ links else links
        | inl _ => links
        end
      else links
  | None => links
  end.

Definition get_all_website_links_browser (domain : string) : M (list string) :=
  found <- (fun t => (browser_links t domain, t ++ [EvLinks domain])) ;;
  let all_links := fold_left (add_opt_href domain) (fst found) ∅ in
  match snd found with
  | None => ret (elements all_links)
  | Some _ =>
      alt <- _get_links_alternative_method domain ;;
      ret (elements (union_list alt all_links))
  end.

Definition _get_all_website_links (v : variant) (domain : string) : M (list string) :=
  match v with
  | Plain => get_all_website_links_plain domain
  | Browser => get_all_website_links_browser domain
  end.

(** *** Sitemap traversal *)

Definition common_locations : list string :=
  ["sitemap.xml"; "sitemap_index.xml"; "sitemap/sitemap.xml"; "sitemap.xml.gz";
   "sitemap/sitemap_index.xml"; "wp-sitemap.xml"; "sitemap-index.xml"].

(** The [Sitemap:] lines of robots.txt, in order. *)
Definition robots_sitemaps (robots : string) : list string :=
  omap (fun line =>
          let line := Str.strip line in
          if Str.startswith "sitemap:" (Str.lower line)
          then Str.strip <$> Str.after_first Str.colon line
          else None)
       (Str.split Str.newline robots).

(** [for location in locations: urls.append(urljoin(domain, location))];
    [inl] is the first exception. *)
Fixpoint join_each (domain : string) (locations : list string) : exn + list string :=
  match locations with
  | [] => inr []
  | location :: rest =>
      match urljoin domain location with
      | inl e => inl e
      | inr url =>
          match join_each domain rest with
          | inl e => inl e
          | inr urls => inr (url :: urls)
          end
      end
  end.

(** [_discover_sitemap_urls]; [inl] when one of its calls of [urljoin]
    raises, which happens before any request. *)
Definition _discover_sitemap_urls (domain : string) : M (exn + list string) :=
  match join_each domain common_locations with
  | inl e => ret (inl e)
  | inr sitemap_urls =>
      match urljoin domain "robots.txt" with
      | inl e => ret (inl e)
      | inr robots_url =>
          r <- session_get robots_url 5 true None ;;
          match r with
          | inr resp =>
              if status_code resp =? 200
              then ret (inr (sitemap_urls ++ robots_sitemaps (text resp)))
              else ret (inr sitemap_urls)
          | inl _ => ret (inr sitemap_urls)
          end
      end
  end.

Definition add_loc (links : gset string) (loc : string) : gset string :=
  let url := Str.strip loc in
  if negb (String.eqb url "") && _is_valid_url url then {[url]} ∪ links else links.

Definition add_url_loc (links : gset string) (loc : option string) : gset string :=
  match loc with
  | Some txt =>
      if negb (String.eqb txt "") && _is_valid_url (Str.strip txt)
      then {[Str.strip txt]} ∪ links else links
  | None => links
  end.

Definition _extract_links_from_sitemap (sitemap_url : string) : M (list string) :=
  r <- session_get sitemap_url 10 true None ;;
  match r with
  | inr resp =>
      if Str.contains "xml" sitemap_url
      then
        let links := fold_left add_loc (xml_locs (content resp)) ∅ in
        let links := fold_left add_url_loc (xml_url_locs (content resp)) links in
        ret (elements links)
      else ret (elements (∅ : gset string))
  | inl _ => ret (elements (∅ : gset string))
  end.

Definition index_patterns : list string :=
  ["sitemap_index"; "sitemap-index"; "sitemap.index"; "index.xml"; "sitemap.xml/index"].

Definition index_indicators : list string :=
  ["sitemapindex"; "sitemap_index"; "<sitemapindex"; "<sitemapindex>";
   "sitemap-type=" +:+ Str.dquote +:+ "index" +:+ Str.dquote].

Definition _is_sitemap_index (sitemap_url : string) : M bool :=
  if Str.contains_any index_patterns (Str.lower sitemap_url) then ret true
  else
    r <- session_head sitemap_url 5 false None ;;
    match r with
    | inl _ => ret false
    | inr resp =>
        if negb (status_code resp =? 200) then ret false
        else if negb (Str.contains "xml" (Str.lower (content_type resp))) then ret false
        else
          g <- session_get sitemap_url 5 true None ;;
          match g with
          | inl _ => ret false
          | inr body =>
              ret (Str.contains_any index_indicators (Str.lower_bytes (content body)))
          end
    end.

(** [if url not in found_urls: found_urls.add(url); nested.append(url)];
    [found_urls] always holds exactly the members of [nested]. *)
Definition append_new (nested : list string) (url : string) : list string :=
  if bool_decide (url ∈ nested) then nested else nested ++ [url].

Definition add_sitemap_loc (nested : list string) (loc : option string) : list string :=
  match loc with
  | Some txt => if String.eqb txt "" then nested else append_new nested (Str.strip txt)
  | None => nested
  end.

Definition add_plain_loc (sitemap_index_url : string) (nested : list string) (loc : string)
  : list string :=
  let url := Str.strip loc in
  if negb (String.eqb url sitemap_index_url)
     && (Str.contains "sitemap" (Str.lower url) || Str.contains ".xml" url)
  then append_new nested url else nested.

(** The nested sitemap URLs listed by one index document. *)
Definition listed_sitemaps (sitemap_index_url page : string) : list string :=
  let nested := fold_left add_sitemap_loc (xml_sitemap_locs page) [] in
  match xml_sitemap_locs page with
  | [] => fold_left (add_plain_loc sitemap_index_url) (xml_locs page) nested
  | _ => nested
  end.

Definition max_depth : Z := 10.

(** The state of the loop over the nested sitemaps: the shared
    [processed_urls] set and [additional_sitemaps]. *)
Definition nested_state : Type := gset string * list string.

(** One round of that loop; [recur] is the recursive call. *)
Definition visit_nested
    (recur : string -> gset string -> Z -> trace -> option (list string * gset string * trace))
    (depth : Z) (nested_sitemap : string) (st : nested_state) (t : trace)
  : option (nested_state * trace) :=
  let '(processed_urls, additional) := st in
  if bool_decide (nested_sitemap ∈ processed_urls) then Some (st, t)
  else
    let '(is_index, t1) := _is_sitemap_index nested_sitemap t in
    if is_index
    then
      match recur nested_sitemap processed_urls (depth + 1) t1 with
      | Some (deeper, processed_urls', t2) => Some ((processed_urls', additional ++ deeper), t2)
      | None => None
      end
    else Some (st, t1).

Fixpoint visit_all_nested
    (recur : string -> gset string -> Z -> trace -> option (list string * gset string * trace))
    (depth : Z) (l : list string) (st : nested_state) (t : trace)
  : option (nested_state * trace) :=
  match l with
  | [] => Some (st, t)
  | x :: l' =>
      match visit_nested recur depth x st t with
      | Some (st', t') => visit_all_nested recur depth l' st' t'
      | None => None
      end
  end.

(** [_extract_nested_sitemaps], with the set [processed_urls] passed in
    and out since the recursive calls share and mutate it.  The recursion
    of the source is on [depth]; [fuel] bounds the unfolding here, and
    [None] means that it ran out. *)
Fixpoint extract_nested (fuel : nat) (sitemap_index_url : string)
    (processed_urls : gset string) (depth : Z) (t : trace)
  : option (list string * gset string * trace) :=
  match fuel with
  | O => None
  | S fuel' =>
      if depth >? max_depth then Some ([], processed_urls, t)
      else if bool_decide (sitemap_index_url ∈ processed_urls) then Some ([], processed_urls, t)
      else
        let processed_urls := {[sitemap_index_url]} ∪ processed_urls in
        let t := t ++ [EvNested sitemap_index_url depth] in
        let '(r, t) := session_get sitemap_index_url 10 true None t in
        match r with
        | inl _ => Some (elements (∅ : gset string), processed_urls, t)
        | inr resp =>
            let nested := listed_sitemaps sitemap_index_url (content resp) in
            match visit_all_nested (extract_nested fuel') depth nested (processed_urls, []) t with
            | Some ((processed_urls, additional), t) =>
                Some (elements (list_to_set (nested ++ additional) : gset string),
                      processed_urls, t)
            | None => None
            end
        end
  end.

Definition max_iterations : Z := 50.

(** [if n not in processed_sitemaps and n not in sitemap_queue: queue.append(n)] *)
Definition enqueue_new (processed_sitemaps : gset string) (sitemap_queue : list string)
    (nested_sitemap : string) : list string :=
  if negb (bool_decide (nested_sitemap ∈ processed_sitemaps))
     && negb (bool_decide (nested_sitemap ∈ sitemap_queue))
  then sitemap_queue ++ [nested_sitemap] else sitemap_queue.

(** The [while] loop of [_get_all_sitemap_links].  The loop variables are
    those of the source, [iterations] included; [fuel] bounds the
    unfolding and [nested_fuel] that of the calls of [extract_nested].
    The final value of [iterations] is returned with the links. *)
Fixpoint sitemap_loop (fuel nested_fuel : nat) (v : variant)
    (sitemap_queue : list string) (iterations : Z)
    (processed_sitemaps all_sitemap_links : gset string) (t : trace)
  : option (gset string * Z * trace) :=
  match fuel with
  | O => None
  | S fuel' =>
      match sitemap_queue with
      | [] => Some (all_sitemap_links, iterations, t)
      | sitemap_url :: sitemap_queue =>
          if negb (iterations <? max_iterations)
          then Some (all_sitemap_links, iterations, t)
          else
            let iterations := iterations + 1 in
            let t := t ++ [EvSitemapIter iterations sitemap_url] in
            if bool_decide (sitemap_url ∈ processed_sitemaps)
            then sitemap_loop fuel' nested_fuel v sitemap_queue iterations
                   processed_sitemaps all_sitemap_links t
            else
              let '(live, t) := _check_url_exists v sitemap_url t in
              if negb live
              then sitemap_loop fuel' nested_fuel v sitemap_queue iterations
                     processed_sitemaps all_sitemap_links t
              else
                let processed_sitemaps := {[sitemap_url]} ∪ processed_sitemaps in
                let '(links, t) := _extract_links_from_sitemap sitemap_url t in
                let all_sitemap_links := union_list links all_sitemap_links in
                let '(is_index, t) := _is_sitemap_index sitemap_url t in
                if is_index
                then
                  match extract_nested nested_fuel sitemap_url ∅ 0 t with
                  | None => None
                  | Some (nested_sitemaps, _, t) =>
                      let sitemap_queue :=
                        fold_left (enqueue_new processed_sitemaps) nested_sitemaps sitemap_queue in
                      sitemap_loop fuel' nested_fuel v sitemap_queue iterations
                        processed_sitemaps all_sitemap_links t
                  end
                else sitemap_loop fuel' nested_fuel v sitemap_queue iterations
                       processed_sitemaps all_sitemap_links t
      end
  end.

(** [_get_all_sitemap_links] with the final value of [iterations].  An
    exception of the discovery is caught by the [try] around the whole
    traversal, with no link found yet. *)
Definition get_all_sitemap_links_fuel (fuel nested_fuel : nat) (v : variant)
    (domain : string) (t : trace) : option (list string * Z * trace) :=
  let '(discovered, t) := _discover_sitemap_urls domain t in
  match discovered with
  | inl _ => Some (elements (∅ : gset string), 0, t)
  | inr sitemap_urls =>
      match sitemap_loop fuel nested_fuel v sitemap_urls 0 ∅ ∅ t with
      | Some (all_sitemap_links, iterations, t) =>
          Some (elements all_sitemap_links, iterations, t)
      | None => None
      end
  end.

(** Fuel that always suffices: one unfolding per iteration and one for the
    exit test; one per depth from 0 to 10 and one for the call that meets
    the depth guard. *)
Definition loop_fuel : nat := 51.
Definition depth_fuel : nat := 12.

Definition _get_all_sitemap_links (v : variant) (domain : string) : M (list string) :=
  fun t =>
    match get_all_sitemap_links_fuel loop_fuel depth_fuel v domain t with
    | Some (links, _, t') => (links, t')
    | None => ([], t)
    end.

(** *** Pricing-URL ranker *)

Definition max_links : Z := 400.

Definition high_keywords : list string :=
  ["pricing"; "price"; "plan"; "buy"; "subscribe"; "order"; "checkout"].

Definition medium_keywords : list string :=
  ["product"; "feature"; "service"; "solution"; "package"; "tier"].

Definition is_high (link : string) : bool := Str.contains_any high_keywords (Str.lower link).
Definition is_medium (link : string) : bool := Str.contains_any medium_keywords (Str.lower link).

Definition list_len {A} (l : list A) : Z := Z.of_nat (length l).

(** [if x not in l: l.append(x)] *)
Definition ensure (x : string) (l : list string) : list string :=
  if bool_decide (x ∈ l) then l else l ++ [x].

(** The sampling branch of [_ai_identify_pricing_links]. *)
Definition sample_links (domain : string) (all_links : list string) : list string :=
  let high_priority := List.filter is_high all_links in
  let medium_priority := List.filter is_medium all_links in
  let low_priority :=
    List.filter (fun link => negb (bool_decide (link ∈ high_priority ++ medium_priority)))
                all_links in
  let sampled_links := Str.take_to (max_links / 3) high_priority in
  let remaining := max_links - list_len sampled_links in
  let sampled_links := sampled_links ++ Str.take_to (remaining / 2) medium_priority in
  let remaining := max_links - list_len sampled_links in
  let sampled_links := sampled_links ++ Str.take_to remaining low_priority in
  ensure domain sampled_links.

(** The list that goes into the prompt (and into the fallback). *)
Definition links_for_prompt (domain : string) (all_links : list string) : list string :=
  let all_links := ensure domain all_links in
  if list_len all_links >? max_links then sample_links domain all_links else all_links.

Definition model_name (v : variant) : string :=
  match v with
  | Plain => "x-ai/grok-4-fast:free"
  | Browser => "grok-code-fast-1"
  end.

Definition ask (p : prompt) : M (exn + string) :=
  fun t => (llm t p, t ++ [EvLLM p]).

Definition fallback_keywords : list string :=
  ["pricing"; "price"; "plans"; "plan"; "subscribe"; "buy"; "order"].

Definition common_paths : list string :=
  ["/pricing"; "/price"; "/plans"; "/plan"; "/subscription"].

Definition keep_if_live (v : variant) (url : string) (urls : list string) : M (list string) :=
  live <- _check_url_exists v url ;;
  ret (if live then urls ++ [url] else urls).

(** One round of the loop over the common paths; [inl] when [urljoin]
    raises. *)
Definition try_common_path (v : variant) (domain path : string) (urls : list string)
  : M (exn + list string) :=
  match urljoin domain path with
  | inl e => ret (inl e)
  | inr url =>
      live <- _check_url_exists v url ;;
      ret (inr (if live && negb (bool_decide (url ∈ urls)) then urls ++ [url] else urls))
  end.

(** [_fallback_pricing_urls]; [inl] is the exception of [urljoin], which
    the function does not catch. *)
Definition _fallback_pricing_urls (v : variant) (domain : string) (all_links : list string)
  : M (exn + list string) :=
  fallback_urls <-
    for_each all_links
      (fun link urls =>
         if Str.contains_any fallback_keywords (Str.lower link)
         then keep_if_live v link urls else ret urls) [] ;;
  fallback_urls <-
    (if bool_decide (domain ∈ fallback_urls) then ret fallback_urls
     else keep_if_live v domain fallback_urls) ;;
  for_each_try common_paths (try_common_path v domain) fallback_urls.

(** One suggested URL of the model.  A suggestion that is not a string
    makes both requests raise before anything is sent, so the checker
    answers no. *)
Definition verify_suggestion (v : variant) (url : json) (valid_urls : list string)
  : M (list string) :=
  match url with
  | JStr u => keep_if_live v u valid_urls
  | _ => ret valid_urls
  end.

(** The fallback called from inside the [try] of the ranker: when it
    raises, the handler of that [try] calls it once more, and what the
    second call raises leaves the ranker. *)
Definition fallback_in_try (v : variant) (domain : string) (all_links : list string)
  : M (exn + list string) :=
  r <- _fallback_pricing_urls v domain all_links ;;
  match r with
  | inr urls => ret (inr urls)
  | inl _ => _fallback_pricing_urls v domain all_links
  end.

(** [_ai_identify_pricing_links]; [inl] is an exception that leaves it.
    Exceptions of the model call, of [json.loads] and of the walk through
    the proposed URLs send it to the handler, which calls the fallback. *)
Definition _ai_identify_pricing_links (v : variant) (domain : string) (all_links : list string)
  : M (exn + list string) :=
  let all_links := links_for_prompt domain all_links in
  r <- ask (RankPrompt (model_name v) domain all_links) ;;
  match r with
  | inl _ => _fallback_pricing_urls v domain all_links
  | inr response_text =>
      match Str.brace_span response_text with
      | None => fallback_in_try v domain all_links
      | Some span =>
          match json_loads span with
          | inl _ => _fallback_pricing_urls v domain all_links
          | inr result =>
              let pricing_urls := default (JArr []) (Py.get "pricing_urls" result) in
              match Py.iter pricing_urls with
              | None => _fallback_pricing_urls v domain all_links
              | Some urls =>
                  valid_urls <- for_each urls (verify_suggestion v) [] ;;
                  ret (inr valid_urls)
              end
          end
      end
  end.

(** [find_pricing_routes], which catches nothing. *)
Definition find_pricing_routes (v : variant) (domain : string) : M (exn + list string) :=
  all_links <- _get_all_website_links v domain ;;
  sitemap_links <- _get_all_sitemap_links v domain ;;
  let all_possible_links :=
    elements (list_to_set (all_links ++ sitemap_links ++ [domain]) : gset string) in
  match all_possible_links with
  | [] => ret (inr [domain])
  | _ => _ai_identify_pricing_links v domain all_possible_links
  end.

(** *** Content extractor *)

Definition attr_selector (value : string) : string :=
  "[class*=" +:+ Str.dquote +:+ value +:+ Str.dquote +:+ "]".

Definition pricing_selectors : list string :=
  [".pricing"; ".price"; ".plan"; ".subscription"; ".billing";
   ".pricing-table"; ".price-table"; ".plan-table";
   ".subscription-plans"; ".pricing-card"; ".price-card"; ".plan-card";
   attr_selector "pricing"; attr_selector "price"; attr_selector "plan";
   ".product-pricing"; ".package"; ".tier"; ".offer"].

(** [pricing_found] of [extract_pricing_content]. *)
Definition pricing_found (page full_body_text : string) : bool :=
  existsb (html_select_one page) pricing_selectors
  || html_card_currency page
  || price_regex full_body_text.

Definition max_content : Z := 50000.

Definition extract_plain (url : string) : M string :=
  r <- session_get url 10 true None ;;
  match r with
  | inl e => ret ("Error extracting content: " +:+ e)
  | inr resp =>
      if negb (status_code resp =? 200)
      then ret ("Error: HTTP " +:+ Str.of_Z (status_code resp))
      else
        match html_body_text (content resp) with
        | None => ret "Error: No body tag found"
        | Some full_body_text =>
            emit (EvIndicators (pricing_found (content resp) full_body_text)
                               (Str.len full_body_text)) ;;;
            ret (Str.slice_to max_content full_body_text)
        end
  end.

Definition longer (best candidate : string) : string :=
  if Str.len candidate >? Str.len best then candidate else best.

(** The text [_extract_with_playwright] takes from a rendered page. *)
Definition rendered_text (page : string) : string :=
  let body_text := fold_left longer (html_main_texts page) "" in
  if String.eqb body_text "" || (Str.len body_text <? 100)
  then default body_text (html_rendered_body page)
  else body_text.

Definition _extract_with_playwright (url : string) : M string :=
  r <- (fun t => (render t url, t ++ [EvRender url])) ;;
  match r with
  | inl _ => ret ""
  | inr page => ret (Str.slice_to max_content (rendered_text page))
  end.

Definition _extract_with_requests (url : string) : M string :=
  r <- session_get url 10 true None ;;
  match r with
  | inl e => ret ("Error: " +:+ e)
  | inr resp =>
      if negb (status_code resp =? 200)
      then ret ("Error: HTTP " +:+ Str.of_Z (status_code resp))
      else
        match html_body_text (content resp) with
        | None => ret "Error: No body tag found"
        | Some body => ret (Str.slice_to max_content body)
        end
  end.

Definition usable (c : string) : bool :=
  negb (String.eqb c "") && (Str.len c >? 100).

Definition extract_browser (url : string) : M string :=
  playwright_content <- _extract_with_playwright url ;;
  if usable playwright_content then ret playwright_content
  else
    requests_content <- _extract_with_requests url ;;
    if usable requests_content then ret requests_content
    else ret "Error: Could not extract content with either method".

(** [extract_pricing_content]; the call and what it returned are recorded. *)
Definition extract_pricing_content (v : variant) (url : string) : M string :=
  c <- match v with
       | Plain => extract_plain url
       | Browser => extract_browser url
       end ;;
  emit (EvExtract url c) ;;;
  ret c.

(** *** Pricing analyzer *)

Definition analyze_pricing_with_ai (v : variant) (content url : string) : M dict :=
  emit (EvAnalyze content url) ;;;
  r <- ask (AnalyzePrompt (model_name v) content url) ;;
  match r with
  | inl e => ret [("error", JStr ("AI analysis failed: " +:+ e))]
  | inr response_text =>
      match Str.brace_span response_text with
      | Some span =>
          match json_loads span with
          | inr result => ret result
          | inl e => ret [("error", JStr ("AI analysis failed: " +:+ e))]
          end
      | None =>
          ret [("error", JStr "No valid JSON found");
               ("raw_response", JStr (Str.slice_to 500 response_text))]
      end
  end.

(** *** Per-site orchestration *)

Definition max_urls_to_try : Z := 5.

(** The cap on the URLs to try: only [main.py] has one. *)
Definition limit_urls (v : variant) (pricing_urls : list string) : list string :=
  match v with
  | Plain =>
      if list_len pricing_urls >? max_urls_to_try
      then Str.take_to max_urls_to_try pricing_urls
      else pricing_urls
  | Browser => pricing_urls
  end.

(** ["Error" in content or len(content) < 100] *)
Definition skip_content (content : string) : bool :=
  Str.contains "Error" content || (Str.len content <? 100).

(** ['plans' in pricing_data and pricing_data['plans']], and [len] of it
    does not raise in the message that follows. *)
Definition has_plans (pricing_data : dict) : bool :=
  match Py.get "plans" pricing_data with
  | Some plans => Py.truthy plans && bool_decide (is_Some (Py.len plans))
  | None => false
  end.

Definition success_record (domain name pricing_url content : string) (pricing_data : dict)
  : dict :=
  Py.update pricing_data
    [("name", JStr name); ("domain", JStr domain); ("source_url", JStr pricing_url);
     ("success", JBool true); ("content_length", JNum (Str.len content))].

(** The body of the loop over the URLs: [Some] is the [return]. *)
Definition try_url (v : variant) (domain name pricing_url : string) : M (option dict) :=
  content <- extract_pricing_content v pricing_url ;;
  if skip_content content then ret None
  else
    pricing_data <- analyze_pricing_with_ai v content pricing_url ;;
    if has_plans pricing_data
    then ret (Some (success_record domain name pricing_url content pricing_data))
    else ret None.

Fixpoint try_urls (v : variant) (domain name : string) (pricing_urls : list string)
  : M (option dict) :=
  match pricing_urls with
  | [] => ret None
  | pricing_url :: rest =>
      r <- try_url v domain name pricing_url ;;
      match r with
      | Some found => ret (Some found)
      | None => try_urls v domain name rest
      end
  end.

Definition failure_record (domain name error : string) : dict :=
  [("name", JStr name); ("domain", JStr domain); ("error", JStr error);
   ("success", JBool false)].

Definition exhausted_record (domain name : string) (pricing_urls : list string) : dict :=
  [("name", JStr name); ("domain", JStr domain);
   ("error", JStr "All URLs failed to yield valid pricing data");
   ("attempted_urls", Py.strs pricing_urls); ("success", JBool false)].

Definition get_pricing_data (v : variant) (domain name : string) : M dict :=
  routes <- find_pricing_routes v domain ;;
  match routes with
  | inl e => ret (failure_record domain name ("Error finding pricing routes: " +:+ e))
  | inr [] => ret (failure_record domain name "No pricing pages found")
  | inr pricing_urls =>
      let pricing_urls := limit_urls v pricing_urls in
      r <- try_urls v domain name pricing_urls ;;
      match r with
      | Some found => ret found
      | None => ret (exhausted_record domain name pricing_urls)
      end
  end.

End Pipeline.

(** ** Batch loop and checkpoints *)

(** A row of the CSV file as [read_urls_from_csv] returns it.  The name is
    a string: a row so short that its name column is missing is not
    covered. *)
Record item := Item {
  item_name : string;
  (* [None] is the [None] of a short CSV row *)
  item_website : option string
}.

(** [get_remaining_urls] *)
Definition get_remaining_urls (all_urls : list item) (existing_results : gmap string json)
  : list item :=
  let processed_names := dom existing_results in
  List.filter (fun url => negb (bool_decide (item_name url ∈ processed_names))) all_urls.

Section Batch.

Context `{Env}.

(** The per-site extraction called by the loop; [inl] is an exception that
    reaches the loop. *)
Variable site : string -> string -> M (exn + dict).

(** [save_checkpoint]: the write of the checkpoint file. *)
Definition save_checkpoint (results : gmap string json) (processed total : Z) : M unit :=
  fun t => (tt, t ++ [EvCheckpoint (Checkpoint results processed total (clock t))]).

Definition empty_url_record : dict :=
  [("error", JStr "Empty URL"); ("success", JBool false)].

Definition crash_record (name website error_msg : string) : dict :=
  [("name", JStr name); ("website", JStr website); ("error", JStr error_msg);
   ("success", JBool false)].

(** [not website or website.strip() == ""] *)
Definition no_website (website : option string) : bool :=
  match website with
  | None => true
  | Some w => String.eqb w "" || String.eqb (Str.strip w) ""
  end.

Definition with_scheme (website : string) : string :=
  if Str.startswith_any ["http://"; "https://"] website
  then website else "https://" +:+ website.

(** The body of the loop of [main] for the item at index [i]. *)
Definition process_item (processed_count total_count i : Z) (it : item)
    (results : gmap string json) : M (gmap string json) :=
  let name := item_name it in
  emit (EvProcessing (processed_count + i + 1) total_count name) ;;;
  if no_website (item_website it)
  then
    let results := <[name := JObj empty_url_record]> results in
    save_checkpoint results (processed_count + i + 1) total_count ;;;
    ret results
  else
    let website := with_scheme (default "" (item_website it)) in
    emit (EvSite website name) ;;;
    r <- site website name ;;
    match r with
    | inr pricing_data =>
        let results := <[name := JObj pricing_data]> results in
        save_checkpoint results (processed_count + i + 1) total_count ;;;
        sleep 2 ;;;
        ret results
    | inl e =>
        let results :=
          <[name := JObj (crash_record name website ("Unexpected error: " +:+ e))]> results in
        save_checkpoint results (processed_count + i + 1) total_count ;;;
        sleep 2 ;;;
        ret results
    end.

(** [for i, item in enumerate(remaining_urls)], from index [i] on. *)
Fixpoint batch_loop (processed_count total_count i : Z) (remaining_urls : list item)
    (results : gmap string json) : M (gmap string json) :=
  match remaining_urls with
  | [] => ret results
  | it :: rest =>
      results <- process_item processed_count total_count i it results ;;
      batch_loop processed_count total_count (i + 1) rest results
  end.

(** Where a run starts: from the checkpoint when it holds results, else
    from the results file. *)
Definition starting_point (existing_results : gmap string json) (cp : option checkpoint)
  : gmap string json * Z :=
  match cp with
  | Some c =>
      if bool_decide (cp_results c = ∅)
      then (existing_results, Z.of_nat (size existing_results))
      else (cp_results c, processed_count c)
  | None => (existing_results, Z.of_nat (size existing_results))
  end.

(** [main] of [main.py], from the point where the CSV file, the results
    file and the checkpoint file have been read: [existing_results] is what
    [load_existing_results] returned, a JSON object keyed by name, [cp] what
    [load_checkpoint] returned.  [None] is the early return on an empty
    CSV.  At the end the
    checkpoint file is removed if it exists: it was there at the start or an
    item wrote it. *)
Definition main (all_urls : list item) (existing_results : gmap string json)
    (cp : option checkpoint) : M (option (gmap string json)) :=
  match all_urls with
  | [] => ret None
  | _ =>
      let '(results, processed_count) := starting_point existing_results cp in
      let remaining_urls := get_remaining_urls all_urls results in
      let total_count := list_len all_urls in
      results <- batch_loop processed_count total_count 0 remaining_urls results ;;
      emit (EvOutput results) ;;;
      (if bool_decide (is_Some cp) || negb (bool_decide (remaining_urls = []))
       then emit EvRemoveCheckpoint else ret tt) ;;;
      ret (Some results)
  end.

End Batch.

(** The batch run of one pipeline variant. *)
Definition run_site `{Env} (v : variant) (website name : string) : M (exn + dict) :=
  pricing_data <- get_pricing_data v website name ;;
  ret (inr pricing_data).

Definition run_batch `{Env} (v : variant) := main (run_site v).

(** ** Scenarios *)

(** Concrete collaborators for examples: a site whose answers depend only on
    the URL, a model whose answer depends only on the prompt, and library
    functions given as tables. *)
Module Scenario.

Definition page (status : Z) (body : string) : exn + response :=
  inr (Response status body body "text/html").

Definition site_env (pages : string -> exn + response) (model : prompt -> exn + string)
    (decode : string -> exn + dict) : Env := {|
  http := fun _ r => pages (r_url r);
  llm := fun _ p => model p;
  goto_status := fun _ _ => inl "browser unavailable";
  render := fun _ _ => inl "browser unavailable";
  browser_links := fun _ _ => ([], Some "browser unavailable");
  clock := fun t => Z.of_nat (length t);
  urljoin := fun base path => inr (base +:+ path);
  urlparse := fun url => Some ("https", url);
  json_loads := decode;
  html_methods := fun _ => [];
  html_anchors := fun _ => [];
  html_body_text := fun body => if String.eqb body "" then None else Some body;
  html_select_one := fun _ _ => false;
  html_card_currency := fun _ => false;
  price_regex := fun _ => false;
  html_main_texts := fun _ => [];
  html_rendered_body := fun _ => None;
  xml_locs := fun _ => [];
  xml_url_locs := fun _ => [];
  xml_sitemap_locs := fun _ => []
|}.

Definition no_model : prompt -> exn + string := fun _ => inl "model unavailable".
Definition no_json : string -> exn + dict := fun _ => inl "Expecting value".

(** The same collaborators with other sitemap documents. *)
Definition with_sitemaps (E : Env) (locs : string -> list string)
    (sitemap_locs : string -> list (option string)) : Env := {|
  http := @http E;
  llm := @llm E;
  goto_status := @goto_status E;
  render := @render E;
  browser_links := @browser_links E;
  clock := @clock E;
  urljoin := @urljoin E;
  urlparse := @urlparse E;
  json_loads := @json_loads E;
  html_methods := @html_methods E;
  html_anchors := @html_anchors E;
  html_body_text := @html_body_text E;
  html_select_one := @html_select_one E;
  html_card_currency := @html_card_currency E;
  price_regex := @price_regex E;
  html_main_texts := @html_main_texts E;
  html_rendered_body := @html_rendered_body E;
  xml_locs := locs;
  xml_url_locs := fun _ => [];
  xml_sitemap_locs := sitemap_locs
|}.

(** Two sitemap indexes that list each other: A lists B and the pricing
    page, B lists A and the plans page; nothing else is live. *)
Definition index_a : string := "https://acme.test/sitemap_index.xml".
Definition index_b : string := "https://acme.test/more/sitemap_index.xml".

Definition cyclic_pages (url : string) : exn + response :=
  if String.eqb url index_a then page 200 "A"
  else if String.eqb url index_b then page 200 "B"
  else page 404 "".

Definition cyclic : Env :=
  with_sitemaps (site_env cyclic_pages no_model no_json)
    (fun doc =>
       if String.eqb doc "A" then [index_b; "https://acme.test/pricing"]
       else if String.eqb doc "B" then [index_a; "https://acme.test/plans"]
       else [])
    (fun doc =>
       if String.eqb doc "A" then [Some index_b]
       else if String.eqb doc "B" then [Some index_a]
       else []).

(** A live site and a model that answers the ranking prompt with an empty
    JSON object. *)
Definition empty_answer : Env :=
  site_env (fun _ => page 200 "")
    (fun _ => inr "Here you go: {}")
    (fun span => if String.eqb span "{}" then inr [] else inl "Expecting value").

(** A batch of three rows, two of them under the same name, and a
    checkpoint that holds a result for that name. *)
Definition acme_twice : list item :=
  [Item "Acme" (Some "acme.test"); Item "Acme" (Some "acme.example"); Item "Bolt" None].

Definition acme_done : checkpoint :=
  Checkpoint {["Acme" := JObj [("name", JStr "Acme"); ("success", JBool true)]]} 1 3 0.

(** A batch of distinct names, and a checkpoint for the first of them. *)
Definition two_sites : list item :=
  [Item "Acme" (Some "acme.test"); Item "Bolt" (Some "")].

(** A text of [n] characters. *)
Fixpoint filler (n : nat) : string :=
  match n with
  | O => EmptyString
  | S n' => String "x" (filler n')
  end.

(** A site without links or sitemaps whose model ranks three pages: the
    first shows a long text with the word Error in it, the second and the
    third a long text each; the analyzer finds a plan on the second and on
    the third. *)
Definition page_a : string := "https://acme.test/status".
Definition page_b : string := "https://acme.test/pricing".
Definition page_c : string := "https://acme.test/plans".

Definition acme_pages (url : string) : exn + response :=
  if String.eqb url page_a then page 200 ("No Error today. " +:+ filler 120)
  else if String.eqb url page_b then page 200 (filler 500)
  else if String.eqb url page_c then page 200 (filler 150)
  else page 404 "".

Definition acme_model (p : prompt) : exn + string :=
  match p with
  | RankPrompt _ _ _ => inr "Likely pages: {rank}"
  | AnalyzePrompt _ _ url =>
      if String.eqb url page_a then inr "{none}" else inr "{pro}"
  end.

Definition pro_plan : dict :=
  [("currency", JStr "usd");
   ("plans", JArr [JObj [("name", JStr "Pro");
                         ("pricing_tiers",
                          JArr [JObj [("price", JNum 9); ("currency", JStr "usd");
                                      ("billing_period", JStr "monthly");
                                      ("features", JArr [JStr "X"])]])]])].

Definition acme_json (span : string) : exn + dict :=
  if String.eqb span "{rank}"
  then inr [("pricing_urls", JArr [JStr page_a; JStr page_b; JStr page_c])]
  else if String.eqb span "{pro}" then inr pro_plan
  else if String.eqb span "{none}" then inr [("plans", JArr [])]
  else inl "Expecting value".

Definition acme : Env := site_env acme_pages acme_model acme_json.

(** The same pages with a model that ranks the second and the third page:
    its analysis of the second holds a sentence under [plans], that of the
    third a list of plans. *)
Definition quote_model (p : prompt) : exn + string :=
  match p with
  | RankPrompt _ _ _ => inr "Likely pages: {rank}"
  | AnalyzePrompt _ _ url =>
      if String.eqb url page_b then inr "{quote}" else inr "{pro}"
  end.

Definition quote_json (span : string) : exn + dict :=
  if String.eqb span "{rank}"
  then inr [("pricing_urls", JArr [JStr page_b; JStr page_c])]
  else if String.eqb span "{quote}" then inr [("plans", JStr "Contact sales")]
  else if String.eqb span "{pro}" then inr pro_plan
  else inl "Expecting value".

Definition quote : Env := site_env acme_pages quote_model quote_json.

(** A chain of sitemap indexes, each listing the next: the document of an
    index is its own URL, and the chain is 14 indexes long. *)
Definition chain_head : string := "https://acme.test/sitemap_index.xml".

Definition chain_pages (url : string) : exn + response :=
  if Str.startswith chain_head url then page 200 url else page 404 "".

Definition chain : Env :=
  with_sitemaps (site_env chain_pages no_model no_json)
    (fun _ => [])
    (fun doc =>
       if (String.length doc <? String.length chain_head + 26)%nat
       then [Some (doc +:+ "/s")] else []).

(** Every URL answers 200 with an empty body. *)
Definition all_live : Env := site_env (fun _ => page 200 "") no_model no_json.

(** A page the browser renders: its main element holds 120 characters,
    its body a menu before them; fetched plainly, the page has a body of 40
    characters. *)
Definition main_part : string := filler 120.
Definition body_part : string := "Menu Login " +:+ filler 120.

Definition rendered : Env := {|
  http := fun _ _ => page 200 "<plain>";
  llm := fun _ p => no_model p;
  goto_status := fun _ _ => inl "browser unavailable";
  render := fun _ _ => inr "<rendered>";
  browser_links := fun _ _ => ([], None);
  clock := fun t => Z.of_nat (length t);
  urljoin := fun base path => inr (base +:+ path);
  urlparse := fun url => Some ("https", url);
  json_loads := no_json;
  html_methods := fun _ => [];
  html_anchors := fun _ => [];
  html_body_text := fun _ => Some (filler 40);
  html_select_one := fun _ _ => false;
  html_card_currency := fun _ => false;
  price_regex := fun _ => false;
  html_main_texts := fun _ => [main_part];
  html_rendered_body := fun _ => Some body_part;
  xml_locs := fun _ => [];
  xml_url_locs := fun _ => [];
  xml_sitemap_locs := fun _ => []
|}.

(** The same site on a machine without browser. *)
Definition unrendered : Env := {|
  http := @http rendered;
  llm := @llm rendered;
  goto_status := @goto_status rendered;
  render := fun _ _ => inl "browser unavailable";
  browser_links := @browser_links rendered;
  clock := @clock rendered;
  urljoin := @urljoin rendered;
  urlparse := @urlparse rendered;
  json_loads := @json_loads rendered;
  html_methods := @html_methods rendered;
  html_anchors := @html_anchors rendered;
  html_body_text := @html_body_text rendered;
  html_select_one := @html_select_one rendered;
  html_card_currency := @html_card_currency rendered;
  price_regex := @price_regex rendered;
  html_main_texts := @html_main_texts rendered;
  html_rendered_body := @html_rendered_body rendered;
  xml_locs := @xml_locs rendered;
  xml_url_locs := @xml_url_locs rendered;
  xml_sitemap_locs := @xml_sitemap_locs rendered
|}.

(** A domain with a malformed netloc: [urljoin] and [urlparse] raise on it
    and every request fails; the model is down. *)
Definition bad_netloc (url : string) : bool := Str.startswith "https://[" url.

Definition malformed : Env := {|
  http := fun _ _ => inl "Invalid URL";
  llm := fun _ p => no_model p;
  goto_status := fun _ _ => inl "browser unavailable";
  render := fun _ _ => inl "browser unavailable";
  browser_links := fun _ _ => ([], Some "browser unavailable");
  clock := fun t => Z.of_nat (length t);
  urljoin := fun base path =>
    if bad_netloc base then inl "Invalid IPv6 URL" else inr (base +:+ path);
  urlparse := fun url => if bad_netloc url then None else Some ("https", url);
  json_loads := no_json;
  html_methods := fun _ => [];
  html_anchors := fun _ => [];
  html_body_text := fun _ => None;
  html_select_one := fun _ _ => false;
  html_card_currency := fun _ => false;
  price_regex := fun _ => false;
  html_main_texts := fun _ => [];
  html_rendered_body := fun _ => None;
  xml_locs := fun _ => [];
  xml_url_locs := fun _ => [];
  xml_sitemap_locs := fun _ => []
|}.

End Scenario.

(** ** Reading a trace *)

(** Every computation extends the trace, and the events it adds are of a
    known kind. *)
Definition grows {A} (P : event -> Prop) (m : M A) : Prop :=
  forall t, exists evs, (m t).2 = t ++ evs /\ Forall P evs.

(** Input and output proper, as opposed to the recorded calls. *)
Definition is_io (e : event) : Prop :=
  match e with
  | EvHttp _ | EvGoto _ _ _ | EvRender _ | EvLinks _ | EvLLM _ | EvSleep _
  | EvIndicators _ _ => True
  | _ => False
  end.

(** ** The claims in the words of the specification *)

(** The existence check as the specification words it: a HEAD probe, and a
    GET with the same timeout and redirect policy only when the probe did
    not report success; the answer and the requests issued. *)
Definition two_tier_check `{Env} (url : string) (t : trace) : bool * trace :=
  let probe := Request HEAD url 8 true None true in
  let fetch := Request GET url 8 true None true in
  if status_is (http t probe) (Z.eqb 200)
  then (true, t ++ [EvHttp probe])
  else (status_is (http (t ++ [EvHttp probe]) fetch) (Z.eqb 200),
        t ++ [EvHttp probe; EvHttp fetch]).

(** What the browser pipeline does instead: a GET, then a navigation of the
    browser, then a HEAD with a shorter timeout; any status below 400 counts. *)
Definition three_tier_check `{Env} (url : string) (t : trace) : bool * trace :=
  let agent := Some "Mozilla/5.0" in
  let fetch := Request GET url 8 true agent true in
  let nav := EvGoto url "domcontentloaded" 15000 in
  let probe := Request HEAD url 5 true agent true in
  if status_is (http t fetch) (fun s => s <? 400)
  then (true, t ++ [EvHttp fetch])
  else if nav_ok (goto_status (t ++ [EvHttp fetch]) url)
  then (true, t ++ [EvHttp fetch; nav])
  else (status_is (http (t ++ [EvHttp fetch; nav]) probe) (fun s => s <? 400),
        t ++ [EvHttp fetch; nav; EvHttp probe]).

Definition is_head_request (e : event) : bool :=
  match e with
  | EvHttp r => match r_method r with HEAD => true | GET => false end
  | _ => false
  end.

(** The same collaborators with other pricing-indicator detectors. *)
Definition with_detection (E : Env) (select_one : string -> string -> bool)
    (card_currency regex : string -> bool) : Env := {|
  http := @http E;
  llm := @llm E;
  goto_status := @goto_status E;
  render := @render E;
  browser_links := @browser_links E;
  clock := @clock E;
  urljoin := @urljoin E;
  urlparse := @urlparse E;
  json_loads := @json_loads E;
  html_methods := @html_methods E;
  html_anchors := @html_anchors E;
  html_body_text := @html_body_text E;
  html_select_one := select_one;
  html_card_currency := card_currency;
  price_regex := regex;
  html_main_texts := @html_main_texts E;
  html_rendered_body := @html_rendered_body E;
  xml_locs := @xml_locs E;
  xml_url_locs := @xml_url_locs E;
  xml_sitemap_locs := @xml_sitemap_locs E
|}.

(** [body] is the body text of the page that a GET of [url] returns. *)
Definition fetched_body `{Env} (url : string) (t : trace) (body : string) : Prop :=
  exists resp, http t (Request GET url 10 true None true) = inr resp /\
    status_code resp = 200 /\ html_body_text (content resp) = Some body.

(** The plain content extractor as the specification words it: fetch, an
    error string on a status other than 200 or on a page without body, else
    the body text cut at 50,000 characters. *)
Definition body_or_error `{Env} (url : string) (t : trace) : string :=
  match http t (Request GET url 10 true None true) with
  | inl e => "Error extracting content: " +:+ e
  | inr resp =>
      if status_code resp =? 200 then
        match html_body_text (content resp) with
        | Some body => Str.slice_to 50000 body
        | None => "Error: No body tag found"
        end
      else "Error: HTTP " +:+ Str.of_Z (status_code resp)
  end.

(** The longest of the texts, the first among equally long ones; the empty
    text when there is none. *)
Fixpoint longest_text (texts : list string) : string :=
  match texts with
  | [] => ""
  | x :: rest =>
      let best := longest_text rest in
      if Str.len best >? Str.len x then best else x
  end.

(** The text the browser pipeline reads off a rendered page: the longest
    text of a main-content element when that has at least 100 characters,
    else the text of the body when the page has one. *)
Definition main_or_body `{Env} (page : string) : string :=
  let main := longest_text (html_main_texts page) in
  if 100 <=? Str.len main then main
  else match html_rendered_body page with
       | Some body => body
       | None => main
       end.

(** What the plain request of the browser pipeline gives: the body text cut
    at 50,000 characters, or an error string. *)
Definition fetched_or_error `{Env} (url : string) (t : trace) : string :=
  match http t (Request GET url 10 true None true) with
  | inl e => "Error: " +:+ e
  | inr resp =>
      if status_code resp =? 200 then
        match html_body_text (content resp) with
        | Some body => Str.slice_to 50000 body
        | None => "Error: No body tag found"
        end
      else "Error: HTTP " +:+ Str.of_Z (status_code resp)
  end.

(** The content extractor of the browser pipeline in words: the text read
    off the rendered page, cut at 50,000 characters, when the page could be
    rendered and what is left has more than 100 characters; else what the
    plain request gives, when that has more than 100 characters; else a
    fixed error string. *)
Definition rendered_or_fetched `{Env} (url : string) (t : trace) : string :=
  let rendered :=
    match render t url with
    | inr page => Str.slice_to 50000 (main_or_body page)
    | inl _ => ""
    end in
  if 100 <? Str.len rendered then rendered
  else
    let fetched := fetched_or_error url (t ++ [EvRender url]) in
    if 100 <? Str.len fetched then fetched
    else "Error: Could not extract content with either method".

(** Events of the nested-index expansion started at depth [lo]: input and
    output, and recursive invocations at depths from [lo] to the cap. *)
Definition nested_event (lo : Z) (e : event) : Prop :=
  match e with
  | EvNested _ d => lo <= d <= max_depth
  | _ => is_io e
  end.

(** Events of the queue loop entered with the counter at [lo]: those of the
    nested expansion from depth 0, and iterations numbered above [lo] up to
    the cap. *)
Definition traversal_event (lo : Z) (e : event) : Prop :=
  match e with
  | EvSitemapIter i _ => lo < i <= max_iterations
  | _ => nested_event 0 e
  end.

Definition is_iteration (e : event) : bool :=
  match e with
  | EvSitemapIter _ _ => true
  | _ => false
  end.

(** How many iterations of the queue loop a trace shows. *)
Definition iteration_count (evs : trace) : Z := list_len (List.filter is_iteration evs).

(** [t'] extends [t] by events of kind [P]. *)
Definition reaches (P : event -> Prop) (t t' : trace) : Prop :=
  exists evs, t' = t ++ evs /\ Forall P evs.

(** What a run of the queue loop entered with the counter at [i] has done
    when it leaves with the counter at [i'] and the trace at [t']. *)
Definition loop_post (i : Z) (t : trace) (i' : Z) (t' : trace) : Prop :=
  exists evs, t' = t ++ evs /\ Forall (traversal_event i) evs /\
    i <= i' /\ (i' <= max_iterations \/ i' = i) /\ iteration_count evs = i' - i.

(** The bounds on the events of a sitemap traversal: every iteration of the
    queue loop is numbered from 1 to 50, every invocation of the nested
    expansion that gets past its guards runs at a depth from 0 to 10. *)
Definition within_caps (e : event) : Prop :=
  match e with
  | EvSitemapIter i _ => 1 <= i <= 50
  | EvNested _ depth => 0 <= depth <= 10
  | _ => True
  end.

(** Events of link discovery and ranking: input and output, and the
    iterations and invocations of the sitemap traversal within their caps. *)
Definition discovery_event (e : event) : Prop :=
  match e with
  | EvSitemapIter i _ => 1 <= i <= 50
  | EvNested _ depth => 0 <= depth <= 10
  | _ => is_io e
  end.

(** Events of one call of [get_pricing_data]: those of discovery, and the
    calls of the content extractor and of the pricing analyzer. *)
Definition site_event (e : event) : Prop :=
  match e with
  | EvExtract _ _ | EvAnalyze _ _ => True
  | _ => discovery_event e
  end.

(** The calls of the content extractor in a trace, with what each returned. *)
Definition extracted (evs : trace) : list (string * string) :=
  omap (fun e => match e with EvExtract url c => Some (url, c) | _ => None end) evs.

(** The calls of the pricing analyzer in a trace: URL and content passed. *)
Definition analyzed (evs : trace) : list (string * string) :=
  omap (fun e => match e with EvAnalyze c url => Some (url, c) | _ => None end) evs.

(** The skip filter in the words of the specification. *)
Definition passes_filter (c : string) : Prop :=
  100 <= Str.len c /\ forall a b, c <> a +:+ "Error" +:+ b.

Section Attempts.

Context `{Env}.

(** Tried at history [t], the URL gets through: its extracted content
    passes the skip filter and its analysis has plans. *)
Definition accepted (v : variant) (url : string) (t : trace) : bool :=
  let '(c, t1) := extract_pricing_content v url t in
  negb (skip_content c) && has_plans (analyze_pricing_with_ai v c url t1).1.

(** The success record built from the URL tried at history [t]. *)
Definition record_at (v : variant) (domain name url : string) (t : trace) : dict :=
  let '(c, t1) := extract_pricing_content v url t in
  success_record domain name url c (analyze_pricing_with_ai v c url t1).1.

(** The history after the URLs of a list were tried in order. *)
Definition state_after (v : variant) (domain name : string) (urls : list string) (t : trace)
  : trace :=
  fold_left (fun t url => (try_url v domain name url t).2) urls t.

(** Tried in order from history [t], none of the URLs gets through. *)
Fixpoint all_rejected (v : variant) (domain name : string) (urls : list string) (t : trace)
  : Prop :=
  match urls with
  | [] => True
  | url :: rest =>
      accepted v url t = false /\ all_rejected v domain name rest (try_url v domain name url t).2
  end.

End Attempts.

(** [link] contains one of the keywords, letter case aside. *)
Definition mentions (keywords : list string) (link : string) : Prop :=
  exists k a b, k ∈ keywords /\ Str.lower link = a +:+ k +:+ b.

Section RankerWords.

Context `{Env}.

(** What the model proposed, when its answer holds a JSON object. *)
Definition model_answer (t : trace) (p : prompt) : option dict :=
  match llm t p with
  | inl _ => None
  | inr response_text =>
      match Str.brace_span response_text with
      | None => None
      | Some span =>
          match json_loads span with
          | inl _ => None
          | inr result => Some result
          end
      end
  end.

(** The URLs an answer proposes, when they can be walked through. *)
Definition suggestions (result : dict) : option (list json) :=
  Py.iter (default (JArr []) (Py.get "pricing_urls" result)).

End RankerWords.

(** The items the batch loop announces in a trace, by name. *)
Definition processing_names (evs : trace) : list string :=
  omap (fun e => match e with EvProcessing _ _ name => Some name | _ => None end) evs.

(** The calls of the per-site extraction in a trace: website and name. *)
Definition site_calls (evs : trace) : list (string * string) :=
  omap (fun e => match e with EvSite w name => Some (w, name) | _ => None end) evs.

(** The checkpoints written in a trace. *)
Definition checkpoints (evs : trace) : list checkpoint :=
  omap (fun e => match e with EvCheckpoint cp => Some cp | _ => None end) evs.

(** The website the loop passes on for an item that has one. *)
Definition site_of (it : item) : string * string :=
  (with_scheme (default "" (item_website it)), item_name it).

Definition has_website (it : item) : bool := negb (no_website (item_website it)).

(** A record has a field. *)
Definition has_field (k : string) (r : dict) : Prop := is_Some (Py.get k r).

(** The records [get_pricing_data] returns for an item called [name]. *)
Definition site_record (name : string) (r : dict) : Prop :=
  Py.get "name" r = Some (JStr name) /\
  (exists domain, Py.get "domain" r = Some (JStr domain)) /\
  ((Py.get "success" r = Some (JBool true) /\
    (exists url, Py.get "source_url" r = Some (JStr url)) /\
    (exists n, Py.get "content_length" r = Some (JNum n)) /\
    (exists plans, Py.get "plans" r = Some plans /\ Py.truthy plans = true)) \/
   (Py.get "success" r = Some (JBool false) /\
    (exists msg, Py.get "error" r = Some (JStr msg)) /\
    (Py.get "attempted_urls" r = None \/
     exists urls, Py.get "attempted_urls" r = Some (Py.strs urls)))).

(** The records the batch loop of a pipeline stores for an item called
    [name]: the one of an item without website, or one of
    [get_pricing_data]. *)
Definition stored_record (name : string) (r : dict) : Prop :=
  r = empty_url_record \/ site_record name r.

(** The depths of the nested expansion recorded in a trace. *)
Definition nested_depths (evs : trace) : list Z :=
  omap (fun e => match e with EvNested _ d => Some d | _ => None end) evs.

(** ** Words for the further properties *)

(** The string consists of whitespace only. *)
Definition blank (s : string) : Prop :=
  Forall (fun c => Str.is_space c = true) (list_ascii_of_string s).

(** The character occurs in the string. *)
Definition occurs (c : ascii) (s : string) : Prop := In c (list_ascii_of_string s).

(** A link the page collectors may keep: an href that is not empty and
    starts with none of the skipped prefixes, resolved against the domain,
    that passes the URL validator. *)
Definition page_link `{Env} (domain url : string) : Prop :=
  _is_valid_url url = true /\
  exists href, urljoin domain href = inr url /\ href <> "" /\
    Str.startswith_any skipped_schemes href = false.

Definition links_ok `{Env} (domain : string) (links : gset string) : Prop :=
  forall url, url ∈ links -> page_link domain url.

(** Every member passes the URL validator. *)
Definition valid_links `{Env} (links : gset string) : Prop :=
  forall url, url ∈ links -> _is_valid_url url = true.

(** The index documents the nested expansion downloaded to read their
    entries: the URLs of its GET requests, which are the requests with
    timeout 10 (the index test sends a HEAD and a GET with timeout 5). *)
Definition expansion_gets (evs : trace) : list string :=
  omap (fun e => match e with
                 | EvHttp r =>
                     match r_method r with
                     | GET => if r_timeout r =? 10 then Some (r_url r) else None
                     | HEAD => None
                     end
                 | _ => None
                 end) evs.

(** What one run of the nested expansion did, entered with the set
    [processed] and left with [processed'] after the events [evs]: no index
    document downloaded twice for its entries, none whose URL was in the set
    before, and the set grown by exactly the URLs downloaded. *)
Definition visits_once (processed processed' : gset string) (evs : trace) : Prop :=
  NoDup (expansion_gets evs) /\
  (forall url, url ∈ expansion_gets evs -> url ∉ processed) /\
  processed' = list_to_set (expansion_gets evs) ∪ processed.

(** The URL passed the existence check between the histories [t] and
    [t']: the check ran at a history that extends [t], answered yes, and
    [t'] holds its events. *)
Definition checked_live `{Env} (v : variant) (url : string) (t t' : trace) : Prop :=
  exists before after,
    (_check_url_exists v url (t ++ before)).1 = true /\
    t' = (_check_url_exists v url (t ++ before)).2 ++ after.

(** Every URL of the list passed the check between [t] and the later [t']. *)
Definition live_between `{Env} (v : variant) (t : trace) (urls : list string) (t' : trace)
  : Prop :=
  (exists evs, t' = t ++ evs) /\ Forall (fun url => checked_live v url t t') urls.

(** The URLs the keyword fallback looks at: a candidate that mentions a
    pricing keyword, the homepage, a common pricing path under the domain. *)
Definition fallback_candidate `{Env} (domain : string) (all_links : list string) (url : string)
  : Prop :=
  (url ∈ all_links /\ mentions fallback_keywords url) \/
  url = domain \/
  exists path, path ∈ common_paths /\ urljoin domain path = inr url.

(** The strings among the URLs the model proposed. *)
Definition proposed (urls : list json) : list string :=
  omap (fun url => match url with JStr u => Some u | _ => None end) urls.

(** ** The browser handles of the browser pipeline *)

(** [main_failed.py] keeps three handles of the Playwright library in the
    extractor object.  A handle is modelled by whether the attribute is set;
    a library call may raise, as a function of the calls made so far. *)
Module Lifecycle.

Inductive call := Start | Launch | NewContext | CloseContext | CloseBrowser | Stop.

(** [self.playwright], [self.browser], [self.context]: set, or [None]. *)
Record handles := Handles { playwright : bool; browser : bool; context : bool }.

(** The handles as [__init__] leaves them. *)
Definition fresh : handles := Handles false false false.

Section Calls.

(** The exception a library call raises after the calls [h], if any. *)
Variable raises : list call -> call -> option exn.

(** [init_playwright]: the exception that leaves it, the handles and the
    calls made.  An attribute is assigned only when its call returned. *)
Definition init_playwright (s : handles) (h : list call) : option exn * handles * list call :=
  if playwright s then (None, s, h)
  else
    match raises h Start with
    | Some e => (Some e, s, h ++ [Start])
    | None =>
        let s := Handles true (browser s) (context s) in
        let h := h ++ [Start] in
        match raises h Launch with
        | Some e => (Some e, s, h ++ [Launch])
        | None =>
            let s := Handles (playwright s) true (context s) in
            let h := h ++ [Launch] in
            match raises h NewContext with
            | Some e => (Some e, s, h ++ [NewContext])
            | None => (None, Handles (playwright s) (browser s) true, h ++ [NewContext])
            end
        end
    end.

(** [close_playwright], which is also what [__exit__] does. *)
Definition close_playwright (s : handles) (h : list call) : option exn * handles * list call :=
  let after_context :=
    if context s
    then match raises h CloseContext with
         | Some e => (Some e, s, h ++ [CloseContext])
         | None => (None, Handles (playwright s) (browser s) false, h ++ [CloseContext])
         end
    else (None, s, h) in
  match after_context with
  | (Some e, s, h) => (Some e, s, h)
  | (None, s, h) =>
      let after_browser :=
        if browser s
        then match raises h CloseBrowser with
             | Some e => (Some e, s, h ++ [CloseBrowser])
             | None => (None, Handles (playwright s) false (context s), h ++ [CloseBrowser])
             end
        else (None, s, h) in
      match after_browser with
      | (Some e, s, h) => (Some e, s, h)
      | (None, s, h) =>
          if playwright s
          then match raises h Stop with
               | Some e => (Some e, s, h ++ [Stop])
               | None => (None, Handles false (browser s) (context s), h ++ [Stop])
               end
          else (None, s, h)
      end
  end.

End Calls.

(** A machine on which the browser cannot be launched. *)
Definition no_browser (h : list call) (c : call) : option exn :=
  match c with
  | Launch => Some "Executable doesn't exist"
  | _ => None
  end.

(** A machine on which every call returns. *)
Definition all_fine (h : list call) (c : call) : option exn := None.

End Lifecycle.

(** * Properties *)

(** ** Traces grow *)


Lemma grows_ret {A} P (a : A) : grows P (ret a).
Proof. intros t. exists []. by rewrite app_nil_r. Qed.

Lemma grows_bind {A B} P (m : M A) (k : A -> M B) :
  grows P m -> (forall a, grows P (k a)) -> grows P (bind m k).
Proof.
  intros Hm Hk t. unfold bind.
  destruct (Hm t) as (e1 & E1 & F1). destruct (m t) as [a t1]. simpl in E1. subst t1.
  destruct (Hk a (t ++ e1)) as (e2 & E2 & F2).
  exists (e1 ++ e2). rewrite E2, app_assoc. split; [done | by apply Forall_app].
Qed.

Lemma grows_emit P e : P e -> grows P (emit e).
Proof. intros He t. exists [e]. split; [done | by constructor]. Qed.

Lemma grows_mono {A} (P Q : event -> Prop) (m : M A) :
  (forall e, P e -> Q e) -> grows P m -> grows Q m.
Proof.
  intros HPQ Hm t. destruct (Hm t) as (evs & E & F).
  exists evs. split; [done | by eapply Forall_impl].
Qed.

Lemma grows_for_each {A S} P (l : list A) (body : A -> S -> M S) (s : S) :
  (forall x s, grows P (body x s)) -> grows P (for_each l body s).
Proof.
  intros Hb. revert s. induction l as [|x l IH]; intros s; simpl.
  - apply grows_ret.
  - apply grows_bind; [apply Hb | apply IH].
Qed.

Lemma grows_for_each_try {A S} P (l : list A) (body : A -> S -> M (exn + S)) (s : S) :
  (forall x s, grows P (body x s)) -> grows P (for_each_try l body s).
Proof.
  intros Hb. revert s. induction l as [|x l IH]; intros s; simpl.
  - apply grows_ret.
  - apply grows_bind; [apply Hb | intros [e|s']; [apply grows_ret | apply IH]].
Qed.

(** Walks through a computation built from [bind], [ret], [emit], loops and
    case distinctions; [side] settles the kind of each event. *)
Ltac grow_with side :=
  repeat first
    [ apply grows_ret
    | apply grows_emit; side
    | apply grows_bind; [| intros ?]
    | apply grows_for_each; intros ? ?
    | match goal with
      | |- grows _ (match ?x with _ => _ end) => destruct x
      | |- grows _ (if ?b then _ else _) => destruct b
      | |- grows _ (fun t => (_, t ++ [_])) => apply (grows_emit _ _); side
      end ].

Section IoLemmas.

Context `{Env}.
Variable P : event -> Prop.
Hypothesis P_io : forall e, is_io e -> P e.

Lemma grows_send r : grows P (send r).
Proof. intros t. exists [EvHttp r]. split; [done | constructor; [by apply P_io | done]]. Qed.

Lemma grows_goto url w n : grows P (page_goto url w n).
Proof. intros t. exists [EvGoto url w n]. split; [done | constructor; [by apply P_io | done]]. Qed.

Lemma grows_sleep n : grows P (sleep n).
Proof. apply grows_emit. by apply P_io. Qed.

Lemma grows_ask p : grows P (ask p).
Proof. intros t. exists [EvLLM p]. split; [done | constructor; [by apply P_io | done]]. Qed.

Lemma grows_check v url : grows P (_check_url_exists v url).
Proof.
  destruct v; simpl; unfold check_url_exists_plain, check_url_exists_browser,
    session_head, session_get;
  grow_with ltac:(by apply P_io).
Qed.

Ltac io := grow_with ltac:(by apply P_io).

Lemma grows_alternative domain : grows P (_get_links_alternative_method domain).
Proof. unfold _get_links_alternative_method, requests_get. io. Qed.

Lemma grows_visit_important v domain page links :
  grows P (visit_important v domain page links).
Proof.
  unfold visit_important, session_get.
  destruct (urljoin domain page) as [e|page_url]; [apply grows_ret |].
  apply grows_bind; [apply grows_sleep | intros _].
  apply grows_bind; [apply grows_check | intros live].
  io.
Qed.

Lemma grows_website_links v domain : grows P (_get_all_website_links v domain).
Proof.
  destruct v; simpl.
  - unfold get_all_website_links_plain, session_get.
    apply grows_bind; [apply grows_send | intros r].
    destruct r as [e|resp]; [apply grows_alternative |].
    destruct (_ || _); [apply grows_alternative |].
    destruct (negb _); [apply grows_ret |].
    apply grows_bind; [| intros [e|l]; [apply grows_alternative | apply grows_ret]].
    apply grows_for_each_try. intros ? ?. apply grows_visit_important.
  - unfold get_all_website_links_browser.
    apply grows_bind; [io | intros found].
    destruct (snd found); [| apply grows_ret].
    apply grows_bind; [apply grows_alternative | intros ?; apply grows_ret].
Qed.

Lemma grows_discover domain : grows P (_discover_sitemap_urls domain).
Proof.
  unfold _discover_sitemap_urls, session_get.
  destruct (join_each _ _); [apply grows_ret |].
  destruct (urljoin _ _); [apply grows_ret |]. io.
Qed.

Lemma grows_sitemap_page url : grows P (_extract_links_from_sitemap url).
Proof. unfold _extract_links_from_sitemap, session_get. io. Qed.

Lemma grows_is_index url : grows P (_is_sitemap_index url).
Proof. unfold _is_sitemap_index, session_get, session_head. io. Qed.

Lemma grows_keep_if_live v url urls : grows P (keep_if_live v url urls).
Proof.
  unfold keep_if_live. apply grows_bind; [apply grows_check | intros ?; apply grows_ret].
Qed.

Lemma grows_fallback v domain links : grows P (_fallback_pricing_urls v domain links).
Proof.
  unfold _fallback_pricing_urls.
  apply grows_bind.
  { apply grows_for_each. intros link urls.
    destruct (Str.contains_any _ _); [apply grows_keep_if_live | apply grows_ret]. }
  intros urls. apply grows_bind.
  { destruct (bool_decide _); [apply grows_ret | apply grows_keep_if_live]. }
  intros urls'. apply grows_for_each_try. intros path us. unfold try_common_path.
  destruct (urljoin _ _); [apply grows_ret |].
  apply grows_bind; [apply grows_check | intros ?; apply grows_ret].
Qed.

Lemma grows_ranker v domain links : grows P (_ai_identify_pricing_links v domain links).
Proof.
  unfold _ai_identify_pricing_links.
  apply grows_bind; [apply grows_ask | intros r].
  destruct r as [e|txt]; [apply grows_fallback |].
  destruct (Str.brace_span txt).
  2:{ unfold fallback_in_try. apply grows_bind; [apply grows_fallback | intros r].
      destruct r; [apply grows_fallback | apply grows_ret]. }
  destruct (json_loads _); [apply grows_fallback |].
  destruct (Py.iter _); [| apply grows_fallback].
  apply grows_bind; [| intros ?; apply grows_ret].
  apply grows_for_each. intros u us. destruct u; simpl; try apply grows_ret.
  apply grows_keep_if_live.
Qed.

Lemma grows_extract_plain url : grows P (extract_plain url).
Proof. unfold extract_plain, session_get. io. Qed.

Lemma grows_extract_browser url : grows P (extract_browser url).
Proof.
  unfold extract_browser, _extract_with_playwright, _extract_with_requests, session_get. io.
Qed.

End IoLemmas.

(** ** Existence checker *)

(** C4, as amended: in the plain pipeline ([main.py]) the existence check is
    the two-tier check for every URL and every history: a HEAD probe with
    redirects followed and timeout 8 that answers true at once on status
    200, else one GET with the same timeout and redirect policy whose status
    200 decides; never a third request.  The browser pipeline
    ([main_failed.py]) runs its own three tiers: GET, browser navigation,
    HEAD. *)
Theorem existence_check_tiers `{Env} (url : string) (t : trace) :
  _check_url_exists Plain url t = two_tier_check url t /\
  _check_url_exists Browser url t = three_tier_check url t.
Proof.
  split.
  - unfold _check_url_exists, check_url_exists_plain, two_tier_check, bind,
      session_head, session_get, send, ret.
    destruct (status_is _ _); [done |]. by rewrite <- app_assoc.
  - unfold _check_url_exists, check_url_exists_browser, three_tier_check, bind,
      session_head, session_get, send, page_goto, ret.
    destruct (status_is _ _); [done |]. rewrite <- app_assoc. simpl.
    destruct (nav_ok _); [done |]. rewrite <- app_assoc. done.
Qed.

(** C4 as stated fails on the browser pipeline: on a live URL its existence
    check answers after a single GET, no HEAD probe is ever issued, and the
    outcome differs from that of the two-tier check. *)
Lemma existence_check_browser_starts_with_get :
  let E := Scenario.all_live in
  let url := "https://acme.test/pricing" in
  _check_url_exists Browser url [] =
    (true, [EvHttp (Request GET url 8 true (Some "Mozilla/5.0") true)]) /\
  existsb is_head_request (_check_url_exists Browser url []).2 = false /\
  _check_url_exists Browser url [] <> two_tier_check url [].
Proof. repeat split. discriminate. Qed.

(** ** Strings *)

Lemma substring_length_le (n : nat) (s : string) :
  (String.length (String.substring 0 n s) <= n)%nat.
Proof.
  revert s. induction n as [|n IH]; intros [|c s]; simpl; try lia.
  specialize (IH s). lia.
Qed.

Lemma slice_to_len (n : Z) (s : string) : 0 <= n -> Str.len (Str.slice_to n s) <= n.
Proof.
  intros Hn. unfold Str.slice_to, Str.len.
  destruct (n <? 0) eqn:E; [lia |].
  pose proof (substring_length_le (Z.to_nat n) s). lia.
Qed.

Lemma startswith_spec (p s : string) :
  Str.startswith p s = true <-> exists b, s = p +:+ b.
Proof.
  revert s. induction p as [|a p IH]; intros s; simpl.
  - split; [intros _; by exists s | done].
  - destruct s as [|c s]; simpl.
    + split; [done | intros (b & Hb); discriminate].
    + destruct (Ascii.eqb a c) eqn:Hac.
      * apply Ascii.eqb_eq in Hac. subst c. rewrite IH.
        split; intros (b & Hb); exists b; [by rewrite Hb | by inversion Hb].
      * apply Ascii.eqb_neq in Hac.
        split; [done | intros (b & Hb); inversion Hb; congruence].
Qed.

Lemma contains_spec (p s : string) :
  Str.contains p s = true <-> exists a b, s = a +:+ p +:+ b.
Proof.
  split.
  - induction s as [|c s IH]; simpl; rewrite orb_true_iff; intros [Hs | Hc].
    + apply startswith_spec in Hs as (b & ->). by exists "", b.
    + done.
    + apply startswith_spec in Hs as (b & ->). by exists "", b.
    + destruct (IH Hc) as (a & b & ->). by exists (String c a), b.
  - intros (a & b & ->). induction a as [|c a IH]; simpl.
    + assert (Str.startswith p (p +:+ b) = true) as Hs by (apply startswith_spec; by exists b).
      destruct (p +:+ b); simpl in *; by rewrite Hs.
    + rewrite IH. apply orb_true_r.
Qed.

Lemma skip_content_spec (c : string) : skip_content c = false <-> passes_filter c.
Proof.
  unfold skip_content, passes_filter. rewrite orb_false_iff, Z.ltb_ge. split.
  - intros [Hc Hl]. split; [done |]. intros a b ->.
    assert (Str.contains "Error" (a +:+ "Error" +:+ b) = true) as Ht
      by (apply contains_spec; by exists a, b).
    congruence.
  - intros [Hl Hc]. split; [| done].
    destruct (Str.contains "Error" c) eqn:Ht; [| done].
    apply contains_spec in Ht as (a & b & ->). by destruct (Hc a b).
Qed.

(** ** Content extractor *)

Lemma len_nonneg (s : string) : 0 <= Str.len s.
Proof. unfold Str.len. lia. Qed.

Lemma len_zero (s : string) : Str.len s = 0 -> s = "".
Proof. destruct s; [done |]. unfold Str.len. simpl String.length. lia. Qed.

(** The loop that keeps the longer text ends with the longest one. *)
Lemma longest_fold (texts : list string) : forall best,
  fold_left longer texts best
    = if Str.len (longest_text texts) >? Str.len best then longest_text texts else best.
Proof.
  induction texts as [|x texts IH]; intros best; simpl.
  - destruct (Str.len "" >? Str.len best) eqn:E; [| done].
    pose proof (len_nonneg best). change (Str.len "") with 0 in E. lia.
  - rewrite IH. unfold longer.
    set (m := longest_text texts).
    destruct (Str.len x >? Str.len best) eqn:Hx; cbv iota;
      destruct (Str.len m >? Str.len x) eqn:Hm; cbv iota; rewrite ?Hx; try done;
      destruct (Str.len m >? Str.len best) eqn:Hb; try done; lia.
Qed.

Lemma rendered_text_spec `{Env} (page : string) : rendered_text page = main_or_body page.
Proof.
  unfold rendered_text, main_or_body. rewrite longest_fold.
  set (m := longest_text (html_main_texts page)).
  assert (Hm : (if Str.len m >? Str.len "" then m else "") = m).
  { destruct (Str.len m >? Str.len "") eqn:E; [done |].
    symmetry. apply len_zero. pose proof (len_nonneg m).
    change (Str.len "") with 0 in E. lia. }
  rewrite Hm.
  destruct (String.eqb_spec m "") as [-> | Hne]; simpl; [done |].
  destruct (Str.len m <? 100) eqn:E1; destruct (100 <=? Str.len m) eqn:E2; try done; lia.
Qed.

Lemma usable_spec (c : string) : usable c = (100 <? Str.len c).
Proof.
  unfold usable. destruct (String.eqb_spec c "") as [-> | Hne]; simpl; [done |].
  destruct (Str.len c >? 100) eqn:E1; destruct (100 <? Str.len c) eqn:E2; try done; lia.
Qed.

Lemma extract_requests_spec `{Env} url t :
  (_extract_with_requests url t).1 = fetched_or_error url t.
Proof.
  unfold _extract_with_requests, fetched_or_error, session_get, send, bind, ret. simpl.
  destruct (http t _) as [e|resp]; simpl; [done |].
  destruct (status_code resp =? 200); simpl; [| done].
  by destruct (html_body_text (content resp)).
Qed.

Lemma fetched_or_error_shape `{Env} url t :
  let c := fetched_or_error url t in
  Str.startswith "Error" c = true \/ Str.len c <= 50000.
Proof.
  unfold fetched_or_error. destruct (http t _) as [e|resp]; simpl; [by left |].
  destruct (status_code resp =? 200); simpl; [| by left].
  destruct (html_body_text (content resp)) as [body|]; [| by left].
  right. by apply slice_to_len.
Qed.

(** C7, as amended: the content extractor of the plain pipeline is the
    extractor the specification describes: it returns an error string that
    starts with "Error", or the body text of the fetched page cut at 50,000
    characters, and exactly the latter whenever the fetch answers 200 with a
    body.  The content extractor of the browser pipeline is another one: it
    returns the text read off the rendered page (the longest main-content
    text when that has at least 100 characters, else the body text), cut at
    50,000 characters, when that has more than 100 characters; else what a
    plain request gives, when that has more than 100 characters; else a
    fixed error string.  In both pipelines the returned value is the same
    whatever the pricing-indicator detectors (selectors, currency cards,
    price regex) answer: they only feed the log. *)
Theorem extractor_returns_body_or_error `{E : Env} (v : variant) (url : string) (t : trace) :
  let c := (extract_pricing_content v url t).1 in
  (extract_pricing_content Plain url t).1 = body_or_error url t /\
  (extract_pricing_content Browser url t).1 = rendered_or_fetched url t /\
  match v with
  | Plain =>
      Str.startswith "Error" c = true \/
      exists body, fetched_body url t body /\ c = Str.slice_to 50000 body /\
                   Str.len c <= 50000
  | Browser => Str.startswith "Error" c = true \/ 100 < Str.len c <= 50000
  end /\
  (forall select_one card_currency regex,
     (@extract_pricing_content (with_detection E select_one card_currency regex) v url t).1 = c).
Proof.
  assert (Hplain : (extract_pricing_content Plain url t).1 = body_or_error url t).
  { unfold extract_pricing_content, extract_plain, body_or_error, session_get, send,
      bind, emit, ret.
    destruct (http t _) as [e|resp]; simpl; [done |].
    destruct (status_code resp =? 200); simpl; [| done].
    by destruct (html_body_text (content resp)). }
  assert (Hbrowser : (extract_pricing_content Browser url t).1 = rendered_or_fetched url t).
  { unfold extract_pricing_content, extract_browser, rendered_or_fetched, bind, emit, ret.
    assert (Hpw : _extract_with_playwright url t
                  = (match render t url with
                     | inr page => Str.slice_to 50000 (main_or_body page)
                     | inl _ => ""
                     end, t ++ [EvRender url])).
    { unfold _extract_with_playwright, bind, ret.
      destruct (render t url) as [e|page]; [done |]. by rewrite rendered_text_spec. }
    rewrite Hpw. cbv zeta. rewrite usable_spec.
    destruct (100 <? Str.len _) eqn:Hr; [done |].
    pose proof (extract_requests_spec url (t ++ [EvRender url])) as Hrq.
    destruct (_extract_with_requests url (t ++ [EvRender url])) as [rq t2].
    simpl in Hrq. subst rq. rewrite usable_spec.
    by destruct (100 <? Str.len (fetched_or_error url (t ++ [EvRender url]))). }
  cbv zeta. split; [exact Hplain |]. split; [exact Hbrowser |]. split.
  - destruct v.
    + rewrite Hplain. unfold body_or_error.
      destruct (http t _) as [e|resp] eqn:Hr; simpl; [by left |].
      destruct (status_code resp =? 200) eqn:Hs; simpl; [| by left].
      destruct (html_body_text (content resp)) as [body|] eqn:Hb; simpl; [| by left].
      right. exists body. split; [| split; [done | by apply slice_to_len]].
      exists resp. repeat split; [done | lia | done].
    + rewrite Hbrowser. unfold rendered_or_fetched. cbv zeta.
      destruct (100 <? Str.len _) eqn:Hr.
      { right. split; [lia |].
        destruct (render t url) as [e|page]; [change (Str.len "") with 0 in Hr; lia |].
        by apply slice_to_len. }
      destruct (100 <? Str.len (fetched_or_error _ _)) eqn:Hf; [| by left].
      destruct (fetched_or_error_shape url (t ++ [EvRender url])) as [Herr | Hlen];
        [by left | right; lia].
  - intros sel card re. destruct v; unfold extract_pricing_content, bind, emit, ret.
    + unfold extract_plain, session_get, send, bind, emit, ret. simpl.
      destruct (http t _) as [e|resp]; simpl; [done |].
      destruct (negb _); simpl; [done |].
      by destruct (html_body_text (content resp)).
    + done.
Qed.

(** C7 as stated fails on the browser pipeline.  On a page whose main
    element holds 120 characters and whose body holds more, the extractor
    returns the text of the main element, which is neither the body text nor
    an error string; and where the browser is missing and the fetched page
    has a body of 40 characters, it returns an error string although the
    fetch found the body text. *)
Lemma browser_extractor_is_not_the_body_text :
  let url := "https://acme.test/pricing" in
  let c := (@extract_pricing_content Scenario.rendered Browser url []).1 in
  let short := (@extract_pricing_content Scenario.unrendered Browser url []).1 in
  c = Scenario.main_part /\
  @html_rendered_body Scenario.rendered "<rendered>" = Some Scenario.body_part /\
  c <> Str.slice_to 50000 Scenario.body_part /\
  Str.startswith "Error" c = false /\
  @fetched_body Scenario.unrendered url [EvRender url] (Scenario.filler 40) /\
  short = "Error: Could not extract content with either method" /\
  (@extract_pricing_content Scenario.unrendered Plain url []).1 = Scenario.filler 40.
Proof.
  cbv zeta. split; [by vm_compute |]. split; [done |]. split; [by vm_compute |].
  split; [by vm_compute |]. split.
  - eexists. split; [reflexivity |]. split; [reflexivity | reflexivity].
  - split; by vm_compute.
Qed.

(** ** Sitemap traversal *)

Section Traversal.

Context `{Env}.

Lemma nested_event_io lo e : is_io e -> nested_event lo e.
Proof. by destruct e. Qed.

Lemma nested_event_weaken lo lo' e : lo <= lo' -> nested_event lo' e -> nested_event lo e.
Proof. destruct e; simpl; try done. lia. Qed.

Lemma visit_all_nested_grows (P : event -> Prop) recur depth :
  (forall e, is_io e -> P e) ->
  (forall u p t r p' t', recur u p (depth + 1) t = Some (r, p', t') ->
     exists evs, t' = t ++ evs /\ Forall P evs) ->
  forall l st t st' t', visit_all_nested recur depth l st t = Some (st', t') ->
    exists evs, t' = t ++ evs /\ Forall P evs.
Proof.
  intros Pio Hrec. induction l as [|x l IH]; intros st t st' t' Hrun; simpl in Hrun.
  - inversion Hrun; subst. exists []. by rewrite app_nil_r.
  - destruct (visit_nested recur depth x st t) as [[st1 t1]|] eqn:Hv; [| done].
    assert (exists e1, t1 = t ++ e1 /\ Forall P e1) as (e1 & -> & F1).
    { unfold visit_nested in Hv. destruct st as [proc add].
      destruct (bool_decide _).
      { inversion Hv; subst. exists []. by rewrite app_nil_r. }
      destruct (grows_is_index P Pio x t) as (e0 & E0 & F0).
      destruct (_is_sitemap_index x t) as [b t0]. simpl in E0. subst t0.
      destruct b.
      - destruct (recur x proc (depth + 1) (t ++ e0)) as [[[dp pr] t2]|] eqn:Hr; [| done].
        inversion Hv; subst. destruct (Hrec _ _ _ _ _ _ Hr) as (e2 & -> & F2).
        exists (e0 ++ e2). rewrite app_assoc. split; [done | by apply Forall_app].
      - inversion Hv; subst. by exists e0. }
    destruct (IH _ _ _ _ Hrun) as (e2 & -> & F2).
    exists (e1 ++ e2). rewrite app_assoc. split; [done | by apply Forall_app].
Qed.

Lemma extract_nested_grows fuel : forall url proc depth t r proc' t',
  extract_nested fuel url proc depth t = Some (r, proc', t') ->
  exists evs, t' = t ++ evs /\ Forall (nested_event depth) evs.
Proof.
  induction fuel as [|fuel IH]; intros url proc depth t r proc' t' Hrun; [done |].
  simpl in Hrun.
  destruct (depth >? max_depth) eqn:Hd.
  { inversion Hrun; subst. exists []. by rewrite app_nil_r. }
  destruct (bool_decide (url ∈ proc)).
  { inversion Hrun; subst. exists []. by rewrite app_nil_r. }
  unfold session_get, send in Hrun.
  assert (Hfirst : Forall (nested_event depth)
            [EvNested url depth; EvHttp (Request GET url 10 true None true)]).
  { repeat constructor; simpl; lia. }
  destruct (http _ _) as [e|resp].
  { inversion Hrun; subst. eexists. split; [by rewrite <- app_assoc | exact Hfirst]. }
  destruct (visit_all_nested _ _ _ _ _) as [[[pr ad] t1]|] eqn:Hv; [| done].
  inversion Hrun; subst.
  eapply (visit_all_nested_grows (nested_event depth)) in Hv.
  - destruct Hv as (e2 & -> & F2).
    exists ([EvNested url depth; EvHttp (Request GET url 10 true None true)] ++ e2).
    split; [by rewrite <- !app_assoc |].
    apply Forall_app. split; [exact Hfirst | exact F2].
  - apply nested_event_io.
  - intros u p t0 r0 p0 t0' Hr. destruct (IH _ _ _ _ _ _ _ Hr) as (evs & -> & F).
    exists evs. split; [done |]. eapply Forall_impl; [exact F |].
    intros e. apply nested_event_weaken. lia.
Qed.

Lemma visit_all_nested_total recur depth :
  (forall u p t, is_Some (recur u p (depth + 1) t)) ->
  forall l st t, is_Some (visit_all_nested recur depth l st t).
Proof.
  intros Hrec. induction l as [|x l IH]; intros st t; simpl; [done |].
  assert (is_Some (visit_nested recur depth x st t)) as [[st1 t1] ->]; [| apply IH].
  unfold visit_nested. destruct st as [proc add].
  destruct (bool_decide _); [done |].
  destruct (_is_sitemap_index x t) as [[] t0]; [| done].
  by destruct (Hrec x proc t0) as [[[dp pr] t2] ->].
Qed.

(** Fuel above the distance to the depth cap is enough. *)
Lemma extract_nested_total fuel : forall url proc depth t,
  (0 < fuel)%nat -> max_depth + 2 - depth <= Z.of_nat fuel ->
  is_Some (extract_nested fuel url proc depth t).
Proof.
  induction fuel as [|fuel IH]; intros url proc depth t Hpos Hfuel; [lia |].
  simpl. destruct (depth >? max_depth) eqn:Hd; [done |].
  destruct (bool_decide _); [done |].
  unfold session_get, send. destruct (http _ _) as [e|resp]; [done |].
  match goal with
  | |- context [visit_all_nested ?r ?d ?l ?st ?t1] =>
      assert (Hrec : forall u p t0, is_Some (r u p (d + 1) t0));
      [| destruct (visit_all_nested_total r d Hrec l st t1) as [[[pr ad] t2] ->]; done]
  end.
  intros u p t0. unfold max_depth in *. apply IH; lia.
Qed.

End Traversal.

Lemma reaches_refl P t : reaches P t t.
Proof. exists []. by rewrite app_nil_r. Qed.

Lemma reaches_trans P t1 t2 t3 : reaches P t1 t2 -> reaches P t2 t3 -> reaches P t1 t3.
Proof.
  intros (e1 & -> & F1) (e2 & -> & F2). exists (e1 ++ e2).
  rewrite app_assoc. split; [done | by apply Forall_app].
Qed.

Lemma grows_reaches {A} P (m : M A) t : grows P m -> reaches P t (m t).2.
Proof. intros Hm. apply Hm. Qed.

Lemma iteration_count_app a b :
  iteration_count (a ++ b) = iteration_count a + iteration_count b.
Proof.
  unfold iteration_count, list_len. rewrite List.filter_app, length_app. lia.
Qed.

Lemma iteration_count_nested lo evs :
  Forall (nested_event lo) evs -> iteration_count evs = 0.
Proof.
  induction 1 as [|e evs He _ IH]; [done |].
  change (e :: evs) with ([e] ++ evs). rewrite iteration_count_app, IH.
  by destruct e.
Qed.

Section Loop.

Context `{Env}.

Lemma loop_step i url t t1 i' t' :
  (i <? max_iterations) = true ->
  reaches (nested_event 0) (t ++ [EvSitemapIter (i + 1) url]) t1 ->
  loop_post (i + 1) t1 i' t' ->
  loop_post i t i' t'.
Proof.
  intros Hi (inner & -> & Finner) (rest & -> & Frest & Hle & Hcap & Hcount).
  exists ([EvSitemapIter (i + 1) url] ++ inner ++ rest).
  split; [by rewrite <- !app_assoc |].
  split; [| split; [lia | split; [lia |]]].
  - apply Forall_app. split; [repeat constructor; simpl; lia |].
    apply Forall_app. split.
    + eapply Forall_impl; [exact Finner |]. intros e. by destruct e.
    + eapply Forall_impl; [exact Frest |]. intros e. destruct e; simpl; try done. lia.
  - rewrite !iteration_count_app, (iteration_count_nested 0 inner Finner), Hcount.
    unfold iteration_count. simpl. unfold list_len. simpl. lia.
Qed.

Lemma sitemap_loop_grows fuel nf v : forall q i proc links t res i' t',
  sitemap_loop fuel nf v q i proc links t = Some (res, i', t') ->
  loop_post i t i' t'.
Proof.
  assert (Hstop : forall i t, loop_post i t i t).
  { intros i t. exists []. rewrite app_nil_r.
    split; [done | split; [constructor | split; [lia | split; [by right |]]]].
    unfold iteration_count, list_len. simpl. lia. }
  induction fuel as [|fuel IH]; intros q i proc links t res i' t' Hrun; [done |].
  simpl in Hrun. destruct q as [|url q]; [inversion Hrun; subst; apply Hstop |].
  destruct (i <? max_iterations) eqn:Hi; simpl in Hrun;
    [| inversion Hrun; subst; apply Hstop].
  set (t0 := t ++ [EvSitemapIter (i + 1) url]) in *.
  destruct (bool_decide (url ∈ proc)).
  { eapply loop_step; [done | apply reaches_refl | eapply IH, Hrun]. }
  pose proof (grows_reaches _ _ t0 (grows_check (nested_event 0) (nested_event_io 0) v url))
    as R1.
  destruct (_check_url_exists v url t0) as [live t1]. simpl in R1.
  destruct live; simpl in Hrun; [| eapply loop_step; [done | exact R1 | eapply IH, Hrun]].
  pose proof (grows_reaches _ _ t1 (grows_sitemap_page (nested_event 0) (nested_event_io 0) url))
    as R2.
  destruct (_extract_links_from_sitemap url t1) as [found t2]. simpl in R2.
  pose proof (grows_reaches _ _ t2 (grows_is_index (nested_event 0) (nested_event_io 0) url))
    as R3.
  destruct (_is_sitemap_index url t2) as [is_index t3]. simpl in R3.
  pose proof (reaches_trans _ _ _ _ R1 (reaches_trans _ _ _ _ R2 R3)) as R.
  destruct is_index; [| eapply loop_step; [done | exact R | eapply IH, Hrun]].
  destruct (extract_nested nf url ∅ 0 t3) as [[[nested pr] t4]|] eqn:Hn; [| done].
  apply extract_nested_grows in Hn.
  eapply loop_step; [done | exact (reaches_trans _ _ _ _ R Hn) | eapply IH, Hrun].
Qed.

(** Fuel above the distance to the iteration cap is enough. *)
Lemma sitemap_loop_total fuel nf v : forall q i proc links t,
  (12 <= nf)%nat -> (0 < fuel)%nat -> max_iterations + 1 - i <= Z.of_nat fuel ->
  is_Some (sitemap_loop fuel nf v q i proc links t).
Proof.
  induction fuel as [|fuel IH]; intros q i proc links t Hnf Hpos Hfuel; [lia |].
  simpl. destruct q as [|url q]; [done |].
  destruct (i <? max_iterations) eqn:Hi; simpl; [| done].
  assert (Hnext : forall q' p' l' t', is_Some (sitemap_loop fuel nf v q' (i + 1) p' l' t')).
  { intros. unfold max_iterations in *. apply IH; lia. }
  destruct (bool_decide (url ∈ proc)); [apply Hnext |].
  destruct (_check_url_exists v url _) as [[] t1]; simpl; [| apply Hnext].
  destruct (_extract_links_from_sitemap url t1) as [found t2].
  destruct (_is_sitemap_index url t2) as [[] t3]; [| apply Hnext].
  destruct (extract_nested_total nf url ∅ 0 t3) as [[[nested pr] t4] ->];
    [lia | unfold max_depth; lia | apply Hnext].
Qed.

End Loop.

Section Fuel.

Context `{Env}.

Lemma visit_all_nested_mono r1 r2 depth :
  (forall u p d t r, r1 u p d t = Some r -> r2 u p d t = Some r) ->
  forall l st t r, visit_all_nested r1 depth l st t = Some r ->
    visit_all_nested r2 depth l st t = Some r.
Proof.
  intros Hr. induction l as [|x l IH]; intros st t r Hrun; simpl in *; [done |].
  destruct (visit_nested r1 depth x st t) as [[st1 t1]|] eqn:Hv; [| done].
  assert (visit_nested r2 depth x st t = Some (st1, t1)) as ->; [| by apply IH].
  unfold visit_nested in *. destruct st as [proc add].
  destruct (bool_decide _); [done |].
  destruct (_is_sitemap_index x t) as [[] t0]; [| done].
  destruct (r1 x proc (depth + 1) t0) as [[[dp pr] t2]|] eqn:Hone; [| done].
  by rewrite (Hr _ _ _ _ _ Hone).
Qed.

(** More fuel does not change a result. *)
Lemma extract_nested_mono fuel : forall fuel' url proc depth t r,
  (fuel <= fuel')%nat ->
  extract_nested fuel url proc depth t = Some r ->
  extract_nested fuel' url proc depth t = Some r.
Proof.
  induction fuel as [|fuel IH]; intros fuel' url proc depth t r Hle Hrun; [done |].
  destruct fuel' as [|fuel']; [lia |]. simpl in *.
  destruct (depth >? max_depth); [done |].
  destruct (bool_decide _); [done |].
  destruct (http _ _) as [e|resp]; [done |].
  destruct (visit_all_nested (extract_nested fuel) _ _ _ _) as [[[pr ad] t2]|] eqn:Hv;
    [| done].
  eapply visit_all_nested_mono in Hv; [rewrite Hv; done |].
  intros u p d t0 r0. apply IH. lia.
Qed.

Lemma sitemap_loop_mono fuel : forall fuel' nf nf' v q i proc links t r,
  (fuel <= fuel')%nat -> (nf <= nf')%nat ->
  sitemap_loop fuel nf v q i proc links t = Some r ->
  sitemap_loop fuel' nf' v q i proc links t = Some r.
Proof.
  induction fuel as [|fuel IH]; intros fuel' nf nf' v q i proc links t r Hle Hnf Hrun;
    [done |].
  destruct fuel' as [|fuel']; [lia |]. simpl in *.
  destruct q as [|url q]; [done |].
  destruct (negb (i <? max_iterations)); [done |].
  assert (Hnext : forall q' p' l' t' r',
            sitemap_loop fuel nf v q' (i + 1) p' l' t' = Some r' ->
            sitemap_loop fuel' nf' v q' (i + 1) p' l' t' = Some r').
  { intros. eapply IH; [| exact Hnf | done]. lia. }
  destruct (bool_decide (url ∈ proc)); [by apply Hnext |].
  destruct (_check_url_exists v url _) as [[] t1]; simpl in *; [| by apply Hnext].
  destruct (_extract_links_from_sitemap url t1) as [found t2].
  destruct (_is_sitemap_index url t2) as [[] t3]; [| by apply Hnext].
  destruct (extract_nested nf url ∅ 0 t3) as [[[nested pr] t4]|] eqn:Hn; [| done].
  rewrite (extract_nested_mono _ _ _ _ _ _ _ Hnf Hn). by apply Hnext.
Qed.

End Fuel.

(** A call beyond the depth cap returns at once: no request, no event, the
    set of processed URLs unchanged. *)
Lemma beyond_depth_cap `{Env} fuel url (processed : gset string) depth t :
  max_depth < depth -> extract_nested (S fuel) url processed depth t = Some ([], processed, t).
Proof. intros Hd. simpl. destruct (depth >? max_depth) eqn:E; [done | lia]. Qed.

(** The run with the fuel of the pipeline ends with a result and stays
    within the caps. *)
Lemma sitemap_links_run `{Env} (v : variant) (domain : string) (t : trace) :
  exists links iterations evs,
    get_all_sitemap_links_fuel loop_fuel depth_fuel v domain t
      = Some (links, iterations, t ++ evs) /\
    NoDup links /\ 0 <= iterations <= 50 /\ iteration_count evs = iterations /\
    Forall discovery_event evs.
Proof.
  unfold get_all_sitemap_links_fuel.
  pose proof (grows_reaches _ _ t (grows_discover (nested_event 0) (nested_event_io 0) domain))
    as (e1 & E1 & F1).
  destruct (_discover_sitemap_urls domain t) as [[e|urls] t1]; simpl in E1; subst t1.
  { exists (elements (∅ : gset string)), 0, e1. split; [done |].
    split; [apply NoDup_elements |]. split; [lia |].
    split; [apply (iteration_count_nested 0 e1 F1) |].
    eapply Forall_impl; [exact F1 |]. intros ev.
    destruct ev; simpl; unfold max_depth; try done; lia. }
  destruct (sitemap_loop_total loop_fuel depth_fuel v urls 0 ∅ ∅ (t ++ e1))
    as [[[res i'] t'] Hrun]; [unfold depth_fuel; lia | unfold loop_fuel; lia
                             | unfold loop_fuel, max_iterations; lia |].
  rewrite Hrun.
  destruct (sitemap_loop_grows _ _ _ _ _ _ _ _ _ _ _ Hrun)
    as (e2 & -> & F2 & Hle & Hcap & Hcount).
  exists (elements res), i', (e1 ++ e2). rewrite app_assoc.
  split; [done |]. split; [apply NoDup_elements |].
  split; [unfold max_iterations in Hcap; lia |].
  split.
  - rewrite iteration_count_app, (iteration_count_nested 0 e1 F1). lia.
  - apply Forall_app. split.
    + eapply Forall_impl; [exact F1 |]. intros e.
      destruct e; simpl; unfold max_depth; try done; lia.
    + eapply Forall_impl; [exact F2 |]. intros e.
      destruct e; simpl; unfold max_iterations, max_depth; try done; lia.
Qed.

Lemma grows_sitemap_links `{Env} (v : variant) (domain : string) :
  grows discovery_event (_get_all_sitemap_links v domain).
Proof.
  intros t. destruct (sitemap_links_run v domain t) as (links & its & evs & Hrun & _ & _ & _ & F).
  exists evs. unfold _get_all_sitemap_links. by rewrite Hrun.
Qed.

(** C3: on every site and from every history, cyclic index graphs included,
    the sitemap traversal returns: with fuel 51 for the queue loop and 12
    for the nested expansion, or any more, the run ends with a result, the
    one [_get_all_sitemap_links] returns.  The links come without
    duplicates, the queue loop has run at most 50 iterations, and in the
    same run every invocation of the nested expansion that got past its
    guards ran at a depth from 0 to 10. *)
Theorem sitemap_traversal_terminates `{Env} (v : variant) (domain : string) (t : trace)
    (fuel nested_fuel : nat) :
  (51 <= fuel)%nat -> (12 <= nested_fuel)%nat ->
  exists links iterations evs,
    get_all_sitemap_links_fuel fuel nested_fuel v domain t
      = Some (links, iterations, t ++ evs) /\
    _get_all_sitemap_links v domain t = (links, t ++ evs) /\
    NoDup links /\
    0 <= iterations <= 50 /\
    iteration_count evs = iterations /\
    Forall within_caps evs.
Proof.
  intros Hfuel Hnested.
  pose proof (sitemap_links_run v domain t) as Hbase.
  destruct Hbase as (links & iterations & evs & Hrun & Hnodup & Hits & Hcount & Hcaps).
  exists links, iterations, evs.
  split; [| split; [| split; [done | split; [done | split; [done |]]]]].
  - unfold get_all_sitemap_links_fuel in *.
    destruct (_discover_sitemap_urls domain t) as [[e|urls] t1]; [exact Hrun |].
    destruct (sitemap_loop loop_fuel depth_fuel v urls 0 ∅ ∅ t1) as [[[res i'] t']|] eqn:Hl;
      [| done].
    rewrite (sitemap_loop_mono loop_fuel fuel depth_fuel nested_fuel _ _ _ _ _ _ _
               ltac:(unfold loop_fuel; lia) ltac:(unfold depth_fuel; lia) Hl).
    exact Hrun.
  - unfold _get_all_sitemap_links. by rewrite Hrun.
  - eapply Forall_impl; [exact Hcaps |]. intros e. by destruct e.
Qed.

(** The traversal bounds hold on the two indexes that list each other. *)
Lemma sitemap_traversal_on_cycle :
  (51 <= 51)%nat /\ (12 <= 12)%nat /\
  exists links iterations evs,
    @get_all_sitemap_links_fuel Scenario.cyclic 51 12 Plain "https://acme.test/" []
      = Some (links, iterations, [] ++ evs) /\
    @_get_all_sitemap_links Scenario.cyclic Plain "https://acme.test/" [] = (links, [] ++ evs) /\
    NoDup links /\
    0 <= iterations <= 50 /\
    iteration_count evs = iterations /\
    Forall within_caps evs.
Proof.
  split; [lia |]. split; [lia |].
  apply (@sitemap_traversal_terminates Scenario.cyclic Plain "https://acme.test/" [] 51 12); lia.
Defined.

(** On that cycle the traversal visits each index once, in 8 iterations,
    and returns the four URLs the two documents list. *)
Example cyclic_traversal_result :
  let r := @get_all_sitemap_links_fuel Scenario.cyclic 51 12 Plain "https://acme.test/" [] in
  (fun x => (length x.1.1, x.1.2)) <$> r = Some (4%nat, 8).
Proof. vm_compute. reflexivity. Qed.

(** ** Per-site orchestration *)

Lemma extracted_app a b : extracted (a ++ b) = extracted a ++ extracted b.
Proof. apply omap_app. Qed.

Lemma analyzed_app a b : analyzed (a ++ b) = analyzed a ++ analyzed b.
Proof. apply omap_app. Qed.

Lemma discovery_calls evs :
  Forall discovery_event evs -> extracted evs = [] /\ analyzed evs = [].
Proof.
  induction 1 as [|e evs He _ [IH1 IH2]]; [done |].
  change (e :: evs) with ([e] ++ evs).
  rewrite extracted_app, analyzed_app, IH1, IH2. by destruct e.
Qed.

Lemma io_discovery e : is_io e -> discovery_event e.
Proof. by destruct e. Qed.

Lemma discovery_site e : discovery_event e -> site_event e.
Proof. by destruct e. Qed.

Section Orchestration.

Context `{Env}.

Lemma extract_run v url t :
  exists io, extract_pricing_content v url t
               = ((extract_pricing_content v url t).1,
                  t ++ io ++ [EvExtract url (extract_pricing_content v url t).1]) /\
             Forall discovery_event io.
Proof.
  unfold extract_pricing_content, bind, emit, ret.
  set (m := match v with Plain => extract_plain url | Browser => extract_browser url end).
  assert (grows discovery_event m) as Hg.
  { destruct v; [apply grows_extract_plain | apply grows_extract_browser]; apply io_discovery. }
  destruct (Hg t) as (io & E & F).
  destruct (m t) as [c t1]. simpl in *. subst t1.
  exists io. split; [by rewrite <- app_assoc | done].
Qed.

Lemma analyze_run v c url t :
  exists p, (analyze_pricing_with_ai v c url t).2 = t ++ [EvAnalyze c url; EvLLM p].
Proof.
  unfold analyze_pricing_with_ai, bind, emit, ask, ret. eexists.
  destruct (llm _ _) as [e|txt]; simpl; [by rewrite <- app_assoc |].
  destruct (Str.brace_span txt); [destruct (json_loads _) |]; simpl; by rewrite <- app_assoc.
Qed.

(** One round of the loop over the URLs: its outcome, and the calls it
    makes. *)
Lemma try_url_run v domain name url t :
  let c := (extract_pricing_content v url t).1 in
  exists evs,
    try_url v domain name url t
      = ((if accepted v url t then Some (record_at v domain name url t) else None),
         t ++ evs) /\
    Forall site_event evs /\
    extracted evs = [(url, c)] /\
    analyzed evs = if skip_content c then [] else [(url, c)].
Proof.
  simpl. unfold try_url, accepted, record_at, bind, ret.
  destruct (extract_run v url t) as (io & E & F). rewrite E. simpl.
  set (c := (extract_pricing_content v url t).1) in *.
  destruct (discovery_calls io F) as [Hx Ha].
  destruct (skip_content c) eqn:Hskip; simpl.
  - exists (io ++ [EvExtract url c]). split; [done |]. split; [| split].
    + apply Forall_app. split; [| by repeat constructor].
      eapply Forall_impl; [exact F |]. apply discovery_site.
    + by rewrite extracted_app, Hx.
    + by rewrite analyzed_app, Ha.
  - destruct (analyze_run v c url (t ++ io ++ [EvExtract url c])) as (p & Hp).
    destruct (analyze_pricing_with_ai v c url _) as [data t2]. simpl in *. subst t2.
    exists (io ++ [EvExtract url c; EvAnalyze c url; EvLLM p]).
    split; [| split; [| split]].
    + rewrite <- !app_assoc. simpl. by destruct (has_plans data).
    + apply Forall_app. split; [| by repeat constructor].
      eapply Forall_impl; [exact F |]. apply discovery_site.
    + by rewrite extracted_app, Hx.
    + by rewrite analyzed_app, Ha.
Qed.

(** The loop over the URLs: it stops at the first URL that gets through,
    and calls the extractor on the URLs up to that one and on no other. *)
Lemma try_urls_run v domain name : forall urls t,
  exists evs,
    (try_urls v domain name urls t).2 = t ++ evs /\
    Forall site_event evs /\
    analyzed evs = List.filter (fun uc => negb (skip_content uc.2)) (extracted evs) /\
    ((exists pre url post,
        urls = pre ++ url :: post /\
        all_rejected v domain name pre t /\
        accepted v url (state_after v domain name pre t) = true /\
        (try_urls v domain name urls t).1
          = Some (record_at v domain name url (state_after v domain name pre t)) /\
        (extracted evs).*1 = pre ++ [url]) \/
     (all_rejected v domain name urls t /\
      (try_urls v domain name urls t).1 = None /\
      (extracted evs).*1 = urls)).
Proof.
  induction urls as [|u urls IH]; intros t; simpl.
  - exists []. rewrite app_nil_r. split; [done |]. split; [done |]. split; [done |]. by right.
  - unfold bind. destruct (try_url_run v domain name u t) as (e1 & E1 & F1 & X1 & A1).
    simpl in *. rewrite E1.
    assert (Hone : analyzed e1
              = List.filter (fun uc => negb (skip_content uc.2)) (extracted e1)).
    { rewrite X1, A1. simpl. by destruct (skip_content _). }
    destruct (accepted v u t) eqn:Hacc.
    + exists e1. split; [done |]. split; [done |]. split; [done |].
      left. exists [], u, urls. simpl. by rewrite X1.
    + destruct (IH (t ++ e1)) as (e2 & E2 & F2 & A2 & Hcase).
      exists (e1 ++ e2). split; [by rewrite E2, app_assoc |].
      split; [by apply Forall_app |].
      split; [by rewrite analyzed_app, extracted_app, List.filter_app, Hone, A2 |].
      rewrite extracted_app, fmap_app, X1. simpl.
      destruct Hcase as [(pre & w & post & -> & Hrej & Hw & Hres & Hx) | (Hrej & Hres & Hx)].
      * left. exists (u :: pre), w, post. simpl. rewrite ?E1. simpl.
        split; [done |]. split; [done |]. split; [done |]. split; [done |]. by rewrite Hx.
      * right. rewrite ?E1. simpl. split; [done |]. split; [done |]. by rewrite Hx.
Qed.

End Orchestration.

(** *** Python dicts *)

Lemma get_set_eq k v d : Py.get k (Py.set k v d) = Some v.
Proof.
  induction d as [|[k' v'] d IH]; simpl.
  - by rewrite String.eqb_refl.
  - destruct (String.eqb k k') eqn:E; simpl; [by rewrite String.eqb_refl | by rewrite E].
Qed.

Lemma get_set_ne k k' v d : k <> k' -> Py.get k' (Py.set k v d) = Py.get k' d.
Proof.
  intros Hne. induction d as [|[k0 v0] d IH]; simpl.
  - destruct (String.eqb k' k) eqn:E; [apply String.eqb_eq in E; congruence | done].
  - destruct (String.eqb k k0) eqn:E; simpl.
    + apply String.eqb_eq in E. subst k0.
      destruct (String.eqb k' k) eqn:E'; [apply String.eqb_eq in E'; congruence | done].
    + by rewrite IH.
Qed.

(** The fields of a success record: the five the orchestrator sets, and
    every other field as the analyzer returned it. *)
Lemma success_record_fields domain name url c data :
  let r := success_record domain name url c data in
  Py.get "name" r = Some (JStr name) /\
  Py.get "domain" r = Some (JStr domain) /\
  Py.get "source_url" r = Some (JStr url) /\
  Py.get "success" r = Some (JBool true) /\
  Py.get "content_length" r = Some (JNum (Str.len c)) /\
  Py.get "plans" r = Py.get "plans" data /\
  Py.get "currency" r = Py.get "currency" data.
Proof.
  unfold success_record, Py.update. simpl.
  repeat split;
    repeat first [ rewrite get_set_eq; reflexivity
                 | rewrite get_set_ne by discriminate
                 | reflexivity ].
Qed.

(** On a list, the test of the orchestrator is non-emptiness. *)
Lemma has_plans_list data plans :
  Py.get "plans" data = Some (JArr plans) -> (has_plans data = true <-> plans <> []).
Proof. intros Hp. unfold has_plans. rewrite Hp. by destruct plans. Qed.

Lemma limit_urls_spec `{Env} v (urls : list string) :
  limit_urls v urls = match v with Plain => take 5 urls | Browser => urls end.
Proof.
  destruct v; [| done]. unfold limit_urls, max_urls_to_try, list_len, Str.take_to.
  destruct (Z.of_nat (length urls) >? 5) eqn:E; [done |].
  rewrite take_ge; [done | lia].
Qed.

Section Site.

Context `{Env}.

Lemma grows_routes v domain : grows discovery_event (find_pricing_routes v domain).
Proof.
  unfold find_pricing_routes.
  apply grows_bind; [apply grows_website_links, io_discovery | intros links].
  apply grows_bind; [apply grows_sitemap_links | intros more].
  destruct (elements _); [apply grows_ret | apply grows_ranker, io_discovery].
Qed.

(** One call of [get_pricing_data]: discovery and ranking call neither the
    extractor nor the analyzer, then the ranked URLs, capped, are tried in
    order up to the first that gets through; when the ranking raised, no URL
    is tried. *)
Lemma site_run v domain name t :
  let routes := (find_pricing_routes v domain t).1 in
  let t1 := (find_pricing_routes v domain t).2 in
  let tried := limit_urls v (returned routes) in
  let result := (get_pricing_data v domain name t).1 in
  exists evs,
    (get_pricing_data v domain name t).2 = t ++ evs /\
    Forall site_event evs /\
    analyzed evs = List.filter (fun uc => negb (skip_content uc.2)) (extracted evs) /\
    ((exists pre url post,
        tried = pre ++ url :: post /\
        all_rejected v domain name pre t1 /\
        accepted v url (state_after v domain name pre t1) = true /\
        result = record_at v domain name url (state_after v domain name pre t1) /\
        (extracted evs).*1 = pre ++ [url]) \/
     (all_rejected v domain name tried t1 /\
      ((exists e, routes = inl e /\
          result = failure_record domain name ("Error finding pricing routes: " +:+ e)) \/
       (routes = inr [] /\ result = failure_record domain name "No pricing pages found") \/
       (tried <> [] /\ result = exhausted_record domain name tried)) /\
      (extracted evs).*1 = tried)).
Proof.
  simpl. unfold get_pricing_data, bind, ret.
  destruct (grows_routes v domain t) as (e0 & E0 & F0).
  destruct (find_pricing_routes v domain t) as [routes t1]. simpl in *. subst t1.
  destruct (discovery_calls e0 F0) as [X0 A0].
  assert (F0' : Forall site_event e0).
  { eapply Forall_impl; [exact F0 |]. apply discovery_site. }
  destruct routes as [e|ranked].
  { exists e0. split; [done |]. split; [done |]. rewrite X0, A0. split; [done |].
    right. rewrite limit_urls_spec. destruct v; simpl; (split; [done |]);
      (split; [left; by exists e | done]). }
  destruct ranked as [|u ranked].
  { exists e0. split; [done |]. split; [done |]. rewrite X0, A0. split; [done |].
    right. rewrite limit_urls_spec. destruct v; simpl; (split; [done |]);
      (split; [right; by left | done]). }
  set (tried := limit_urls v (u :: ranked)).
  assert (Htried : tried <> []).
  { unfold tried. rewrite limit_urls_spec. by destruct v. }
  destruct (try_urls_run v domain name tried (t ++ e0)) as (e1 & E1 & F1 & A1 & Hcase).
  destruct (try_urls v domain name tried (t ++ e0)) as [r t2]. simpl in *. subst t2.
  exists (e0 ++ e1). split; [by destruct r; rewrite app_assoc |].
  split; [by apply Forall_app |].
  split; [by rewrite analyzed_app, extracted_app, List.filter_app, X0, A0 |].
  rewrite extracted_app, X0. simpl.
  destruct Hcase as [(pre & w & post & Ht & Hrej & Hw & -> & Hx) | (Hrej & -> & Hx)].
  - left. exists pre, w, post. done.
  - right. split; [done |]. split; [| done]. right. right. done.
Qed.

End Site.

Lemma accepted_spec `{Env} (v : variant) (url : string) (t : trace) :
  let c := (extract_pricing_content v url t).1 in
  let t1 := (extract_pricing_content v url t).2 in
  accepted v url t = true <->
  passes_filter c /\ has_plans (analyze_pricing_with_ai v c url t1).1 = true.
Proof.
  simpl. unfold accepted. destruct (extract_pricing_content v url t) as [c t1]. simpl.
  by rewrite andb_true_iff, negb_true_iff, skip_content_spec.
Qed.

(** The acceptance test of the orchestrator, value by value: a list with
    an element, a string with a character, an object with a field. *)
Lemma has_plans_spec (data : dict) :
  has_plans data = true <->
  exists plans, Py.get "plans" data = Some plans /\
    match plans with
    | JArr l => l <> []
    | JStr s => s <> ""
    | JObj d => d <> []
    | _ => False
    end.
Proof.
  unfold has_plans. destruct (Py.get "plans" data) as [plans|].
  - split.
    + intros [Ht Hl]%andb_true_iff. exists plans. split; [done |].
      apply bool_decide_eq_true in Hl as [n Hn].
      destruct plans as [| | |s0|l|d]; simpl in *; try done.
      * destruct (String.eqb_spec s0 ""); [done | done].
      * by destruct l.
      * by destruct d.
    + intros (plans' & [= <-] & Hp). apply andb_true_iff. split.
      * destruct plans as [| | |s0|l|d]; simpl in *; try done;
          [by destruct (String.eqb_spec s0 "") | by destruct l | by destruct d].
      * apply bool_decide_eq_true. destruct plans; simpl in *; try done; by eexists.
  - split; [done | by intros (plans & ? & _)].
Qed.

(** C1, as amended: in either pipeline [get_pricing_data] takes the URLs
    the ranking returned (none when it raised), keeps the first 5 of them in
    the plain pipeline and all of them in the browser pipeline, and tries
    these in order.  Either some URL of that list is the first to get
    through (its extracted content passes the skip filter and its analysis
    has plans, while every URL before it, tried in turn, was turned down):
    then the result is a success record whose [source_url] is that URL, the
    content extractor was called on the URLs up to that one and on no other,
    and the analyzer on those of them whose content passed the filter.  Or
    no URL of the list gets through, every one was tried, and the result is
    a failure record.  An analysis has plans when its [plans] value is a
    list with an element, a string with a character or an object with a
    field: the test is not one for a list. *)
Theorem first_match_wins `{Env} (v : variant) (domain name : string) (t : trace) :
  let ranked := returned (find_pricing_routes v domain t).1 in
  let t1 := (find_pricing_routes v domain t).2 in
  let tried := match v with Plain => take 5 ranked | Browser => ranked end in
  let result := (get_pricing_data v domain name t).1 in
  (exists evs,
     (get_pricing_data v domain name t).2 = t ++ evs /\
     analyzed evs = List.filter (fun uc => negb (skip_content uc.2)) (extracted evs) /\
     ((exists pre url post,
         tried = pre ++ url :: post /\
         all_rejected v domain name pre t1 /\
         accepted v url (state_after v domain name pre t1) = true /\
         Py.get "success" result = Some (JBool true) /\
         Py.get "source_url" result = Some (JStr url) /\
         (extracted evs).*1 = pre ++ [url]) \/
      (all_rejected v domain name tried t1 /\
       Py.get "success" result = Some (JBool false) /\
       (extracted evs).*1 = tried))) /\
  (forall url t0,
     let c := (extract_pricing_content v url t0).1 in
     accepted v url t0 = true <->
     passes_filter c /\
     has_plans (analyze_pricing_with_ai v c url (extract_pricing_content v url t0).2).1 = true) /\
  (forall data,
     has_plans data = true <->
     exists plans, Py.get "plans" data = Some plans /\
       match plans with
       | JArr l => l <> []
       | JStr s => s <> ""
       | JObj d => d <> []
       | _ => False
       end).
Proof.
  cbv zeta. split; [| split; [apply accepted_spec | apply has_plans_spec]].
  destruct (site_run v domain name t) as (evs & E & F & A & Hcase).
  cbv zeta in Hcase. rewrite limit_urls_spec in Hcase.
  exists evs. split; [done |]. split; [done |].
  destruct Hcase as [(pre & w & post & Ht & Hrej & Hw & Hres & Hx) | (Hrej & Hres & Hx)].
  - left. exists pre, w, post. rewrite Hres. unfold record_at.
    destruct (extract_pricing_content v w _) as [c t2].
    pose proof (success_record_fields domain name w c
                  (analyze_pricing_with_ai v c w t2).1) as (_ & _ & Hsrc & Hok & _).
    done.
  - right. split; [done |]. split; [| done].
    by destruct Hres as [(e & _ & ->) | [(_ & ->) | (_ & ->)]].
Qed.

(** C1 as stated fails when an analysis holds a sentence under [plans]:
    of two ranked pages the first, whose analysis says "Contact sales", is
    the source of the success record, and the second, the first whose
    analysis has a non-empty list of plans, is never passed to the content
    extractor. *)
Lemma first_match_with_sentence_for_plans :
  let E := Scenario.quote in
  let domain := "https://acme.test" in
  let run := get_pricing_data Plain domain "Acme" [] in
  returned (find_pricing_routes Plain domain []).1 = [Scenario.page_b; Scenario.page_c] /\
  Py.get "success" run.1 = Some (JBool true) /\
  Py.get "source_url" run.1 = Some (JStr Scenario.page_b) /\
  Py.get "plans" run.1 = Some (JStr "Contact sales") /\
  (extracted run.2).*1 = [Scenario.page_b] /\
  (forall t, Py.get "plans" (analyze_pricing_with_ai Plain (Scenario.filler 150)
                               Scenario.page_c t).1
             = Py.get "plans" Scenario.pro_plan) /\
  (exists plan, Py.get "plans" Scenario.pro_plan = Some (JArr [plan])).
Proof.
  cbv zeta. split; [by vm_compute |]. split; [by vm_compute |]. split; [by vm_compute |].
  split; [by vm_compute |]. split; [by vm_compute |]. split; [done |]. by eexists.
Qed.

(** C10: in either pipeline the contents passed to the pricing analyzer
    during a call of [get_pricing_data] are, in order and with their URLs,
    exactly the extracted contents that pass the skip filter; a content
    passes if and only if it has at least 100 characters and "Error" occurs
    nowhere in it; so a body text that contains "Error" anywhere is skipped
    whatever its length. *)
Theorem analyzer_gets_filtered_content `{Env} (v : variant) (domain name : string) (t : trace) :
  (exists evs,
     (get_pricing_data v domain name t).2 = t ++ evs /\
     analyzed evs = List.filter (fun uc => negb (skip_content uc.2)) (extracted evs)) /\
  (forall c, negb (skip_content c) = true <-> passes_filter c) /\
  (forall a b, skip_content (a +:+ "Error" +:+ b) = true).
Proof.
  split; [| split].
  - destruct (site_run v domain name t) as (evs & E & F & A & _). by exists evs.
  - intros c. rewrite negb_true_iff. apply skip_content_spec.
  - intros a b. unfold skip_content.
    assert (Str.contains "Error" (a +:+ "Error" +:+ b) = true) as ->; [| done].
    apply contains_spec. by exists a, b.
Qed.

(** ** Pricing-URL ranker *)

Lemma contains_any_spec keywords s :
  Str.contains_any keywords s = true <->
  exists k a b, k ∈ keywords /\ s = a +:+ k +:+ b.
Proof.
  unfold Str.contains_any. rewrite existsb_exists. split.
  - intros (k & Hin & Hc). apply contains_spec in Hc as (a & b & ->).
    exists k, a, b. by rewrite list_elem_of_In.
  - intros (k & a & b & Hin & ->). exists k. rewrite <- list_elem_of_In.
    split; [done |]. apply contains_spec. by exists a, b.
Qed.

Lemma take_to_nonneg {A} n (l : list A) : 0 <= n -> Str.take_to n l = take (Z.to_nat n) l.
Proof. intros Hn. unfold Str.take_to. destruct (n <? 0) eqn:E; [lia | done]. Qed.

Lemma elem_of_filter_bool {A} (f : A -> bool) (l : list A) x :
  x ∈ List.filter f l <-> x ∈ l /\ f x = true.
Proof. rewrite !list_elem_of_In. apply List.filter_In. Qed.

(** C6: once the homepage is in the candidate list, a list of more than 400
    candidates is cut down by priority: the first 133 (400 // 3) of the
    high-priority links, then medium-priority links for half of what is
    left of the 400, then low-priority links for the rest, and the homepage
    again at the end if the cut dropped it; a list of at most 400 goes
    through as it is.  High priority is a URL that, letter case aside,
    contains one of pricing, price, plan, buy, subscribe, order, checkout;
    medium one that contains one of product, feature, service, solution,
    package, tier; low one that contains none of these. *)
Theorem priority_sampling `{Env} (domain : string) (all_links : list string) :
  let candidates := ensure domain all_links in
  let high := List.filter is_high candidates in
  let medium := List.filter is_medium candidates in
  let low := List.filter (fun link => negb (is_high link) && negb (is_medium link)) candidates in
  let h := take 133 high in
  let m := take ((400 - length h) / 2) medium in
  let lo := take (400 - length h - length m) low in
  links_for_prompt domain all_links
    = (if list_len candidates >? 400 then ensure domain (h ++ m ++ lo) else candidates) /\
  domain ∈ links_for_prompt domain all_links /\
  (forall link, is_high link = true <-> mentions high_keywords link) /\
  (forall link, is_medium link = true <-> mentions medium_keywords link) /\
  (forall link, link ∈ low <->
     link ∈ candidates /\ ~ mentions high_keywords link /\ ~ mentions medium_keywords link).
Proof.
  cbv zeta.
  assert (Hhigh : forall link, is_high link = true <-> mentions high_keywords link).
  { intros link. apply contains_any_spec. }
  assert (Hmed : forall link, is_medium link = true <-> mentions medium_keywords link).
  { intros link. apply contains_any_spec. }
  assert (Hens : forall x l, x ∈ ensure x l).
  { intros x l. unfold ensure. case_bool_decide; [done |].
    apply elem_of_app. right. constructor. }
  set (candidates := ensure domain all_links).
  assert (Heq : links_for_prompt domain all_links =
    if list_len candidates >? 400
    then ensure domain
           (take 133 (List.filter is_high candidates) ++
            take ((400 - length (take 133 (List.filter is_high candidates))) / 2)
              (List.filter is_medium candidates) ++
            take (400 - length (take 133 (List.filter is_high candidates))
                  - length (take ((400 - length (take 133 (List.filter is_high candidates))) / 2)
                              (List.filter is_medium candidates)))
              (List.filter (fun link => negb (is_high link) && negb (is_medium link))
                 candidates))
    else candidates).
  { unfold links_for_prompt. fold candidates. unfold max_links.
    destruct (list_len candidates >? 400); [| done].
    unfold sample_links, max_links, list_len.
    set (high := List.filter is_high candidates).
    set (medium := List.filter is_medium candidates).
    assert (List.filter (fun link => negb (bool_decide (link ∈ high ++ medium))) candidates
            = List.filter (fun link => negb (is_high link) && negb (is_medium link)) candidates)
      as ->.
    { apply List.filter_ext_in. intros link Hin. apply list_elem_of_In in Hin.
      rewrite <- negb_orb. f_equal.
      destruct (is_high link || is_medium link) eqn:E.
      - apply bool_decide_eq_true. unfold high, medium.
        rewrite elem_of_app, !elem_of_filter_bool.
        apply orb_true_iff in E. tauto.
      - apply bool_decide_eq_false. unfold high, medium.
        rewrite elem_of_app, !elem_of_filter_bool.
        apply orb_false_iff in E as [E1 E2]. rewrite E1, E2. intros [[_ ?]|[_ ?]]; done. }
    change (400 / 3) with 133.
    rewrite (take_to_nonneg 133) by lia. change (Z.to_nat 133) with 133%nat.
    set (h := take 133 high).
    assert (length h <= 133)%nat by (unfold h; rewrite length_take; lia).
    rewrite (take_to_nonneg ((400 - Z.of_nat (length h)) / 2))
      by (apply Z.div_pos; lia).
    replace (Z.to_nat ((400 - Z.of_nat (length h)) / 2)) with ((400 - length h) / 2)%nat
      by (rewrite Z2Nat.inj_div by lia; f_equal; lia).
    set (m := take ((400 - length h) / 2) medium).
    assert (length m <= (400 - length h) / 2)%nat by (unfold m; rewrite length_take; lia).
    assert ((400 - length h) / 2 <= 400 - length h)%nat by (apply Nat.Div0.div_le_upper_bound; lia).
    rewrite length_app.
    rewrite (take_to_nonneg (400 - Z.of_nat (length h + length m))) by lia.
    replace (Z.to_nat (400 - Z.of_nat (length h + length m)))
      with (400 - length h - length m)%nat by lia.
    by rewrite <- app_assoc. }
  split; [exact Heq |]. split; [| split; [done | split; [done |]]].
  - rewrite Heq. destruct (list_len candidates >? 400); apply Hens.
  - intros link. rewrite elem_of_filter_bool, andb_true_iff, !negb_true_iff.
    rewrite <- Hhigh, <- Hmed.
    destruct (is_high link), (is_medium link); intuition congruence.
Qed.

(** In the pipeline the candidate list always holds the homepage already. *)
Lemma routes_include_homepage (domain : string) (links more : list string) :
  let candidates := elements (list_to_set (links ++ more ++ [domain]) : gset string) in
  ensure domain candidates = candidates.
Proof.
  simpl. unfold ensure. rewrite bool_decide_eq_true_2; [done |].
  apply elem_of_elements. set_solver.
Qed.

(** The loop over the common paths raises exactly when [urljoin] does on
    one of the paths, with the first such exception, whatever the history
    and the URLs found before. *)
Lemma try_paths_raise `{Env} v domain (paths : list string) : forall urls t e,
  (for_each_try paths (try_common_path v domain) urls t).1 = inl e <->
  join_each domain paths = inl e.
Proof.
  induction paths as [|path paths IH]; intros urls t e; simpl; [done |].
  unfold bind, try_common_path.
  destruct (urljoin domain path) as [e0|url]; simpl; [done |].
  unfold bind, ret. destruct (_check_url_exists v url t) as [live t1].
  rewrite IH. by destruct (join_each domain paths).
Qed.

Lemma fallback_raises `{Env} v domain links t e :
  (_fallback_pricing_urls v domain links t).1 = inl e <->
  join_each domain common_paths = inl e.
Proof.
  unfold _fallback_pricing_urls, bind.
  destruct (for_each links _ [] t) as [urls1 t1].
  destruct ((if bool_decide (domain ∈ urls1) then ret urls1
             else keep_if_live v domain urls1) t1) as [urls2 t2].
  apply try_paths_raise.
Qed.

(** C5, as amended: the ranker returns what the keyword fallback returns,
    run after the model call on the same domain and on the same
    (homepage-completed, possibly sampled) candidate list, whenever the
    model call raises, the answer holds no brace-delimited span, the span is
    not valid JSON, or the proposed URLs cannot be walked through; when
    there is no span and the fallback raises, the fallback is run a second
    time before the exception leaves the ranker.  When the answer does hold
    a JSON object whose URLs can be walked through, the ranker returns the
    proposed URLs that exist, in order, and does not fall back, even when
    that list is empty.  The ranker does not always return a list: the
    fallback, and with it the ranker, raises exactly when [urljoin] raises
    on one of the common pricing paths. *)
Theorem ranker_falls_back `{Env} (v : variant) (domain : string) (all_links : list string)
    (t : trace) :
  let links := links_for_prompt domain all_links in
  let p := RankPrompt (model_name v) domain links in
  let t1 := t ++ [EvLLM p] in
  let fallback := _fallback_pricing_urls v domain links in
  let run := _ai_identify_pricing_links v domain all_links t in
  match model_answer t p with
  | Some result =>
      match suggestions result with
      | Some urls =>
          run = (inr (for_each urls (verify_suggestion v) [] t1).1,
                 (for_each urls (verify_suggestion v) [] t1).2)
      | None => run = fallback t1
      end
  | None =>
      run.1 = (fallback t1).1 /\
      match llm t p, (fallback t1).1 with
      | inr response_text, inl _ =>
          match Str.brace_span response_text with
          | None => run.2 = (fallback (fallback t1).2).2
          | Some _ => run.2 = (fallback t1).2
          end
      | _, _ => run.2 = (fallback t1).2
      end
  end /\
  (forall e t0, (fallback t0).1 = inl e <-> join_each domain common_paths = inl e).
Proof.
  cbv zeta. split; [| intros e t0; apply fallback_raises].
  unfold _ai_identify_pricing_links, model_answer, suggestions, bind, ask.
  destruct (llm t _) as [e|txt]; [by split |].
  destruct (Str.brace_span txt) as [span|].
  - destruct (json_loads span) as [e|result].
    { split; [done |]. by destruct (_fallback_pricing_urls v domain _ _).1. }
    destruct (Py.iter _); [| done].
    unfold ret. by destruct (for_each _ _ _ _).
  - unfold fallback_in_try, bind, ret.
    destruct (_fallback_pricing_urls v domain _ (t ++ _)) as [[e|urls] t2] eqn:Hf;
      [| by split].
    simpl. split; [| done].
    assert (Hraise : (_fallback_pricing_urls v domain (links_for_prompt domain all_links)
                        (t ++ [EvLLM (RankPrompt (model_name v) domain
                                        (links_for_prompt domain all_links))])).1 = inl e)
      by (by rewrite Hf).
    apply fallback_raises in Hraise. by apply fallback_raises.
Qed.

(** C5 as stated fails when the model yields no usable URL: on a live site
    whose model answers with an empty JSON object the ranker returns the
    empty list, while the keyword fallback, run at the same point on the
    same inputs, returns the homepage and the common pricing paths. *)
Lemma ranker_keeps_empty_answer :
  let E := Scenario.empty_answer in
  let domain := "https://acme.test" in
  let links := links_for_prompt domain [domain] in
  let p := RankPrompt (model_name Plain) domain links in
  (_ai_identify_pricing_links Plain domain [domain] []).1 = inr [] /\
  (_fallback_pricing_urls Plain domain links [EvLLM p]).1
    = inr [domain; "https://acme.test/pricing"; "https://acme.test/price";
           "https://acme.test/plans"; "https://acme.test/plan";
           "https://acme.test/subscription"] /\
  (_ai_identify_pricing_links Plain domain [domain] []).1
    <> (_fallback_pricing_urls Plain domain links [EvLLM p]).1.
Proof. vm_compute. repeat split. discriminate. Qed.

(** Nor does the ranker always return a list: on a domain on which
    [urljoin] raises, and with a model that is down, the exception of the
    fallback leaves the ranker, and [get_pricing_data] reports it. *)
Example ranker_raises_on_malformed_domain :
  let E := Scenario.malformed in
  let domain := "https://[bad" in
  (_ai_identify_pricing_links Plain domain [domain] []).1 = inl "Invalid IPv6 URL" /\
  (get_pricing_data Plain domain "Bad" []).1
    = failure_record domain "Bad" "Error finding pricing routes: Invalid IPv6 URL".
Proof. by vm_compute. Qed.

(** ** Batch loop *)

Lemma processing_names_app a b :
  processing_names (a ++ b) = processing_names a ++ processing_names b.
Proof. apply omap_app. Qed.

Lemma site_calls_app a b : site_calls (a ++ b) = site_calls a ++ site_calls b.
Proof. apply omap_app. Qed.

Lemma checkpoints_app a b : checkpoints (a ++ b) = checkpoints a ++ checkpoints b.
Proof. apply omap_app. Qed.

(** A call of the per-site extraction announces no item, calls no other
    site and writes no checkpoint. *)
Lemma site_events_silent evs :
  Forall site_event evs ->
  processing_names evs = [] /\ site_calls evs = [] /\ checkpoints evs = [].
Proof.
  induction 1 as [|e evs He _ (IH1 & IH2 & IH3)]; [done |].
  change (e :: evs) with ([e] ++ evs).
  rewrite processing_names_app, site_calls_app, checkpoints_app, IH1, IH2, IH3.
  by destruct e.
Qed.

Section BatchRun.

Context `{Env}.
Variable site : string -> string -> M (exn + dict).
Hypothesis site_quiet : forall w n, grows site_event (site w n).

(** One round of the batch loop: one item announced, one record stored
    under its name, one checkpoint written with the position of the item,
    and the site called only when there is a website. *)
Lemma process_item_run pc total i it results t :
  exists r evs,
    process_item site pc total i it results t
      = (<[item_name it := JObj r]> results, t ++ evs) /\
    processing_names evs = [item_name it] /\
    site_calls evs = (if has_website it then [site_of it] else []) /\
    processed_count <$> checkpoints evs = [pc + i + 1] /\
    (r = empty_url_record \/
     (exists e t0, (site (site_of it).1 (site_of it).2 t0).1 = inl e /\
        r = crash_record (item_name it) (site_of it).1 ("Unexpected error: " +:+ e)) \/
     (exists t0, (site (site_of it).1 (site_of it).2 t0).1 = inr r)).
Proof.
  unfold process_item, has_website, site_of, bind, emit, ret, save_checkpoint, sleep, emit.
  simpl. destruct (no_website (item_website it)); simpl.
  - eexists. eexists (cons _ (cons _ nil)). rewrite <- app_assoc. simpl.
    split; [reflexivity |]. auto.
  - set (w := with_scheme (default "" (item_website it))).
    set (t0 := (t ++ [EvProcessing (pc + i + 1) total (item_name it)])
                 ++ [EvSite w (item_name it)]).
    destruct (site_quiet w (item_name it) t0) as (e1 & E1 & F1).
    destruct (site_events_silent e1 F1) as (P1 & S1 & C1).
    assert (Hr : exists t', (site w (item_name it) t').1 = (site w (item_name it) t0).1)
      by (by exists t0).
    destruct (site w (item_name it) t0) as [[e|r] t1]; simpl in *; subst t1.
    + eexists. eexists (cons _ (cons _ nil) ++ e1 ++ cons _ (cons _ nil)).
      unfold t0. rewrite <- !app_assoc. simpl.
      split; [reflexivity |].
      rewrite !processing_names_app, !site_calls_app, !checkpoints_app, P1, S1, C1.
      simpl. split; [done |]. split; [done |]. split; [done |]. right. left.
      destruct Hr as (t' & Ht'). exists e, t'. by rewrite Ht'.
    + eexists. eexists (cons _ (cons _ nil) ++ e1 ++ cons _ (cons _ nil)).
      unfold t0. rewrite <- !app_assoc. simpl.
      split; [reflexivity |].
      rewrite !processing_names_app, !site_calls_app, !checkpoints_app, P1, S1, C1.
      simpl. split; [done |]. split; [done |]. split; [done |]. right. right.
      destruct Hr as (t' & Ht'). exists t'. by rewrite Ht'.
Qed.

(** The batch loop: the items are handled in order, each once; the
    checkpoints count up from the position of the first item; records of
    other names stay as they were. *)
Lemma batch_loop_run pc total : forall items i results t,
  exists evs,
    (batch_loop site pc total i items results t).2 = t ++ evs /\
    processing_names evs = item_name <$> items /\
    site_calls evs = site_of <$> List.filter has_website items /\
    processed_count <$> checkpoints evs
      = (fun k : nat => pc + i + 1 + Z.of_nat k) <$> seq 0 (length items) /\
    (forall name, name ∉ item_name <$> items ->
       (batch_loop site pc total i items results t).1 !! name = results !! name).
Proof.
  induction items as [|it items IH]; intros i results t; simpl.
  - exists []. rewrite app_nil_r. done.
  - unfold bind.
    destruct (process_item_run pc total i it results t) as (r & e1 & E1 & P1 & S1 & C1 & _).
    rewrite E1.
    destruct (IH (i + 1) (<[item_name it := JObj r]> results) (t ++ e1))
      as (e2 & E2 & P2 & S2 & C2 & Hkeep).
    exists (e1 ++ e2). rewrite E2, app_assoc. split; [done |].
    rewrite processing_names_app, site_calls_app, checkpoints_app, fmap_app, P1, P2, S1, S2,
      C1, C2.
    split; [done |]. split; [by destruct (has_website it) |]. split.
    + simpl. f_equal; [lia |]. rewrite <- seq_shift, <- list_fmap_compose.
      apply list_fmap_ext. intros ? k ?. simpl. lia.
    + intros name Hname. apply not_elem_of_cons in Hname as [Hne Hrest].
      rewrite Hkeep by done. by rewrite lookup_insert_ne.
Qed.

End BatchRun.

Lemma filter_bool_length {A} (f : A -> bool) (l : list A) :
  (length (List.filter f l) + length (List.filter (fun x => negb (f x)) l) = length l)%nat.
Proof. induction l as [|x l IH]; simpl; [done |]. destruct (f x); simpl; lia. Qed.

Lemma NoDup_fmap_filter {A B} (f : A -> B) (g : A -> bool) (l : list A) :
  NoDup (f <$> l) -> NoDup (f <$> List.filter g l).
Proof.
  induction l as [|x l IH]; simpl; [done |].
  rewrite NoDup_cons. intros [Hx Hl]. destruct (g x); simpl; [| by apply IH].
  apply NoDup_cons. split; [| by apply IH].
  intros Hin. apply Hx. apply list_elem_of_fmap in Hin as (y & -> & Hy).
  apply elem_of_filter_bool in Hy as [Hy _]. apply list_elem_of_fmap. by exists y.
Qed.

Lemma remaining_spec (all_urls : list item) (rs : gmap string json) it :
  it ∈ get_remaining_urls all_urls rs <-> it ∈ all_urls /\ item_name it ∉ dom rs.
Proof.
  unfold get_remaining_urls. rewrite elem_of_filter_bool, negb_true_iff, bool_decide_eq_false.
  done.
Qed.

(** With distinct input names and a checkpoint that only holds input names,
    what remains is the total less the names of the checkpoint. *)
Lemma remaining_count (all_urls : list item) (rs : gmap string json) :
  NoDup (item_name <$> all_urls) ->
  dom rs ⊆ list_to_set (item_name <$> all_urls) ->
  list_len (get_remaining_urls all_urls rs) = list_len all_urls - Z.of_nat (size rs).
Proof.
  intros Hnd Hsub. unfold get_remaining_urls, list_len.
  pose proof (filter_bool_length (fun url => bool_decide (item_name url ∈ dom rs)) all_urls)
    as Hlen.
  set (kept := List.filter (fun url => bool_decide (item_name url ∈ dom rs)) all_urls) in *.
  assert (Hsize : size rs = length kept).
  { rewrite <- size_dom, <- (length_fmap item_name kept).
    rewrite <- (size_list_to_set (C := gset string)) by by apply NoDup_fmap_filter.
    f_equal. apply set_eq. intros name. rewrite elem_of_list_to_set, list_elem_of_fmap.
    split.
    - intros Hin. pose proof (Hsub _ Hin) as Hall.
      apply elem_of_list_to_set, list_elem_of_fmap in Hall as (it & -> & Hit).
      exists it. split; [done |]. apply elem_of_filter_bool. split; [done |].
      by apply bool_decide_eq_true.
    - intros (it & -> & Hit). apply elem_of_filter_bool in Hit as [_ Hit].
      by apply bool_decide_eq_true in Hit. }
  lia.
Qed.

Section RealBatch.

Context `{Env}.

Lemma run_site_quiet v w n : grows site_event (run_site v w n).
Proof.
  intros t. unfold run_site, bind, ret.
  destruct (site_run v w n t) as (evs & E & F & _).
  destruct (get_pricing_data v w n t) as [r t1]. simpl in *. by exists evs.
Qed.

(** What [get_pricing_data] returns always names the item and the domain
    and tells success from failure. *)
Lemma site_record_shape v domain name t :
  site_record name (get_pricing_data v domain name t).1.
Proof.
  destruct (site_run v domain name t) as (evs & _ & _ & _ & Hcase). simpl in Hcase.
  destruct Hcase as [(pre & w & post & _ & _ & Hw & -> & _) | (_ & Hres & _)].
  - unfold accepted, record_at in *.
    destruct (extract_pricing_content v w _) as [c t2].
    apply andb_true_iff in Hw as [_ Hplans].
    pose proof (success_record_fields domain name w c
                  (analyze_pricing_with_ai v c w t2).1) as (Hn & Hd & Hs & Hok & Hl & Hp & _).
    split; [done |]. split; [by exists domain |]. left.
    split; [done |]. split; [by exists w |]. split; [by eexists |].
    rewrite Hp. unfold has_plans in Hplans.
    destruct (Py.get "plans" _) as [plans|]; [| done].
    exists plans. apply andb_true_iff in Hplans as [Ht _]. done.
  - destruct Hres as [(e & _ & ->) | [(_ & ->) | (_ & ->)]];
      (split; [done |]; split; [by exists domain |]; right; split; [done |];
       split; [by eexists |]).
    + by left.
    + by left.
    + right. by eexists.
Qed.

Lemma batch_records v pc total : forall items i results t name,
  name ∈ item_name <$> items ->
  exists r, (batch_loop (run_site v) pc total i items results t).1 !! name = Some (JObj r) /\
            stored_record name r.
Proof.
  induction items as [|it items IH]; intros i results t name Hin; [by apply elem_of_nil in Hin |].
  simpl. unfold bind.
  destruct (process_item_run (run_site v) (run_site_quiet v) pc total i it results t)
    as (r & e1 & E1 & _ & _ & _ & Hshape).
  rewrite E1.
  destruct (decide (name ∈ item_name <$> items)) as [Hrest | Hrest]; [by apply IH |].
  apply elem_of_cons in Hin as [-> | Hin]; [| done].
  destruct (batch_loop_run (run_site v) (run_site_quiet v) pc total items (i + 1)
              (<[item_name it := JObj r]> results) (t ++ e1)) as (e2 & _ & _ & _ & _ & Hkeep).
  rewrite Hkeep by done. rewrite lookup_insert_eq. exists r. split; [done |].
  destruct Hshape as [-> | [(e & t0 & Hr & _) | (t0 & Hr)]]; [by left | |].
  - exfalso. unfold run_site, bind, ret in Hr.
    by destruct (get_pricing_data v _ _ t0).
  - right. unfold run_site, bind, ret, site_of in Hr. simpl in Hr.
    pose proof (site_record_shape v (with_scheme (default "" (item_website it)))
                  (item_name it) t0) as Hs.
    destruct (get_pricing_data v _ _ t0) as [r0 t1]. simpl in *. by inversion Hr; subst.
Qed.

End RealBatch.

Lemma stored_record_success name r : stored_record name r -> has_field "success" r.
Proof.
  intros [-> | (_ & _ & [(Hs & _) | (Hs & _)])]; unfold has_field; [by eexists | |];
    rewrite Hs; by eexists.
Qed.

(** C8: an item whose website is missing, empty or blank is settled by the
    batch loop on the spot: the failure record "Empty URL" is stored under
    its name, and after the line that announces the item the only effect is
    the write of one checkpoint, which holds that record and the position of
    the item as [processed_count]; no request is sent and the per-site
    extraction is not called.  Over a whole run the checkpoints count up by
    one from the starting count, one per item. *)
Theorem empty_website_skipped `{Env} (v : variant) (pc total i : Z) (it : item)
    (results : gmap string json) (t : trace) :
  no_website (item_website it) = true ->
  let stored := <[item_name it := JObj empty_url_record]> results in
  let announced := t ++ [EvProcessing (pc + i + 1) total (item_name it)] in
  process_item (run_site v) pc total i it results t
    = (stored,
       announced ++ [EvCheckpoint (Checkpoint stored (pc + i + 1) total (clock announced))]) /\
  Py.get "success" empty_url_record = Some (JBool false) /\
  (forall items results0 t0, exists evs,
     (batch_loop (run_site v) pc total 0 items results0 t0).2 = t0 ++ evs /\
     processed_count <$> checkpoints evs
       = (fun k : nat => pc + Z.of_nat k) <$> seq 1 (length items)).
Proof.
  intros Hno. cbv zeta. split; [| split; [done |]].
  - unfold process_item, bind, emit, ret, save_checkpoint. by rewrite Hno.
  - intros items results0 t0.
    destruct (batch_loop_run (run_site v) (run_site_quiet v) pc total items 0 results0 t0)
      as (evs & E & _ & _ & C & _).
    exists evs. split; [done |]. rewrite C, <- seq_shift, <- list_fmap_compose.
    apply list_fmap_ext. intros ? k ?. simpl. lia.
Qed.

(** An item without website in a batch of one. *)
Lemma empty_website_skipped_once :
  no_website None = true /\
  @process_item Scenario.all_live (@run_site Scenario.all_live Plain) 0 1 0
      (Item "Bolt" None) ∅ []
    = (<["Bolt" := JObj empty_url_record]> ∅,
       [EvProcessing 1 1 "Bolt";
        EvCheckpoint (Checkpoint (<["Bolt" := JObj empty_url_record]> ∅) 1 1 1)]).
Proof.
  split; [reflexivity |].
  destruct (@empty_website_skipped Scenario.all_live Plain 0 1 0 (Item "Bolt" None) ∅ []
              eq_refl) as [Hrun _].
  exact Hrun.
Defined.

(** C9, as amended: every record the batch loop stores has the field
    [success].  The record stored for an item is either the one of an item
    without website, which holds [error] and [success] and neither [name]
    nor [domain], or a record returned by [get_pricing_data], which holds
    [name] (the name of the item), [domain] and [success]; with success it
    also holds [source_url], [content_length] and a non-empty [plans], and
    otherwise [error] and, at most, the list [attempted_urls]. *)
Theorem stored_records_shape `{Env} (v : variant) (pc total i : Z) (items : list item)
    (results : gmap string json) (t : trace) :
  let final := (batch_loop (run_site v) pc total i items results t).1 in
  Forall (fun it => exists r, final !! item_name it = Some (JObj r) /\
                      stored_record (item_name it) r /\ has_field "success" r) items /\
  has_field "error" empty_url_record /\
  ~ has_field "name" empty_url_record /\
  ~ has_field "domain" empty_url_record.
Proof.
  cbv zeta. split; [| split; [by eexists | split; by intros [? ?]]].
  apply Forall_forall. intros it Hit.
  destruct (batch_records v pc total items i results t (item_name it)) as (r & Hr & Hs).
  { apply list_elem_of_fmap. by exists it. }
  exists r. split; [done |]. split; [done |]. by eapply stored_record_success.
Qed.

(** C9 as stated fails for an item without website: the record stored under
    its name has neither [name] nor [domain]. *)
Lemma empty_website_record_lacks_name :
  let E := Scenario.all_live in
  exists final r,
    (run_batch Plain [Item "Bolt" (Some "")] ∅ None []).1 = Some final /\
    final !! "Bolt" = Some (JObj r) /\
    Py.get "success" r = Some (JBool false) /\
    Py.get "name" r = None /\ Py.get "domain" r = None.
Proof.
  cbv zeta. eexists. exists empty_url_record.
  split; [vm_compute; reflexivity |]. by vm_compute.
Qed.

(** C2, as amended: a run resumed from a checkpoint that holds results
    handles exactly the input items whose name is not a key of the
    checkpoint, in input order, and calls the per-site extraction for no
    name of the checkpoint, so every result of the checkpoint is in the
    final results unchanged.  The items handled number the total less the
    names of the checkpoint when the input names are pairwise distinct and
    every name of the checkpoint is the name of an input item. *)
Theorem resume_skips_completed `{Env} (v : variant) (all_urls : list item)
    (existing : gmap string json) (c : checkpoint) (t : trace) :
  all_urls <> [] -> cp_results c <> ∅ ->
  let completed := dom (cp_results c) in
  let remaining := get_remaining_urls all_urls (cp_results c) in
  exists final evs,
    run_batch v all_urls existing (Some c) t = (Some final, t ++ evs) /\
    (forall it, it ∈ remaining <-> it ∈ all_urls /\ item_name it ∉ completed) /\
    processing_names evs = item_name <$> remaining /\
    site_calls evs = site_of <$> List.filter has_website remaining /\
    Forall (fun call => call.2 ∉ completed) (site_calls evs) /\
    (forall name, name ∈ completed -> final !! name = cp_results c !! name) /\
    (NoDup (item_name <$> all_urls) ->
     completed ⊆ list_to_set (item_name <$> all_urls) ->
     list_len remaining = list_len all_urls - Z.of_nat (size (cp_results c))).
Proof.
  intros Hall Hcp. cbv zeta. unfold run_batch, main.
  destruct all_urls as [|it0 rest]; [done |]. set (all_urls := it0 :: rest).
  unfold starting_point. rewrite bool_decide_eq_false_2 by done.
  set (remaining := get_remaining_urls all_urls (cp_results c)).
  unfold bind, emit, ret.
  destruct (batch_loop_run (run_site v) (run_site_quiet v) (processed_count c)
              (list_len all_urls) remaining 0 (cp_results c) t)
    as (evs & E & P & S & _ & Hkeep).
  destruct (batch_loop (run_site v) (processed_count c) (list_len all_urls) 0 remaining
              (cp_results c) t) as [final t1]. simpl in E, Hkeep. subst t1. simpl.
  exists final, (evs ++ [EvOutput final; EvRemoveCheckpoint]).
  split; [by rewrite <- !app_assoc |].
  split; [intros it; apply remaining_spec |].
  rewrite processing_names_app, site_calls_app, !app_nil_r.
  split; [done |]. split; [done |]. split; [| split].
  - rewrite S. apply Forall_forall. intros call Hcall.
    apply list_elem_of_fmap in Hcall as (it & -> & Hit).
    apply elem_of_filter_bool in Hit as [Hit _]. by apply remaining_spec in Hit as [_ ?].
  - intros name Hname. apply Hkeep. intros Hin.
    apply list_elem_of_fmap in Hin as (it & -> & Hit).
    by apply remaining_spec in Hit as [_ ?].
  - exact (remaining_count all_urls (cp_results c)).
Qed.

(** A resumed run over two distinct names, the first of them completed. *)
Lemma resume_skips_completed_once :
  Scenario.two_sites <> [] /\ cp_results Scenario.acme_done <> ∅ /\
  exists final evs,
    @run_batch Scenario.all_live Plain Scenario.two_sites ∅ (Some Scenario.acme_done) []
      = (Some final, [] ++ evs) /\
    processing_names evs
      = item_name <$> get_remaining_urls Scenario.two_sites (cp_results Scenario.acme_done).
Proof.
  assert (H1 : Scenario.two_sites <> []) by discriminate.
  assert (H2 : cp_results Scenario.acme_done <> ∅) by apply map_non_empty_singleton.
  split; [exact H1 |]. split; [exact H2 |].
  destruct (@resume_skips_completed Scenario.all_live Plain Scenario.two_sites ∅
              Scenario.acme_done [] H1 H2) as (final & evs & Hrun & _ & Hp & _).
  exists final, evs. split; [exact Hrun | exact Hp].
Defined.

(** C2 as stated fails on the count when two rows share a name: of three
    rows and a checkpoint of one name, one item is handled, not two. *)
Lemma resume_count_with_repeated_name :
  let E := Scenario.all_live in
  let all_urls := Scenario.acme_twice in
  let c := Scenario.acme_done in
  processing_names (run_batch Plain all_urls ∅ (Some c) []).2 = ["Bolt"] /\
  list_len (get_remaining_urls all_urls (cp_results c)) = 1 /\
  list_len all_urls - Z.of_nat (size (cp_results c)) = 2.
Proof. by vm_compute. Qed.

(** ** Worked scenarios *)

(** Three ranked URLs: the first is skipped for the word Error in its text,
    the second yields a plan and becomes the source of the success record,
    the third is never fetched. *)
Example second_url_wins :
  let E := Scenario.acme in
  let run := get_pricing_data Plain "https://acme.test" "Acme" [] in
  (extracted run.2).*1 = [Scenario.page_a; Scenario.page_b] /\
  (analyzed run.2).*1 = [Scenario.page_b] /\
  run.1 = Scenario.pro_plan ++
          [("name", JStr "Acme"); ("domain", JStr "https://acme.test");
           ("source_url", JStr Scenario.page_b); ("success", JBool true);
           ("content_length", JNum 500)].
Proof. by vm_compute. Qed.

(** The same site through the batch loop, after an item without website. *)
Example batch_of_two :
  let E := Scenario.acme in
  let run := run_batch Plain [Item "Bolt" None; Item "Acme" (Some "acme.test")] ∅ None [] in
  processing_names run.2 = ["Bolt"; "Acme"] /\
  site_calls run.2 = [("https://acme.test", "Acme")] /\
  processed_count <$> checkpoints run.2 = [1; 2] /\
  (fun final => Py.get "source_url" <$> (match final !! "Acme" with
                                          | Some (JObj r) => Some r
                                          | _ => None
                                          end)) <$> run.1
    = Some (Some (Some (JStr Scenario.page_b))).
Proof. by vm_compute. Qed.

(** On a chain of 14 indexes the nested expansion works at the depths 0 to
    10 and no deeper, and the queue loop stays within its 50 iterations. *)
Example chain_stops_at_depth_10 :
  let E := Scenario.chain in
  let run := get_all_sitemap_links_fuel 51 12 Plain "https://acme.test/" [] in
  (fun r => (foldr Z.max 0 (nested_depths r.2), bool_decide (r.1.2 <= 50))) <$> run
    = Some (10, true).
Proof. by vm_compute. Qed.

(** The string functions on small inputs. *)
Example strings_behave :
  Str.strip "  acme.test  " = "acme.test" /\
  Str.lower "HTTPS://Acme.Test/PRICING" = "https://acme.test/pricing" /\
  Str.contains "Error" "No Error today" = true /\
  Str.contains "Error" "no error today" = false /\
  Str.endswith ".png" "https://acme.test/logo.png" = true /\
  Str.slice_to 3 "pricing" = "pri" /\
  Str.of_Z 404 = "404" /\
  Str.brace_span "} text {a} and {b} end" = Some "{a} and {b}" /\
  Str.brace_span "} only {" = None /\
  Str.split Str.colon "a:b::c" = ["a"; "b"; ""; "c"].
Proof. by vm_compute. Qed.

(** The [Sitemap:] lines of a robots.txt, and the URL validator on an image
    and on a page. *)
Example robots_and_validator :
  let E := Scenario.all_live in
  let nl := String Str.newline EmptyString in
  robots_sitemaps ("User-agent: *" +:+ nl +:+ "  SiteMap: https://acme.test/sm.xml " +:+ nl
                   +:+ "Disallow: /admin" +:+ nl)
    = ["https://acme.test/sm.xml"] /\
  _is_valid_url "https://acme.test/logo.png" = false /\
  _is_valid_url "https://acme.test/pricing" = true.
Proof. by vm_compute. Qed.

(** The dict operations keep the order of insertion, and the truth value
    and length of JSON values are those of Python. *)
Example dicts_behave :
  Py.update [("plans", JArr []); ("name", JStr "old")] [("name", JStr "Acme"); ("success", JBool true)]
    = [("plans", JArr []); ("name", JStr "Acme"); ("success", JBool true)] /\
  has_plans [("plans", JArr [])] = false /\
  has_plans [("plans", JArr [JObj []])] = true /\
  has_plans [("plans", JNum 3)] = false /\
  has_plans [("error", JStr "No valid JSON found")] = false.
Proof. by vm_compute. Qed.

(** * Further properties of the code *)

(** ** Strings and the URL validator *)

Lemma list_ascii_app (a b : string) :
  list_ascii_of_string (a +:+ b) = list_ascii_of_string a ++ list_ascii_of_string b.
Proof. induction a as [|c a IH]; simpl; [done | by rewrite IH]. Qed.

Lemma string_of_list_app (l1 l2 : list ascii) :
  string_of_list_ascii (l1 ++ l2) = string_of_list_ascii l1 +:+ string_of_list_ascii l2.
Proof. induction l1 as [|c l1 IH]; simpl; [done | by rewrite IH]. Qed.

Lemma rev_app (a b : string) : Str.rev (a +:+ b) = Str.rev b +:+ Str.rev a.
Proof. unfold Str.rev. by rewrite list_ascii_app, rev_app_distr, string_of_list_app. Qed.

Lemma rev_involutive (s : string) : Str.rev (Str.rev s) = s.
Proof.
  unfold Str.rev.
  by rewrite list_ascii_of_string_of_list_ascii, List.rev_involutive,
    string_of_list_ascii_of_string.
Qed.

Lemma endswith_spec (p s : string) :
  Str.endswith p s = true <-> exists a, s = a +:+ p.
Proof.
  unfold Str.endswith. rewrite startswith_spec. split.
  - intros (b & Hb). exists (Str.rev b).
    rewrite <- (rev_involutive s), Hb, rev_app. by rewrite rev_involutive.
  - intros (a & ->). exists (Str.rev a). apply rev_app.
Qed.

(** X1: the URL validator accepts a URL exactly when [urlparse] succeeds
    with a scheme and a host and the URL, lower-cased, ends with none of the
    eight asset extensions; so the extension test is blind to letter case. *)
Theorem validator_accepts_iff `{Env} (url : string) :
  _is_valid_url url = true <->
  (exists scheme netloc,
     urlparse url = Some (scheme, netloc) /\ scheme <> "" /\ netloc <> "") /\
  (forall ext a, ext ∈ asset_extensions -> Str.lower url <> a +:+ ext).
Proof.
  unfold _is_valid_url, Str.endswith_any.
  assert (Hext : existsb (fun k => Str.endswith k (Str.lower url)) asset_extensions = false <->
                 forall ext a, ext ∈ asset_extensions -> Str.lower url <> a +:+ ext).
  { rewrite <- not_true_iff_false, existsb_exists. split.
    - intros Hno ext a Hin Heq. apply Hno. exists ext.
      split; [by apply list_elem_of_In |]. apply endswith_spec. by exists a.
    - intros Hno (ext & Hin & He). apply endswith_spec in He as (a & Ha).
      apply list_elem_of_In in Hin. by apply (Hno ext a). }
  set (bad := existsb (fun k => Str.endswith k (Str.lower url)) asset_extensions) in *.
  destruct (urlparse url) as [[scheme netloc]|].
  - destruct (String.eqb_spec scheme ""); simpl.
    { split; [done |]. intros [(s0 & n0 & Hs & ? & ?) _]. by inversion Hs; subst. }
    destruct (String.eqb_spec netloc ""); simpl.
    { split; [done |]. intros [(s0 & n0 & Hs & ? & ?) _]. by inversion Hs; subst. }
    destruct bad; simpl.
    + split; [done |]. intros [_ Hno]. by apply Hext in Hno.
    + split; [| done]. intros _. split; [by exists scheme, netloc | by apply Hext].
  - split; [done |]. by intros [(s0 & n0 & Hs & _) _].
Qed.

Lemma lstrip_blank (s : string) : Str.lstrip s = "" <-> blank s.
Proof.
  unfold blank. induction s as [|c s IH]; simpl; [done |].
  destruct (Str.is_space c) eqn:Hc.
  - rewrite IH. split; [by constructor | by inversion 1].
  - split; [done |]. inversion 1; congruence.
Qed.

Lemma lstrip_idempotent (s : string) : Str.lstrip (Str.lstrip s) = Str.lstrip s.
Proof.
  induction s as [|c s IH]; simpl; [done |].
  destruct (Str.is_space c) eqn:Hc; [done |]. simpl. by rewrite Hc.
Qed.

Lemma blank_rev (s : string) : blank (Str.rev s) -> blank s.
Proof.
  unfold blank, Str.rev. rewrite list_ascii_of_string_of_list_ascii.
  intros Hb. apply List.Forall_rev in Hb. by rewrite List.rev_involutive in Hb.
Qed.

Lemma strip_blank (s : string) : Str.strip s = "" <-> blank s.
Proof.
  unfold Str.strip. split.
  - intros Hs. apply (f_equal Str.rev) in Hs. rewrite rev_involutive in Hs.
    change (Str.rev "") with EmptyString in Hs.
    apply lstrip_blank, blank_rev, lstrip_blank in Hs.
    rewrite lstrip_idempotent in Hs. by apply lstrip_blank.
  - intros Hb. apply lstrip_blank in Hb. by rewrite Hb.
Qed.

(** X2: the batch loop takes an item for one without website exactly when
    the website is missing or consists of whitespace only, the empty string
    included; one character that is not whitespace is enough for the
    per-site extraction to be called. *)
Theorem blank_website_iff (website : option string) :
  no_website website = true <->
  match website with
  | None => True
  | Some w => blank w
  end.
Proof.
  destruct website as [w|]; simpl; [| done].
  rewrite orb_true_iff, <- strip_blank. split.
  - intros [Hw | Hs]; [apply String.eqb_eq in Hw; by subst | by apply String.eqb_eq].
  - intros Hs. right. by apply String.eqb_eq.
Qed.

Lemma occurs_app c (a b : string) : occurs c (a +:+ b) <-> occurs c a \/ occurs c b.
Proof. unfold occurs. rewrite list_ascii_app. apply in_app_iff. Qed.

Lemma from_first_spec c (s r : string) :
  Str.from_first c s = Some r ->
  exists a r', s = a +:+ String c r' /\ r = String c r' /\ ~ occurs c a.
Proof.
  induction s as [|d s IH]; simpl; [done |].
  destruct (Ascii.eqb_spec d c) as [-> | Hne].
  - intros [= <-]. exists "", s. split; [done |]. split; [done |]. by intros [].
  - intros Hr. destruct (IH Hr) as (a & r' & -> & -> & Ha).
    exists (String d a), r'. split; [done |]. split; [done |].
    intros [Hd | Hin]; [congruence | by apply Ha].
Qed.

Lemma from_first_none c (s : string) : Str.from_first c s = None -> ~ occurs c s.
Proof.
  induction s as [|d s IH]; simpl; [by intros _ [] |].
  destruct (Ascii.eqb_spec d c) as [-> | Hne]; [done |].
  intros Hn [Hd | Hin]; [congruence | by apply IH].
Qed.

Lemma upto_last_none c (s : string) : Str.upto_last c s = None -> ~ occurs c s.
Proof.
  induction s as [|d s IH]; simpl; [by intros _ [] |].
  destruct (Str.upto_last c s); [done |].
  destruct (Ascii.eqb_spec d c) as [-> | Hne]; [done |].
  intros _ [Hd | Hin]; [congruence | by apply IH].
Qed.

Lemma upto_last_spec c (s p : string) :
  Str.upto_last c s = Some p ->
  exists body b, p = body +:+ String c "" /\ s = p +:+ b /\ ~ occurs c b.
Proof.
  revert p. induction s as [|d s IH]; intros p; simpl; [done |].
  destruct (Str.upto_last c s) as [q|] eqn:Hq.
  - intros [= <-]. destruct (IH q eq_refl) as (body & b & -> & Hs & Hb).
    exists (String d body), b. split; [done |]. split; [by rewrite Hs at 1 | done].
  - destruct (Ascii.eqb_spec d c) as [-> | Hne]; [| done].
    intros [= <-]. exists "", s. split; [done |]. split; [done |]. by apply upto_last_none.
Qed.

Lemma string_app_assoc (a b c : string) : (a +:+ b) +:+ c = a +:+ b +:+ c.
Proof.
  induction a as [|e a IH]; [done |].
  change (String e ((a +:+ b) +:+ c) = String e (a +:+ b +:+ c)). by rewrite IH.
Qed.

(** What follows the first [c] of a string is reached by every other way of
    cutting the string at a [c]. *)
Lemma first_split c (pre rest a x : string) :
  ~ occurs c pre -> pre +:+ String c rest = a +:+ String c x -> exists y, rest = y +:+ x.
Proof.
  revert a. induction pre as [|d pre IH]; intros a Hpre Heq.
  - destruct a as [|e a].
    + change (String c rest = String c x) in Heq. injection Heq as ->. by exists "".
    + change (String c rest = String e (a +:+ String c x)) in Heq.
      injection Heq as _ Hr. exists (a +:+ String c "").
      by rewrite Hr, string_app_assoc.
  - destruct a as [|e a].
    + change (String d (pre +:+ String c rest) = String c x) in Heq.
      injection Heq as Hd _. destruct Hpre. by left.
    + change (String d (pre +:+ String c rest) = String e (a +:+ String c x)) in Heq.
      injection Heq as _ Hr. apply (IH a); [| exact Hr].
      intros Hin. apply Hpre. by right.
Qed.

(** X3: the span taken out of a model answer runs from the first opening
    brace of the answer to its last closing brace, when that brace comes
    after; text before holds no opening brace and text after no closing
    one, so two JSON objects in one answer are taken together with what
    lies between them.  There is no span exactly when no closing brace
    follows an opening one. *)
Theorem json_span_is_widest (s : string) :
  match Str.brace_span s with
  | Some span =>
      exists before body after,
        s = before +:+ span +:+ after /\
        span = String Str.lbrace (body +:+ String Str.rbrace "") /\
        ~ occurs Str.lbrace before /\ ~ occurs Str.rbrace after
  | None =>
      forall before body after,
        s <> before +:+ String Str.lbrace (body +:+ String Str.rbrace after)
  end.
Proof.
  unfold Str.brace_span.
  destruct (Str.from_first Str.lbrace s) as [r|] eqn:Hf.
  - destruct (from_first_spec _ _ _ Hf) as (a & rest & -> & -> & Ha).
    destruct (Str.upto_last Str.rbrace rest) as [p|] eqn:Hu.
    + destruct (upto_last_spec _ _ _ Hu) as (body & b & -> & Hs & Hb).
      exists a, body, b. split; [by rewrite Hs at 1 | done].
    + intros before body after Heq.
      destruct (first_split _ _ _ _ _ Ha Heq) as (y & ->).
      apply (upto_last_none _ _ Hu). apply occurs_app. right. apply occurs_app. right.
      by left.
  - intros before body after ->. apply (from_first_none _ _ Hf).
    apply occurs_app. right. by left.
Qed.

(** ** Python dicts *)

Lemma get_app k (d1 d2 : dict) :
  Py.get k (d1 ++ d2) = match Py.get k d1 with Some v => Some v | None => Py.get k d2 end.
Proof.
  induction d1 as [|[k1 v1] d1 IH]; simpl; [done |]. by destruct (String.eqb k k1).
Qed.

(** After [d.update(new)] a key reads as its last setting in [new], and as
    in [d] when [new] does not set it. *)
Lemma get_update (k : string) (d new : dict) :
  Py.get k (Py.update d new)
    = match Py.get k (List.rev new) with
      | Some v => Some v
      | None => Py.get k d
      end.
Proof.
  unfold Py.update. revert d. induction new as [|[k1 v1] new IH]; intros d; simpl; [done |].
  rewrite IH, get_app. destruct (Py.get k (List.rev new)); [done |]. simpl.
  destruct (String.eqb_spec k k1) as [-> | Hne].
  - apply get_set_eq.
  - apply get_set_ne. congruence.
Qed.

(** X4: in a success record the five fields set by the orchestrator hold
    its own values even when the answer of the analyzer has fields of these
    names, and every other field reads as the analyzer returned it. *)
Theorem orchestrator_fields_win (domain name url c : string) (data : dict) :
  let r := success_record domain name url c data in
  Py.get "name" r = Some (JStr name) /\
  Py.get "domain" r = Some (JStr domain) /\
  Py.get "source_url" r = Some (JStr url) /\
  Py.get "success" r = Some (JBool true) /\
  Py.get "content_length" r = Some (JNum (Str.len c)) /\
  (forall k, k ∉ ["name"; "domain"; "source_url"; "success"; "content_length"] ->
     Py.get k r = Py.get k data).
Proof.
  cbv zeta. unfold success_record.
  repeat (split; [by rewrite get_update |]).
  intros k Hk. rewrite get_update. simpl.
  assert (Hno : forall f, In f ["name"; "domain"; "source_url"; "success"; "content_length"]
                          -> String.eqb k f = false).
  { intros f Hf. apply String.eqb_neq. intros ->. by apply Hk, list_elem_of_In. }
  by rewrite !Hno by (simpl; tauto).
Qed.

(** ** The list for the prompt *)

Lemma take_to_length {A} n (l : list A) : 0 <= n -> list_len (Str.take_to n l) <= n.
Proof.
  intros Hn. rewrite take_to_nonneg by done. unfold list_len. rewrite length_take. lia.
Qed.

Lemma take_to_subset {A} n (l : list A) x : x ∈ Str.take_to n l -> x ∈ l.
Proof.
  unfold Str.take_to. destruct (n <? 0); intros Hin; by apply (subseteq_take _ l) in Hin.
Qed.

Lemma ensure_spec x (l : list string) y : y ∈ ensure x l <-> y = x \/ y ∈ l.
Proof.
  unfold ensure. case_bool_decide as Hx.
  - split; [by right | intros [-> | ?]; done].
  - rewrite elem_of_app, list_elem_of_singleton. tauto.
Qed.

Lemma ensure_length x (l : list string) : list_len (ensure x l) <= list_len l + 1.
Proof.
  unfold ensure, list_len. case_bool_decide; [lia |]. rewrite length_app. simpl. lia.
Qed.

(** X5: the list of URLs that goes into the ranking prompt never has more
    than 401 entries, 400 and the homepage, and every entry is the homepage
    or one of the candidates: sampling drops links and invents none. *)
Theorem prompt_list_bounded `{Env} (domain : string) (all_links : list string) :
  list_len (links_for_prompt domain all_links) <= 401 /\
  (forall link, link ∈ links_for_prompt domain all_links -> link = domain \/ link ∈ all_links).
Proof.
  unfold links_for_prompt, max_links.
  destruct (list_len (ensure domain all_links) >? 400) eqn:Hbig.
  - unfold sample_links, max_links.
    set (cands := ensure domain all_links).
    set (high := List.filter is_high cands). set (medium := List.filter is_medium cands).
    set (low := List.filter _ cands).
    change (400 / 3) with 133.
    set (h := Str.take_to 133 high).
    assert (Hh : list_len h <= 133) by (by apply take_to_length).
    assert (Hh0 : 0 <= list_len h) by (unfold list_len; lia).
    set (m := Str.take_to ((400 - list_len h) / 2) medium).
    assert (Hm : list_len m <= (400 - list_len h) / 2)
      by (apply take_to_length, Z.div_pos; lia).
    assert (Hm0 : 0 <= list_len m) by (unfold list_len; lia).
    assert (Hhalf : (400 - list_len h) / 2 <= 400 - list_len h)
      by (apply Z.div_le_upper_bound; lia).
    assert (Hhm : list_len (h ++ m) = list_len h + list_len m)
      by (unfold list_len; rewrite length_app; lia).
    set (lo := Str.take_to (400 - list_len (h ++ m)) low).
    assert (Hlo : list_len lo <= 400 - list_len (h ++ m)) by (apply take_to_length; lia).
    split.
    + pose proof (ensure_length domain ((h ++ m) ++ lo)) as He.
      assert (list_len ((h ++ m) ++ lo) = list_len (h ++ m) + list_len lo)
        by (unfold list_len; rewrite length_app; lia).
      lia.
    + intros link Hin. apply ensure_spec in Hin as [-> | Hin]; [by left |].
      assert (link ∈ cands) as Hc.
      { rewrite !elem_of_app in Hin.
        destruct Hin as [[Hin | Hin] | Hin]; apply take_to_subset in Hin;
          by apply elem_of_filter_bool in Hin as [? _]. }
      by apply ensure_spec in Hc.
  - split; [lia |]. intros link Hin. by apply ensure_spec in Hin.
Qed.

(** ** What the collectors keep *)

Lemma fold_left_inv {A B} (I : A -> Prop) (f : A -> B -> A) (l : list B) :
  (forall a b, I a -> I (f a b)) -> forall a, I a -> I (fold_left f l a).
Proof. intros Hf. induction l as [|b l IH]; intros a Ha; simpl; [done | by apply IH, Hf]. Qed.

(** An invariant of the body of a loop holds after the loop. *)
Lemma for_each_inv {A S} (I : S -> trace -> Prop) (l : list A) (body : A -> S -> M S) :
  (forall x s t, x ∈ l -> I s t -> I (body x s t).1 (body x s t).2) ->
  forall s t, I s t -> I (for_each l body s t).1 (for_each l body s t).2.
Proof.
  induction l as [|x l IH]; intros Hb s t Hs; simpl; [done |]. unfold bind.
  assert (Hx : I (body x s t).1 (body x s t).2) by (apply Hb; [by left | done]).
  destruct (body x s t) as [s1 t1]. apply IH; [| done].
  intros y s' t' Hy. apply Hb. by right.
Qed.

(** The same for a loop that may raise: the invariant holds when the loop
    returns. *)
Lemma for_each_try_inv {A S} (I : S -> trace -> Prop) (l : list A)
    (body : A -> S -> M (exn + S)) :
  (forall x s t, x ∈ l -> I s t ->
     match (body x s t).1 with
     | inr s' => I s' (body x s t).2
     | inl _ => True
     end) ->
  forall s t, I s t ->
    match (for_each_try l body s t).1 with
    | inr s' => I s' (for_each_try l body s t).2
    | inl _ => True
    end.
Proof.
  induction l as [|x l IH]; intros Hb s t Hs; simpl; [done |]. unfold bind.
  assert (Hx := Hb x s t ltac:(by left) Hs).
  destruct (body x s t) as [[e|s1] t1]; simpl in Hx; [done |].
  apply IH; [| done]. intros y s' t' Hy. apply Hb. by right.
Qed.

Section Links.

Context `{Env}.

Lemma links_ok_empty domain : links_ok domain ∅.
Proof. intros url Hin. by apply elem_of_empty in Hin. Qed.

Lemma add_href_ok domain links href links' :
  links_ok domain links -> add_href domain links href = inr links' -> links_ok domain links'.
Proof.
  intros Hs. unfold add_href.
  destruct (String.eqb_spec (Str.strip href) "") as [He | He]; [by intros [= <-] |].
  destruct (Str.startswith_any skipped_schemes (Str.strip href)) eqn:Hk; [by intros [= <-] |].
  cbn [negb andb]. destruct (urljoin domain (Str.strip href)) as [e|full_url] eqn:Hj; [done |].
  destruct (_is_valid_url full_url) eqn:Hv; intros [= <-]; [| done].
  intros url. rewrite elem_of_union, elem_of_singleton. intros [-> | Hin]; [| by apply Hs].
  split; [done |]. by exists (Str.strip href).
Qed.

Lemma add_hrefs_ok domain hrefs : forall links,
  links_ok domain links -> links_ok domain (add_hrefs domain hrefs links).
Proof.
  induction hrefs as [|href hrefs IH]; intros links Hs; simpl; [done |].
  destruct (add_href domain links href) as [e|links'] eqn:Ha; [done |].
  apply IH. by eapply add_href_ok.
Qed.

Lemma add_opt_href_ok domain links href :
  links_ok domain links -> links_ok domain (add_opt_href domain links href).
Proof.
  intros Hs. destruct href as [h|]; [| done]. unfold add_opt_href.
  destruct (String.eqb_spec h "") as [He | He]; [done |].
  destruct (Str.startswith_any skipped_schemes h) eqn:Hk; [done |].
  cbn [negb andb]. destruct (urljoin domain h) as [e|full_url] eqn:Hj; [done |].
  destruct (_is_valid_url full_url) eqn:Hv; [| done].
  intros url. rewrite elem_of_union, elem_of_singleton. intros [-> | Hin]; [| by apply Hs].
  split; [done |]. by exists h.
Qed.

Lemma union_list_ok domain (l : list string) links :
  Forall (page_link domain) l -> links_ok domain links -> links_ok domain (union_list l links).
Proof.
  intros Hl Hs url. unfold union_list. rewrite elem_of_union, elem_of_list_to_set.
  intros [Hin | Hin]; [| by apply Hs]. rewrite Forall_forall in Hl. by apply Hl.
Qed.

Lemma elements_ok domain links : links_ok domain links -> Forall (page_link domain) (elements links).
Proof. intros Hs. apply Forall_forall. intros url Hin. by apply Hs, elem_of_elements. Qed.

Lemma page_links_ok page domain : Forall (page_link domain) (_extract_links_from_page page domain).
Proof.
  apply elements_ok, fold_left_inv; [| apply links_ok_empty].
  intros links hrefs. apply add_hrefs_ok.
Qed.

Lemma alternative_links_ok domain t :
  let links := (_get_links_alternative_method domain t).1 in
  NoDup links /\ Forall (page_link domain) links.
Proof.
  unfold _get_links_alternative_method, requests_get, send, bind, ret. simpl.
  destruct (http t _) as [e|resp]; simpl.
  - split; [apply NoDup_elements | apply elements_ok, links_ok_empty].
  - destruct (status_code resp =? 200); simpl.
    + split; [apply NoDup_elements | apply elements_ok, add_hrefs_ok, links_ok_empty].
    + split; [apply NoDup_elements | apply elements_ok, links_ok_empty].
Qed.

Lemma visit_important_ok v domain page links t :
  links_ok domain links ->
  match (visit_important v domain page links t).1 with
  | inr links' => links_ok domain links'
  | inl _ => True
  end.
Proof.
  intros Hs. unfold visit_important, bind, sleep, emit, ret.
  destruct (urljoin domain page) as [e|page_url]; [done |].
  destruct (_check_url_exists v _ _) as [[] t1]; [| done].
  unfold session_get, send. destruct (http t1 _) as [e|resp]; simpl; [done |].
  destruct (status_code resp =? 200); simpl; [| done].
  apply union_list_ok; [apply page_links_ok | done].
Qed.

Lemma valid_links_empty : valid_links ∅.
Proof. intros url Hin. by apply elem_of_empty in Hin. Qed.

Lemma add_loc_valid links loc : valid_links links -> valid_links (add_loc links loc).
Proof.
  intros Hs. unfold add_loc.
  destruct (String.eqb (Str.strip loc) ""); [done |]. cbn [negb andb].
  destruct (_is_valid_url (Str.strip loc)) eqn:Hv; [| done].
  intros url. rewrite elem_of_union, elem_of_singleton. intros [-> | Hin]; [done | by apply Hs].
Qed.

Lemma add_url_loc_valid links loc : valid_links links -> valid_links (add_url_loc links loc).
Proof.
  intros Hs. destruct loc as [txt|]; [| done]. unfold add_url_loc.
  destruct (String.eqb txt ""); [done |]. cbn [negb andb].
  destruct (_is_valid_url (Str.strip txt)) eqn:Hv; [| done].
  intros url. rewrite elem_of_union, elem_of_singleton. intros [-> | Hin]; [done | by apply Hs].
Qed.

Lemma sitemap_page_valid sitemap_url t :
  Forall (fun url => _is_valid_url url = true) (_extract_links_from_sitemap sitemap_url t).1.
Proof.
  assert (Hel : forall links, valid_links links ->
            Forall (fun url => _is_valid_url url = true) (elements links)).
  { intros links Hs. apply Forall_forall. intros url Hin. by apply Hs, elem_of_elements. }
  unfold _extract_links_from_sitemap, session_get, send, bind, ret. simpl.
  destruct (http t _) as [e|resp]; simpl; [apply Hel, valid_links_empty |].
  destruct (Str.contains "xml" sitemap_url); simpl; [| apply Hel, valid_links_empty].
  apply Hel, fold_left_inv; [apply add_url_loc_valid |].
  apply fold_left_inv; [apply add_loc_valid | apply valid_links_empty].
Qed.

Lemma sitemap_loop_valid fuel nf v : forall q i proc links t res i' t',
  valid_links links ->
  sitemap_loop fuel nf v q i proc links t = Some (res, i', t') ->
  valid_links res.
Proof.
  induction fuel as [|fuel IH]; intros q i proc links t res i' t' Hs Hrun; [done |].
  simpl in Hrun. destruct q as [|url q]; [by inversion Hrun; subst |].
  destruct (negb (i <? max_iterations)); [by inversion Hrun; subst |].
  destruct (bool_decide (url ∈ proc)); [by eapply IH, Hrun |].
  destruct (_check_url_exists v url _) as [[] t1]; simpl in Hrun; [| by eapply IH, Hrun].
  pose proof (sitemap_page_valid url t1) as Hpage.
  destruct (_extract_links_from_sitemap url t1) as [found t2]. simpl in Hpage.
  assert (Hs' : valid_links (union_list found links)).
  { intros u. unfold union_list. rewrite elem_of_union, elem_of_list_to_set.
    intros [Hin | Hin]; [| by apply Hs]. rewrite Forall_forall in Hpage. by apply Hpage. }
  destruct (_is_sitemap_index url t2) as [[] t3]; [| by eapply IH, Hrun].
  destruct (extract_nested nf url ∅ 0 t3) as [[[nested pr] t4]|]; [| done].
  by eapply IH, Hrun.
Qed.

End Links.

(** X6: the links collected from the pages of a site, by either pipeline
    on every path (homepage and important pages, the browser, the
    alternative request after a block or a failure), come without
    duplicates; each was read from an href that is not empty and starts with
    none of javascript:, mailto:, tel: and #, was resolved against the
    domain, and passes the URL validator. *)
Theorem collected_links_ok `{Env} (v : variant) (domain : string) (t : trace) :
  let links := (_get_all_website_links v domain t).1 in
  NoDup links /\ Forall (page_link domain) links.
Proof.
  cbv zeta. destruct v; unfold _get_all_website_links.
  - unfold get_all_website_links_plain, session_get, send, bind, ret.
    destruct (http t _) as [e|resp]; [apply alternative_links_ok |].
    destruct ((status_code resp =? 403) || _); [apply alternative_links_ok |].
    destruct (negb (status_code resp =? 200)); [split; constructor |].
    set (start := union_list _ ∅).
    pose proof (for_each_try_inv (fun s _ => links_ok domain s) important_pages
                  (visit_important Plain domain)
                  (fun x s t0 _ Hs => visit_important_ok Plain domain x s t0 Hs)
                  start (t ++ [EvHttp (Request GET domain 15 true None true)])) as Hinv.
    destruct (for_each_try important_pages _ start _) as [[e|links] t1];
      [apply alternative_links_ok |].
    cbn [fst snd] in *.
    split; [apply NoDup_elements |]. apply elements_ok, Hinv.
    apply union_list_ok; [apply page_links_ok | apply links_ok_empty].
  - unfold get_all_website_links_browser, bind, ret.
    destruct (browser_links t domain) as [hrefs failure]. simpl.
    assert (Hb : links_ok domain (fold_left (add_opt_href domain) hrefs ∅)).
    { apply fold_left_inv; [| apply links_ok_empty]. intros a b. apply add_opt_href_ok. }
    destruct failure as [e|]; simpl; [| split; [apply NoDup_elements | by apply elements_ok]].
    pose proof (alternative_links_ok domain (t ++ [EvLinks domain])) as [_ Halt].
    destruct (_get_links_alternative_method domain _) as [alt t1]. simpl in *.
    split; [apply NoDup_elements |]. by apply elements_ok, union_list_ok.
Qed.

(** X7: every link the sitemap traversal returns passes the URL
    validator, whatever the documents hold. *)
Theorem sitemap_links_valid `{Env} (v : variant) (domain : string) (t : trace) :
  Forall (fun url => _is_valid_url url = true) (_get_all_sitemap_links v domain t).1.
Proof.
  unfold _get_all_sitemap_links, get_all_sitemap_links_fuel.
  destruct (_discover_sitemap_urls domain t) as [[e|urls] t1].
  { simpl. rewrite elements_empty. constructor. }
  destruct (sitemap_loop loop_fuel depth_fuel v urls 0 ∅ ∅ t1) as [[[res i'] t']|] eqn:Hl;
    simpl; [| constructor].
  apply Forall_forall. intros url Hin. apply elem_of_elements in Hin.
  eapply sitemap_loop_valid in Hl; [by apply Hl | apply valid_links_empty].
Qed.

(** ** The nested expansion downloads no index twice *)

Lemma expansion_gets_app a b : expansion_gets (a ++ b) = expansion_gets a ++ expansion_gets b.
Proof. apply omap_app. Qed.

Lemma visits_once_nil processed : visits_once processed processed [].
Proof.
  split; [constructor |]. split; [intros url Hin; by apply elem_of_nil in Hin |].
  simpl. by rewrite (left_id_L ∅ (∪)).
Qed.

Lemma visits_once_quiet processed evs :
  expansion_gets evs = [] -> visits_once processed processed evs.
Proof. intros Hq. unfold visits_once. rewrite Hq. apply visits_once_nil. Qed.

(** The index test sends at most a HEAD and a GET, both with timeout 5. *)
Lemma is_index_requests `{Env} url t :
  exists evs, (_is_sitemap_index url t).2 = t ++ evs /\ expansion_gets evs = [].
Proof.
  unfold _is_sitemap_index, session_head, session_get, send, bind, ret.
  destruct (Str.contains_any _ _); [exists []; by rewrite app_nil_r |].
  destruct (http t _) as [e|resp]; simpl; [by eexists (cons _ nil) |].
  destruct (negb (status_code resp =? 200)); simpl; [by eexists (cons _ nil) |].
  destruct (negb (Str.contains "xml" _)); simpl; [by eexists (cons _ nil) |].
  destruct (http _ _) as [e|body]; simpl;
    eexists (cons _ (cons _ nil)); by rewrite <- app_assoc.
Qed.

Lemma visits_once_app p0 p1 p2 e1 e2 :
  visits_once p0 p1 e1 -> visits_once p1 p2 e2 -> visits_once p0 p2 (e1 ++ e2).
Proof.
  intros (N1 & D1 & ->) (N2 & D2 & ->). unfold visits_once. rewrite expansion_gets_app.
  split; [| split].
  - apply NoDup_app. split; [done |]. split; [| done].
    intros url H1 H2. apply (D2 url H2).
    apply elem_of_union. left. by apply elem_of_list_to_set.
  - intros url Hin. apply elem_of_app in Hin as [Hin | Hin]; [by apply D1 |].
    intros Hp. apply (D2 url Hin). apply elem_of_union. by right.
  - rewrite list_to_set_app_L, <- (assoc_L (∪)).
    by rewrite (comm_L (∪) (list_to_set (expansion_gets e1)) (list_to_set (expansion_gets e2) ∪ p0)),
         <- (assoc_L (∪)), (comm_L (∪) p0).
Qed.

Section Once.

Context `{Env}.

Lemma visit_all_nested_once recur depth :
  (forall u p t r p' t', recur u p (depth + 1) t = Some (r, p', t') ->
     exists evs, t' = t ++ evs /\ visits_once p p' evs) ->
  forall l st t st' t',
    visit_all_nested recur depth l st t = Some (st', t') ->
    exists evs, t' = t ++ evs /\ visits_once st.1 st'.1 evs.
Proof.
  intros Hrec. induction l as [|x l IH]; intros st t st' t' Hrun; simpl in Hrun.
  - inversion Hrun; subst. exists []. rewrite app_nil_r. split; [done | apply visits_once_nil].
  - destruct (visit_nested recur depth x st t) as [[st1 t1]|] eqn:Hv; [| done].
    assert (exists e1, t1 = t ++ e1 /\ visits_once st.1 st1.1 e1) as (e1 & -> & V1).
    { unfold visit_nested in Hv. destruct st as [proc add]. destruct (bool_decide _).
      { inversion Hv; subst. exists []. rewrite app_nil_r.
        split; [done | apply visits_once_nil]. }
      destruct (is_index_requests x t) as (e0 & E0 & F0).
      destruct (_is_sitemap_index x t) as [b t0]. simpl in E0. subst t0.
      destruct b.
      - destruct (recur x proc (depth + 1) (t ++ e0)) as [[[dp pr] t2]|] eqn:Hr; [| done].
        inversion Hv; subst. destruct (Hrec _ _ _ _ _ _ Hr) as (e2 & -> & V2).
        exists (e0 ++ e2). rewrite app_assoc. split; [done |].
        eapply visits_once_app; [by apply visits_once_quiet | exact V2].
      - inversion Hv; subst. exists e0. split; [done | by apply visits_once_quiet]. }
    destruct (IH _ _ _ _ Hrun) as (e2 & -> & V2).
    exists (e1 ++ e2). rewrite app_assoc. split; [done |]. by eapply visits_once_app.
Qed.

Lemma extract_nested_once fuel : forall url proc depth t r proc' t',
  extract_nested fuel url proc depth t = Some (r, proc', t') ->
  exists evs, t' = t ++ evs /\ visits_once proc proc' evs /\ NoDup r.
Proof.
  induction fuel as [|fuel IH]; intros url proc depth t r proc' t' Hrun; [done |].
  simpl in Hrun.
  destruct (depth >? max_depth) eqn:Hd.
  { inversion Hrun; subst. exists []. rewrite app_nil_r.
    split; [done |]. split; [apply visits_once_nil | constructor]. }
  destruct (bool_decide (url ∈ proc)) eqn:Hseen.
  { inversion Hrun; subst. exists []. rewrite app_nil_r.
    split; [done |]. split; [apply visits_once_nil | constructor]. }
  apply bool_decide_eq_false in Hseen.
  assert (Hfirst : visits_once proc ({[url]} ∪ proc)
            [EvNested url depth; EvHttp (Request GET url 10 true None true)]).
  { split; [| split].
    - simpl. apply NoDup_singleton.
    - simpl. intros u Hu. apply list_elem_of_singleton in Hu. by subst.
    - simpl. by rewrite (right_id_L ∅ (∪)). }
  unfold session_get, send in Hrun.
  destruct (http _ _) as [e|resp].
  { inversion Hrun; subst. eexists. split; [by rewrite <- app_assoc |].
    split; [exact Hfirst | apply NoDup_elements]. }
  destruct (visit_all_nested _ _ _ _ _) as [[[pr ad] t1]|] eqn:Hv; [| done].
  inversion Hrun; subst.
  eapply visit_all_nested_once in Hv.
  - destruct Hv as (e2 & -> & V2).
    exists ([EvNested url depth; EvHttp (Request GET url 10 true None true)] ++ e2).
    split; [by rewrite <- !app_assoc |].
    split; [by eapply visits_once_app | apply NoDup_elements].
  - intros u p t0 r0 p0 t0' Hr. destruct (IH _ _ _ _ _ _ _ Hr) as (evs & -> & V & _).
    by exists evs.
Qed.

End Once.

(** X8: the expansion of a sitemap index, started at a depth from 0 on with
    the fuel of the pipeline or more, returns, and in that run, recursive
    calls included, it downloads no index document twice to read its
    entries, whatever the indexes list, cycles included: its GET requests,
    those with timeout 10, go to pairwise distinct URLs, none of which was
    in the set of processed URLs at the start, and the set at the end is the
    one at the start with exactly these URLs added.  (The index test may
    have asked for the same URL before, by its own HEAD and GET with timeout
    5.)  The nested sitemaps returned come without duplicates. *)
Theorem nested_expansion_visits_once `{Env} (fuel : nat) (url : string)
    (processed : gset string) (depth : Z) (t : trace) :
  (12 <= fuel)%nat -> 0 <= depth ->
  exists nested processed' evs,
    extract_nested fuel url processed depth t = Some (nested, processed', t ++ evs) /\
    NoDup (expansion_gets evs) /\
    (forall u, u ∈ expansion_gets evs -> u ∉ processed) /\
    processed' = list_to_set (expansion_gets evs) ∪ processed /\
    NoDup nested.
Proof.
  intros Hfuel Hdepth.
  destruct (extract_nested_total fuel url processed depth t) as [[[nested pr] t'] Hrun];
    [lia | unfold max_depth; lia |].
  destruct (extract_nested_once _ _ _ _ _ _ _ _ Hrun) as (evs & -> & (N & D & P) & Hr).
  by exists nested, pr, evs.
Qed.

(** On the two indexes that list each other each is downloaded once. *)
Lemma nested_expansion_on_cycle :
  (12 <= 12)%nat /\ 0 <= 0 /\
  exists nested processed' evs,
    @extract_nested Scenario.cyclic 12 Scenario.index_a ∅ 0 [] = Some (nested, processed', [] ++ evs) /\
    NoDup (expansion_gets evs) /\
    (forall u, u ∈ expansion_gets evs -> u ∉ (∅ : gset string)) /\
    processed' = list_to_set (expansion_gets evs) ∪ ∅ /\
    NoDup nested.
Proof.
  split; [lia |]. split; [lia |].
  apply (@nested_expansion_visits_once Scenario.cyclic 12 Scenario.index_a ∅ 0 []); lia.
Defined.

(** ** What the ranker returns *)

Section Ranker.

Context `{Env}.

Lemma check_extends v url t : exists e, (_check_url_exists v url t).2 = t ++ e.
Proof.
  destruct (grows_check (fun _ => True) (fun _ _ => I) v url t) as (e & E & _). by exists e.
Qed.

Lemma checked_live_later v url t t' e :
  checked_live v url t t' -> checked_live v url t (t' ++ e).
Proof. intros (b & a & Hl & ->). exists b, (a ++ e). by rewrite app_assoc. Qed.

Lemma checked_live_earlier v url t e t' :
  checked_live v url (t ++ e) t' -> checked_live v url t t'.
Proof. intros (b & a & Hl & ->). exists (e ++ b), a. by rewrite app_assoc. Qed.

(** One check, and the URL appended when [keep] says so, which it only
    does after a yes. *)
Lemma live_step v t0 url urls tc (keep : bool) :
  (keep = true -> (_check_url_exists v url tc).1 = true) ->
  live_between v t0 urls tc ->
  live_between v t0 (if keep then urls ++ [url] else urls) (_check_url_exists v url tc).2.
Proof.
  intros Hkeep [(evs & ->) Hall].
  destruct (check_extends v url (t0 ++ evs)) as (e & E).
  split; [exists (evs ++ e); by rewrite E, app_assoc |].
  assert (Hold : Forall (fun u => checked_live v u t0 (_check_url_exists v url (t0 ++ evs)).2)
                   urls).
  { rewrite E. eapply Forall_impl; [exact Hall |]. intros u. apply checked_live_later. }
  destruct keep; [| done]. apply Forall_app. split; [done |].
  constructor; [| constructor]. exists evs, []. split; [by apply Hkeep | by rewrite app_nil_r].
Qed.

Lemma keep_if_live_step v t0 url urls tc :
  live_between v t0 urls tc ->
  live_between v t0 (keep_if_live v url urls tc).1 (keep_if_live v url urls tc).2.
Proof.
  intros Hl. pose proof (live_step v t0 url urls tc (_check_url_exists v url tc).1
                           (fun E => E) Hl) as Hs.
  unfold keep_if_live, bind, ret. by destruct (_check_url_exists v url tc) as [live t1].
Qed.

(** The keyword fallback, stage by stage: what holds of the empty list and
    is kept by every check of a URL the fallback looks at holds of what it
    returns, when it returns. *)
Lemma fallback_inv v domain all_links (I : list string -> trace -> Prop) t :
  I [] t ->
  (forall url urls tc (keep : bool),
     fallback_candidate domain all_links url ->
     (keep = true -> (_check_url_exists v url tc).1 = true) ->
     I urls tc ->
     I (if keep then urls ++ [url] else urls) (_check_url_exists v url tc).2) ->
  match (_fallback_pricing_urls v domain all_links t).1 with
  | inr urls => I urls (_fallback_pricing_urls v domain all_links t).2
  | inl _ => True
  end.
Proof.
  intros Hnil Hstep.
  assert (Hkeep : forall url urls tc, fallback_candidate domain all_links url -> I urls tc ->
            I (keep_if_live v url urls tc).1 (keep_if_live v url urls tc).2).
  { intros url urls tc Hc Hi.
    pose proof (Hstep url urls tc (_check_url_exists v url tc).1 Hc (fun E => E) Hi) as Hs.
    unfold keep_if_live, bind, ret. by destruct (_check_url_exists v url tc) as [live t1]. }
  assert (Hb1 : forall link urls tc, link ∈ all_links -> I urls tc ->
            I ((if Str.contains_any fallback_keywords (Str.lower link)
                then keep_if_live v link urls else ret urls) tc).1
              ((if Str.contains_any fallback_keywords (Str.lower link)
                then keep_if_live v link urls else ret urls) tc).2).
  { intros link urls tc Hin Hi.
    destruct (Str.contains_any fallback_keywords (Str.lower link)) eqn:Hk; [| done].
    apply Hkeep; [| done]. left. split; [done | by apply contains_any_spec]. }
  unfold _fallback_pricing_urls, bind.
  match goal with
  | |- context [for_each all_links ?body [] t] =>
      pose proof (for_each_inv I all_links body Hb1 [] t Hnil) as H1;
      destruct (for_each all_links body [] t) as [urls1 t1]
  end.
  simpl in H1. cbv beta iota.
  assert (H2 : forall m : M (list string),
            m = (if bool_decide (domain ∈ urls1) then ret urls1
                 else keep_if_live v domain urls1) ->
            I (m t1).1 (m t1).2).
  { intros m ->. destruct (bool_decide _); [done |]. apply Hkeep; [right; by left | done]. }
  specialize (H2 _ eq_refl).
  destruct ((if bool_decide (domain ∈ urls1) then ret urls1
             else keep_if_live v domain urls1) t1) as [urls2 t2].
  simpl in H2. cbv beta iota.
  apply (for_each_try_inv I); [| done].
  intros path urls tc Hin Hi. unfold try_common_path, bind, ret.
  destruct (urljoin domain path) as [e|url] eqn:Hj; [done |].
  pose proof (Hstep url urls tc
                ((_check_url_exists v url tc).1 && negb (bool_decide (url ∈ urls)))) as Hs.
  destruct (_check_url_exists v url tc) as [live t3]. simpl in *.
  apply Hs; [right; right; by exists path | | done].
  by intros [? _]%andb_true_iff.
Qed.

Lemma fallback_live v domain all_links t t0 :
  (exists evs, t = t0 ++ evs) ->
  Forall (fun url => checked_live v url t0 (_fallback_pricing_urls v domain all_links t).2)
         (returned (_fallback_pricing_urls v domain all_links t).1).
Proof.
  intros Ht.
  pose proof (fallback_inv v domain all_links (live_between v t0) t) as Hinv.
  destruct (_fallback_pricing_urls v domain all_links t).1 as [e|urls]; [constructor |].
  apply Hinv.
  - split; [done | constructor].
  - intros url urls' tc keep _. apply live_step.
Qed.

Lemma verify_live v t0 (urls : list json) : forall acc tc,
  live_between v t0 acc tc ->
  live_between v t0 (for_each urls (verify_suggestion v) acc tc).1
    (for_each urls (verify_suggestion v) acc tc).2.
Proof.
  apply for_each_inv. intros url acc tc _ Hl.
  destruct url; try done. by apply keep_if_live_step.
Qed.

Lemma ranker_live v domain all_links t t0 :
  (exists evs, t = t0 ++ evs) ->
  Forall (fun url => checked_live v url t0 (_ai_identify_pricing_links v domain all_links t).2)
         (returned (_ai_identify_pricing_links v domain all_links t).1).
Proof.
  intros (evs & ->). unfold _ai_identify_pricing_links, ask, bind.
  set (p := RankPrompt _ _ _). set (links := links_for_prompt domain all_links).
  assert (Ht : exists e, (t0 ++ evs) ++ [EvLLM p] = t0 ++ e)
    by (exists (evs ++ [EvLLM p]); by rewrite app_assoc).
  destruct (llm _ p) as [e|txt]; [by apply fallback_live |].
  destruct (Str.brace_span txt) as [span|].
  - destruct (json_loads span) as [e|result]; [by apply fallback_live |].
    destruct (Py.iter _) as [urls|]; [| by apply fallback_live].
    assert (Hstart : live_between v t0 [] ((t0 ++ evs) ++ [EvLLM p]))
      by (split; [exact Ht | constructor]).
    pose proof (verify_live v t0 urls [] ((t0 ++ evs) ++ [EvLLM p]) Hstart) as [_ Hl].
    unfold ret. by destruct (for_each urls (verify_suggestion v) [] _).
  - unfold fallback_in_try, bind, ret.
    pose proof (fallback_live v domain links ((t0 ++ evs) ++ [EvLLM p]) t0 Ht) as H1.
    destruct (grows_fallback (fun _ => True) (fun _ _ => I) v domain links
                ((t0 ++ evs) ++ [EvLLM p])) as (e1 & E1 & _).
    destruct (_fallback_pricing_urls v domain links ((t0 ++ evs) ++ [EvLLM p]))
      as [[e|urls] t2]; [| exact H1].
    simpl in E1. subst t2. apply fallback_live.
    destruct Ht as (e0 & ->). exists (e0 ++ e1). by rewrite app_assoc.
Qed.

(** What the loop over the proposed URLs keeps is a selection of the
    proposed strings, in their order. *)
Lemma verify_sublist v (urls : list json) : forall acc tc,
  exists kept, (for_each urls (verify_suggestion v) acc tc).1 = acc ++ kept /\
               kept `sublist_of` proposed urls.
Proof.
  induction urls as [|url urls IH]; intros acc tc; simpl.
  - exists []. by rewrite app_nil_r.
  - unfold bind.
    assert (Hone : exists t1, verify_suggestion v url acc tc = (acc, t1) \/
              exists u, url = JStr u /\ verify_suggestion v url acc tc = (acc ++ [u], t1)).
    { destruct url; simpl; unfold ret; try (eexists; by left).
      unfold keep_if_live, bind, ret.
      destruct (_check_url_exists v s tc) as [[] t1]; eexists; [right; by eexists | by left]. }
    destruct Hone as (t1 & [-> | (u & -> & ->)]).
    + destruct (IH acc t1) as (kept & -> & Hsub). exists kept. split; [done |].
      unfold proposed. destruct url; simpl; try done. by apply sublist_cons.
    + destruct (IH (acc ++ [u]) t1) as (kept & -> & Hsub). exists (u :: kept).
      rewrite <- app_assoc. split; [done |]. by apply sublist_skip.
Qed.

End Ranker.

(** X9: every URL that [find_pricing_routes] returns, in either
    pipeline, passed the existence check during that call: the check was
    run on it after the call began, answered yes, and its requests are part
    of the events of the call.  The branch that returns the bare homepage is
    never taken, since the candidate list always holds the homepage, so the
    ranker is consulted on every call. *)
Theorem ranked_urls_were_checked `{Env} (v : variant) (domain : string) (t : trace) :
  let run := find_pricing_routes v domain t in
  Forall (fun url => checked_live v url t run.2) (returned run.1) /\
  (exists links t1, run = _ai_identify_pricing_links v domain links t1 /\ domain ∈ links).
Proof.
  assert (Hrun : exists links t1 e,
            find_pricing_routes v domain t = _ai_identify_pricing_links v domain links t1 /\
            domain ∈ links /\ t1 = t ++ e).
  { unfold find_pricing_routes, bind.
    destruct (grows_website_links (fun _ => True) (fun _ _ => I) v domain t) as (e1 & E1 & _).
    destruct (_get_all_website_links v domain t) as [links t1]. simpl in E1. subst t1.
    destruct (grows_sitemap_links v domain (t ++ e1)) as (e2 & E2 & _).
    destruct (_get_all_sitemap_links v domain (t ++ e1)) as [more t2]. simpl in E2. subst t2.
    set (cands := elements (list_to_set (links ++ more ++ [domain]) : gset string)).
    assert (Hdom : domain ∈ cands).
    { apply elem_of_elements, elem_of_list_to_set. rewrite !elem_of_app.
      right. right. by apply list_elem_of_singleton. }
    exists cands, ((t ++ e1) ++ e2), (e1 ++ e2).
    split; [| split; [done | by rewrite app_assoc]].
    destruct cands; [by apply elem_of_nil in Hdom | done]. }
  destruct Hrun as (links & t1 & e & Hrun & Hdom & ->).
  cbv zeta. rewrite Hrun. split; [| by exists links, (t ++ e)].
  apply (ranker_live v domain links (t ++ e) t). by exists e.
Qed.

(** X10: the keyword fallback returns only URLs it looked at, each after
    a check that answered yes: candidates that mention one of pricing,
    price, plans, plan, subscribe, buy, order, letter case aside, the
    homepage, and the paths /pricing, /price, /plans, /plan, /subscription
    under the domain. *)
Theorem fallback_returns_candidates `{Env} (v : variant) (domain : string)
    (all_links : list string) (t : trace) :
  let run := _fallback_pricing_urls v domain all_links t in
  Forall (fun url => fallback_candidate domain all_links url /\ checked_live v url t run.2)
         (returned run.1).
Proof.
  cbv zeta. apply Forall_and. split.
  - pose proof (fallback_inv v domain all_links
                  (fun urls _ => Forall (fallback_candidate domain all_links) urls) t) as Hinv.
    destruct (_fallback_pricing_urls v domain all_links t).1 as [e|urls]; [constructor |].
    apply Hinv; [constructor |].
    intros url urls' tc keep Hc _ Hall. destruct keep; [| done].
    apply Forall_app. split; [done |]. constructor; [exact Hc | constructor].
  - apply (fallback_live v domain all_links t t). exists []. by rewrite app_nil_r.
Qed.

(** X11: when the answer of the model holds a JSON object whose proposed
    URLs can be walked through, the ranker returns a selection of the
    proposed strings, in the order of the proposal: it adds no URL of its
    own, not even the homepage, and drops what is not a string. *)
Theorem ranker_returns_proposals `{Env} (v : variant) (domain : string)
    (all_links : list string) (t : trace) (result : dict) (urls : list json) :
  let p := RankPrompt (model_name v) domain (links_for_prompt domain all_links) in
  model_answer t p = Some result ->
  suggestions result = Some urls ->
  exists kept,
    (_ai_identify_pricing_links v domain all_links t).1 = inr kept /\
    kept `sublist_of` proposed urls.
Proof.
  cbv zeta. unfold model_answer, suggestions, _ai_identify_pricing_links, ask, bind.
  destruct (llm t _) as [e|txt]; [done |].
  destruct (Str.brace_span txt) as [span|]; [| done].
  destruct (json_loads span) as [e|r]; [done |].
  intros [= ->] ->.
  destruct (verify_sublist v urls [] (t ++ [EvLLM (RankPrompt (model_name v) domain
                                                     (links_for_prompt domain all_links))]))
    as (kept & Hk & Hsub).
  exists kept. split; [| done]. unfold ret.
  destruct (for_each urls (verify_suggestion v) [] _) as [ks t1]. simpl in *. by subst.
Qed.

(** On the site whose model ranks three pages the ranker returns pages of
    the proposal. *)
Lemma ranker_returns_proposals_on_acme :
  let urls := [JStr Scenario.page_a; JStr Scenario.page_b; JStr Scenario.page_c] in
  let result := [("pricing_urls", JArr urls)] in
  let p := RankPrompt (model_name Plain) "https://acme.test"
             (links_for_prompt "https://acme.test" []) in
  @model_answer Scenario.acme [] p = Some result /\
  suggestions result = Some urls /\
  exists kept,
    (@_ai_identify_pricing_links Scenario.acme Plain "https://acme.test" [] []).1 = inr kept /\
    kept `sublist_of` proposed urls.
Proof.
  cbv zeta.
  assert (H1 : @model_answer Scenario.acme []
                 (RankPrompt (model_name Plain) "https://acme.test"
                    (links_for_prompt "https://acme.test" []))
               = Some [("pricing_urls",
                        JArr [JStr Scenario.page_a; JStr Scenario.page_b;
                              JStr Scenario.page_c])]) by reflexivity.
  assert (H2 : suggestions [("pricing_urls",
                             JArr [JStr Scenario.page_a; JStr Scenario.page_b;
                                   JStr Scenario.page_c])]
               = Some [JStr Scenario.page_a; JStr Scenario.page_b; JStr Scenario.page_c])
    by reflexivity.
  split; [exact H1 |]. split; [exact H2 |].
  exact (@ranker_returns_proposals Scenario.acme Plain "https://acme.test" [] [] _ _ H1 H2).
Defined.

(** ** The analyzer and the browser extractor *)

(** X12: the analyzer calls the model once.  When the answer holds a JSON
    object it returns that object as it is; in every other case (the call
    raises, no brace-delimited span, a span that is not JSON) it returns a
    record with [error] and without plans, which the orchestrator never
    takes for a success. *)
Theorem failed_analysis_has_no_plans `{Env} (v : variant) (c url : string) (t : trace) :
  let p := AnalyzePrompt (model_name v) c url in
  let run := analyze_pricing_with_ai v c url t in
  run.2 = t ++ [EvAnalyze c url; EvLLM p] /\
  match model_answer (t ++ [EvAnalyze c url]) p with
  | Some result => run.1 = result
  | None => has_field "error" run.1 /\ has_plans run.1 = false
  end.
Proof.
  cbv zeta. unfold analyze_pricing_with_ai, model_answer, bind, emit, ask, ret, has_field.
  destruct (llm _ _) as [e|txt]; simpl.
  { split; [by rewrite <- app_assoc |]. split; [by eexists | done]. }
  destruct (Str.brace_span txt) as [span|]; simpl.
  - destruct (json_loads span) as [e|result]; simpl.
    + split; [by rewrite <- app_assoc |]. split; [by eexists | done].
    + split; [by rewrite <- app_assoc | done].
  - split; [by rewrite <- app_assoc |]. split; [by eexists | done].
Qed.

Lemma usable_long (c : string) : usable c = true -> 100 < Str.len c.
Proof. unfold usable. intros [_ Hl]%andb_true_iff. lia. Qed.

(** X13: the content extractor of the browser pipeline returns a text of
    more than 100 characters or its fixed error message, so for its results
    the skip filter of the orchestrator comes down to the search for the
    word Error; the page is fetched by request only when the rendered text
    is missing or has at most 100 characters. *)
Theorem browser_extractor_result `{Env} (url : string) (t : trace) :
  let rendered := (_extract_with_playwright url t).1 in
  let run := extract_pricing_content Browser url t in
  (100 < Str.len run.1 \/ run.1 = "Error: Could not extract content with either method") /\
  skip_content run.1 = Str.contains "Error" run.1 /\
  run.2 = t ++ [EvRender url]
            ++ (if usable rendered then [] else [EvHttp (Request GET url 10 true None true)])
            ++ [EvExtract url run.1].
Proof.
  cbv zeta.
  assert (Hlong : forall c, 100 < Str.len c -> skip_content c = Str.contains "Error" c).
  { intros c Hc. unfold skip_content. destruct (Str.len c <? 100) eqn:E; [lia |].
    by rewrite orb_false_r. }
  assert (Hpw : exists pw, _extract_with_playwright url t = (pw, t ++ [EvRender url])).
  { unfold _extract_with_playwright, bind, ret. destruct (render t url); by eexists. }
  destruct Hpw as (pw & Hpw).
  unfold extract_pricing_content, extract_browser, bind, emit, ret. rewrite Hpw. simpl.
  destruct (usable pw) eqn:Hu; simpl.
  { apply usable_long in Hu. split; [by left |]. split; [by apply Hlong |].
    by rewrite <- app_assoc. }
  assert (Hrq : exists rq, _extract_with_requests url (t ++ [EvRender url])
                  = (rq, (t ++ [EvRender url]) ++ [EvHttp (Request GET url 10 true None true)])).
  { unfold _extract_with_requests, session_get, send, bind, ret.
    destruct (http _ _) as [e|resp]; [by eexists |].
    destruct (negb _); [by eexists |]. destruct (html_body_text _); by eexists. }
  destruct Hrq as (rq & Hrq). rewrite Hrq. simpl.
  destruct (usable rq) eqn:Hr; simpl.
  - apply usable_long in Hr. split; [by left |]. split; [by apply Hlong |].
    by rewrite <- !app_assoc.
  - split; [by right |]. split; [reflexivity |]. by rewrite <- !app_assoc.
Qed.

(** ** More on the batch loop *)

Lemma filter_nil {A} (f : A -> bool) (l : list A) :
  (forall x, x ∈ l -> f x = false) -> List.filter f l = [].
Proof.
  induction l as [|x l IH]; intros Hf; simpl; [done |].
  rewrite (Hf x) by by left. apply IH. intros y Hy. apply Hf. by right.
Qed.

Section AnySite.

Context `{Env}.
Variable site : string -> string -> M (exn + dict).

(** Whatever the per-site extraction does, one round stores a record
    under the name of the item. *)
Lemma process_item_dom pc total i it results t :
  dom (process_item site pc total i it results t).1 = {[item_name it]} ∪ dom results.
Proof.
  unfold process_item, bind, emit, ret, save_checkpoint, sleep, emit.
  destruct (no_website (item_website it)); simpl; [by rewrite dom_insert_L |].
  destruct (site _ _ _) as [[e|r] t1]; simpl; by rewrite dom_insert_L.
Qed.

Lemma batch_loop_dom pc total : forall items i results t,
  dom (batch_loop site pc total i items results t).1
    = list_to_set (item_name <$> items) ∪ dom results.
Proof.
  induction items as [|it items IH]; intros i results t; simpl.
  - by rewrite (left_id_L ∅ (∪)).
  - unfold bind. pose proof (process_item_dom pc total i it results t) as Hd.
    destruct (process_item site pc total i it results t) as [r1 t1]. simpl in Hd.
    rewrite IH, Hd, (assoc_L (∪)), (comm_L (∪) (list_to_set (item_name <$> items))). done.
Qed.

Lemma nothing_remains (all_urls : list item) (results final : gmap string json) :
  dom final = list_to_set (item_name <$> get_remaining_urls all_urls results) ∪ dom results ->
  get_remaining_urls all_urls final = [].
Proof.
  intros Hd. unfold get_remaining_urls at 1. apply filter_nil. intros it Hit.
  apply negb_false_iff, bool_decide_eq_true. rewrite Hd. apply elem_of_union.
  destruct (decide (item_name it ∈ dom results)) as [Hin | Hout]; [by right | left].
  apply elem_of_list_to_set, list_elem_of_fmap. exists it. split; [done |].
  by apply remaining_spec.
Qed.

End AnySite.

(** X14: a batch loop that has run over the remaining items leaves
    nothing to do, whatever the per-site extraction returned or raised for
    any item: the results then hold a record under the name of every input
    item, besides the names they held before, and no input item remains
    against them. *)
Theorem finished_batch_leaves_nothing `{Env} (site : string -> string -> M (exn + dict))
    (all_urls : list item) (results : gmap string json) (pc total i : Z) (t : trace) :
  let final :=
    (batch_loop site pc total i (get_remaining_urls all_urls results) results t).1 in
  dom final = list_to_set (item_name <$> all_urls) ∪ dom results /\
  get_remaining_urls all_urls final = [].
Proof.
  cbv zeta.
  pose proof (batch_loop_dom site pc total (get_remaining_urls all_urls results) i results t)
    as Hd.
  split; [| by apply (nothing_remains all_urls results)].
  rewrite Hd. apply set_eq. intros name. rewrite !elem_of_union, !elem_of_list_to_set.
  split; (intros [Hin | Hin]; [| by right]).
  - left. apply list_elem_of_fmap in Hin as (it & -> & Hit).
    apply remaining_spec in Hit as [Hit _]. apply list_elem_of_fmap. by exists it.
  - apply list_elem_of_fmap in Hin as (it & -> & Hit).
    destruct (decide (item_name it ∈ dom results)) as [Hdone | Hnew]; [by right | left].
    apply list_elem_of_fmap. exists it. split; [done |]. by apply remaining_spec.
Qed.

Lemma with_scheme_prefixed (website : string) :
  Str.startswith_any ["http://"; "https://"] (with_scheme website) = true.
Proof.
  unfold with_scheme.
  destruct (Str.startswith_any ["http://"; "https://"] website) eqn:E; [done |].
  unfold Str.startswith_any. apply existsb_exists. exists "https://".
  split; [simpl; tauto |]. apply startswith_spec. by exists website.
Qed.

(** X15: the per-site extraction is only ever called with a URL that
    starts with http:// or https://: the website of the item when it starts
    so, else the website behind https://; and it is called for the items
    that have a website, in their order, once each. *)
Theorem site_called_with_scheme `{Env} (v : variant) (pc total i : Z) (items : list item)
    (results : gmap string json) (t : trace) :
  exists evs,
    (batch_loop (run_site v) pc total i items results t).2 = t ++ evs /\
    site_calls evs = site_of <$> List.filter has_website items /\
    Forall (fun call => Str.startswith_any ["http://"; "https://"] call.1 = true)
           (site_calls evs) /\
    (forall website, with_scheme (with_scheme website) = with_scheme website).
Proof.
  destruct (batch_loop_run (run_site v) (run_site_quiet v) pc total items i results t)
    as (evs & E & _ & S & _).
  exists evs. split; [done |]. split; [done |]. split.
  - rewrite S. apply Forall_forall. intros call Hcall.
    apply list_elem_of_fmap in Hcall as (it & -> & _). apply with_scheme_prefixed.
  - intros website. unfold with_scheme at 1. by rewrite with_scheme_prefixed.
Qed.

Section Checkpoints.

Context `{Env}.
Variable site : string -> string -> M (exn + dict).
Hypothesis site_quiet : forall w n, grows site_event (site w n).

(** One round writes one checkpoint: it holds the results as the round
    leaves them. *)
Lemma process_item_checkpoint pc total i it results t :
  exists evs ts,
    (process_item site pc total i it results t).2 = t ++ evs /\
    checkpoints evs
      = [Checkpoint (process_item site pc total i it results t).1 (pc + i + 1) total ts].
Proof.
  unfold process_item, bind, emit, ret, save_checkpoint, sleep, emit.
  destruct (no_website (item_website it)); simpl.
  - eexists (cons _ (cons _ nil)), _. rewrite <- app_assoc. simpl. split; reflexivity.
  - set (w := with_scheme (default "" (item_website it))).
    set (t0 := (t ++ [EvProcessing (pc + i + 1) total (item_name it)])
                 ++ [EvSite w (item_name it)]).
    destruct (site_quiet w (item_name it) t0) as (e1 & E1 & F1).
    destruct (site_events_silent e1 F1) as (_ & _ & C1).
    destruct (site w (item_name it) t0) as [[e|r] t1]; simpl in *; subst t1.
    + eexists (cons _ (cons _ nil) ++ e1 ++ cons _ (cons _ nil)), _.
      unfold t0. rewrite <- !app_assoc. simpl. split; [reflexivity |].
      rewrite !checkpoints_app, C1. reflexivity.
    + eexists (cons _ (cons _ nil) ++ e1 ++ cons _ (cons _ nil)), _.
      unfold t0. rewrite <- !app_assoc. simpl. split; [reflexivity |].
      rewrite !checkpoints_app, C1. reflexivity.
Qed.

Lemma batch_loop_checkpoints pc total : forall items i results t,
  exists evs,
    (batch_loop site pc total i items results t).2 = t ++ evs /\
    cp_results <$> checkpoints evs
      = (fun k : nat => (batch_loop site pc total i (take (S k) items) results t).1)
          <$> seq 0 (length items) /\
    Forall (fun c => total_count c = total) (checkpoints evs).
Proof.
  induction items as [|it items IH]; intros i results t.
  - exists []. rewrite app_nil_r. done.
  - destruct (process_item_checkpoint pc total i it results t) as (e1 & ts & E1 & C1).
    assert (Hstep : forall l, batch_loop site pc total i (it :: l) results t
              = batch_loop site pc total (i + 1) l
                  (process_item site pc total i it results t).1
                  (process_item site pc total i it results t).2).
    { intros l. simpl. unfold bind. by destruct (process_item site pc total i it results t). }
    destruct (IH (i + 1) (process_item site pc total i it results t).1
                (process_item site pc total i it results t).2) as (e2 & E2 & C2 & T2).
    exists (e1 ++ e2). rewrite Hstep, E2, E1, app_assoc. split; [done |].
    rewrite checkpoints_app, fmap_app, C1, C2. split.
    + assert (H0 : (batch_loop site pc total i (take 1 (it :: items)) results t).1
                   = (process_item site pc total i it results t).1).
      { change (take 1 (it :: items)) with [it]. by rewrite Hstep. }
      assert (HS : forall k : nat,
                (batch_loop site pc total i (take (S (S k)) (it :: items)) results t).1
                = (batch_loop site pc total (i + 1) (take (S k) items)
                     (process_item site pc total i it results t).1
                     (process_item site pc total i it results t).2).1).
      { intros k. change (take (S (S k)) (it :: items)) with (it :: take (S k) items).
        by rewrite Hstep. }
      simpl length. rewrite <- cons_seq, <- fmap_S_seq.
      rewrite (fmap_cons _ 0%nat), <- list_fmap_compose.
      change (cp_results <$> [?c]) with [cp_results c]. simpl app.
      f_equal; [symmetry; exact H0 |].
      apply list_fmap_ext. intros ? k ?. symmetry. apply HS.
    + apply Forall_app. split; [by repeat constructor | done].
Qed.

End Checkpoints.

(** X16: in either pipeline the batch loop writes one checkpoint per
    item, and the checkpoint written for the k-th item holds exactly the
    results of the loop run on the first k items, with the total of the
    run; so the last checkpoint holds the results the run ends with, and a
    run that is cut short has lost no finished item. *)
Theorem checkpoint_after_each_item `{Env} (v : variant) (pc total i : Z) (items : list item)
    (results : gmap string json) (t : trace) :
  exists evs,
    (batch_loop (run_site v) pc total i items results t).2 = t ++ evs /\
    cp_results <$> checkpoints evs
      = (fun k : nat => (batch_loop (run_site v) pc total i (take (S k) items) results t).1)
          <$> seq 0 (length items) /\
    Forall (fun c => total_count c = total) (checkpoints evs) /\
    last (cp_results <$> checkpoints evs)
      = match items with
        | [] => None
        | _ => Some (batch_loop (run_site v) pc total i items results t).1
        end.
Proof.
  destruct (batch_loop_checkpoints (run_site v) (run_site_quiet v) pc total items i results t)
    as (evs & E & C & T).
  exists evs. split; [done |]. split; [done |]. split; [done |].
  rewrite C. destruct (decide (items = [])) as [-> | Hne]; [done |].
  assert (exists n, length items = S n) as (n & Hn).
  { destruct items; [done | by eexists]. }
  rewrite Hn, seq_S, fmap_app. change (?f <$> [?x]) with [f x]. rewrite last_snoc.
  change (0 + n)%nat with n. rewrite take_ge by lia. by destruct items.
Qed.

(** ** More on the orchestrator *)

(** X17: the failure records of [get_pricing_data] tell what was tried.
    When the result is not a success, it is one of three records.  Either
    finding the routes raised: the extractor was never called and the record
    says "Error finding pricing routes:" with the message of the exception.
    Or the ranked list was empty: the extractor was never called and the
    record says "No pricing pages found".  Or the record lists under
    [attempted_urls] exactly the URLs the extractor was called on during the
    call, in order, none left out and none added.  In the plain pipeline the
    extractor is called at most five times per site. *)
Theorem attempted_urls_were_tried `{Env} (v : variant) (domain name : string) (t : trace) :
  let routes := (find_pricing_routes v domain t).1 in
  let result := (get_pricing_data v domain name t).1 in
  exists evs,
    (get_pricing_data v domain name t).2 = t ++ evs /\
    match v with Plain => (length (extracted evs) <= 5)%nat | Browser => True end /\
    (Py.get "success" result = Some (JBool true) \/
     (result = exhausted_record domain name ((extracted evs).*1) /\ extracted evs <> []) \/
     (routes = inr [] /\
      result = failure_record domain name "No pricing pages found" /\
      extracted evs = []) \/
     (exists e, routes = inl e /\
        result = failure_record domain name ("Error finding pricing routes: " +:+ e) /\
        extracted evs = [])).
Proof.
  cbv zeta. destruct (site_run v domain name t) as (evs & E & _ & _ & Hcase).
  cbv zeta in Hcase. exists evs. split; [done |].
  set (tried := limit_urls v (returned (find_pricing_routes v domain t).1)) in *.
  assert (Hcap : match v with Plain => (length tried <= 5)%nat | Browser => True end).
  { unfold tried. rewrite limit_urls_spec. destruct v; [| done]. rewrite length_take. lia. }
  assert (Hnil : forall l : list (string * string), l.*1 = [] -> l = []).
  { intros l Hl. by destruct l. }
  destruct Hcase as [(pre & w & post & Ht & _ & _ & Hres & Hx) | (_ & Hres & Hx)].
  - split.
    + destruct v; [| done]. rewrite <- (length_fmap fst), Hx.
      rewrite Ht in Hcap. rewrite !length_app in *. simpl in *. lia.
    + left. rewrite Hres. unfold record_at. destruct (extract_pricing_content v w _) as [c t3].
      by destruct (success_record_fields domain name w c
                     (analyze_pricing_with_ai v c w t3).1) as (_ & _ & _ & Hok & _).
  - split; [destruct v; [| done]; by rewrite <- (length_fmap fst), Hx |].
    right. destruct Hres as [(e & Hr & ->) | [(Hr & ->) | (Hne & ->)]].
    + right. right. exists e. split; [done |]. split; [done |].
      apply Hnil. rewrite Hx. unfold tried. rewrite Hr, limit_urls_spec. by destruct v.
    + right. left. split; [done |]. split; [done |].
      apply Hnil. rewrite Hx. unfold tried. rewrite Hr, limit_urls_spec. by destruct v.
    + left. rewrite Hx. split; [done |]. intros Hempty. apply Hne.
      by rewrite <- Hx, Hempty.
Qed.

(** ** Lists of nested sitemaps *)

Lemma append_new_NoDup nested url : NoDup nested -> NoDup (append_new nested url).
Proof.
  intros Hn. unfold append_new. case_bool_decide as Hin; [done |].
  apply NoDup_app. split; [done |]. split; [| apply NoDup_singleton].
  intros x Hx Hx'. apply list_elem_of_singleton in Hx'. by subst.
Qed.

Lemma append_new_elem nested url x : x ∈ append_new nested url -> x ∈ nested \/ x = url.
Proof.
  unfold append_new. case_bool_decide; [by left |].
  rewrite elem_of_app, list_elem_of_singleton. tauto.
Qed.

(** X18: the nested sitemaps [_extract_nested_sitemaps] reads from one
    index document come without duplicates.  When the document has sitemap
    tags, each entry is the stripped text of the loc of one of them; when it
    has none, each entry is the stripped text of a loc of the document that
    differs from the URL of the index itself and holds "sitemap", letter
    case aside, or ".xml". *)
Theorem listed_sitemaps_distinct `{Env} (sitemap_index_url page : string) :
  NoDup (listed_sitemaps sitemap_index_url page) /\
  match xml_sitemap_locs page with
  | [] =>
      Forall (fun url =>
                url <> sitemap_index_url /\
                (Str.contains "sitemap" (Str.lower url) = true \/
                 Str.contains ".xml" url = true) /\
                exists loc, loc ∈ xml_locs page /\ url = Str.strip loc)
             (listed_sitemaps sitemap_index_url page)
  | _ =>
      Forall (fun url => exists txt, Some txt ∈ xml_sitemap_locs page /\ txt <> "" /\
                                     url = Str.strip txt)
             (listed_sitemaps sitemap_index_url page)
  end.
Proof.
  assert (Htags : forall locs acc (P : string -> Prop),
            (forall txt, Some txt ∈ locs -> txt <> "" -> P (Str.strip txt)) ->
            NoDup acc -> Forall P acc ->
            NoDup (fold_left add_sitemap_loc locs acc) /\
            Forall P (fold_left add_sitemap_loc locs acc)).
  { induction locs as [|loc locs IH]; intros acc P HP Hn Hf; simpl; [done |].
    apply IH.
    - intros txt Hin. apply HP. by right.
    - destruct loc as [txt|]; simpl; [| done].
      destruct (String.eqb txt ""); [done | by apply append_new_NoDup].
    - destruct loc as [txt|]; simpl; [| done].
      destruct (String.eqb_spec txt "") as [He | He]; [done |].
      apply Forall_forall. intros x Hx. apply append_new_elem in Hx as [Hx | ->].
      + rewrite Forall_forall in Hf. by apply Hf.
      + apply HP; [by left | done]. }
  assert (Hplain : forall locs acc (P : string -> Prop),
            (forall loc, loc ∈ locs ->
               Str.strip loc <> sitemap_index_url ->
               Str.contains "sitemap" (Str.lower (Str.strip loc)) = true \/
               Str.contains ".xml" (Str.strip loc) = true ->
               P (Str.strip loc)) ->
            NoDup acc -> Forall P acc ->
            NoDup (fold_left (add_plain_loc sitemap_index_url) locs acc) /\
            Forall P (fold_left (add_plain_loc sitemap_index_url) locs acc)).
  { induction locs as [|loc locs IH]; intros acc P HP Hn Hf; simpl; [done |].
    apply IH.
    - intros l Hin. apply HP. by right.
    - unfold add_plain_loc. destruct (_ && _); [by apply append_new_NoDup | done].
    - unfold add_plain_loc.
      destruct (String.eqb_spec (Str.strip loc) sitemap_index_url) as [He | He]; [done |].
      cbn [negb andb].
      destruct (Str.contains "sitemap" (Str.lower (Str.strip loc))
                || Str.contains ".xml" (Str.strip loc)) eqn:Hc; [| done].
      apply Forall_forall. intros x Hx. apply append_new_elem in Hx as [Hx | ->].
      + rewrite Forall_forall in Hf. by apply Hf.
      + apply HP; [by left | done | by apply orb_true_iff]. }
  unfold listed_sitemaps. destruct (xml_sitemap_locs page) as [|loc locs] eqn:Hlocs.
  - simpl. apply Hplain; [| constructor | constructor].
    intros loc Hin Hne Hc. split; [done |]. split; [done |]. by exists loc.
  - apply Htags; [| constructor | constructor].
    intros txt Hin Hne. by exists txt.
Qed.

(** X19: the queue of the sitemap traversal only grows at its end, by
    nested sitemaps that are neither processed nor queued: what is added
    has no duplicates, every added URL is one of the nested sitemaps, is not
    in [processed_sitemaps] and was not in the queue, and every nested
    sitemap is afterwards processed or in the queue. *)
Theorem queue_grows_by_new_sitemaps (processed_sitemaps : gset string)
    (sitemap_queue nested_sitemaps : list string) :
  exists added,
    fold_left (enqueue_new processed_sitemaps) nested_sitemaps sitemap_queue
      = sitemap_queue ++ added /\
    NoDup added /\
    Forall (fun url => url ∈ nested_sitemaps /\ (url ∉ processed_sitemaps) /\
                       (url ∉ sitemap_queue)) added /\
    Forall (fun url => url ∈ processed_sitemaps \/ url ∈ sitemap_queue ++ added)
           nested_sitemaps.
Proof.
  revert sitemap_queue.
  induction nested_sitemaps as [|n nested IH]; intros queue; simpl.
  - exists []. rewrite app_nil_r. repeat split; constructor.
  - destruct (IH (enqueue_new processed_sitemaps queue n)) as (added & -> & Hn & Hall & Hcov).
    unfold enqueue_new in *.
    destruct (bool_decide (n ∈ processed_sitemaps)) eqn:Hp; simpl in *.
    { apply bool_decide_eq_true in Hp. exists added. split; [done |]. split; [done |]. split.
      - eapply Forall_impl; [exact Hall |]. intros x (? & ? & ?).
        split; [by right | done].
      - constructor; [by left | done]. }
    apply bool_decide_eq_false in Hp.
    destruct (bool_decide (n ∈ queue)) eqn:Hq; simpl in *.
    { apply bool_decide_eq_true in Hq. exists added. split; [done |]. split; [done |]. split.
      - eapply Forall_impl; [exact Hall |]. intros x (? & ? & ?).
        split; [by right | done].
      - constructor; [| done]. right. apply elem_of_app. by left. }
    apply bool_decide_eq_false in Hq.
    exists (n :: added). rewrite <- app_assoc. split; [done |]. split; [| split].
    + apply NoDup_cons. split; [| done]. intros Hin.
      rewrite Forall_forall in Hall. destruct (Hall n Hin) as (_ & _ & Hnot).
      apply Hnot, elem_of_app. right. by apply list_elem_of_singleton.
    + constructor; [split; [by left | done] |].
      eapply Forall_impl; [exact Hall |]. intros x (? & ? & Hnot).
      split; [by right |]. split; [done |]. intros Hx. apply Hnot, elem_of_app. by left.
    + constructor.
      * right. apply elem_of_app. right. by left.
      * eapply Forall_impl; [exact Hcov |]. intros x [? | Hx]; [by left | right].
        by rewrite <- app_assoc in Hx.
Qed.

(** ** The browser handles *)

(** X20: a launch that failed is not tried again.  When [init_playwright]
    is left by an exception although starting the library worked, the
    library handle is set and the context is as it was, unset on a new
    extractor; from then on every call of [init_playwright] returns at once
    without a library call, whatever the machine would answer, so a new
    extractor gets no context until [close_playwright] is called. *)
Theorem failed_launch_is_not_retried (raises : list Lifecycle.call -> Lifecycle.call -> option exn)
    (s s1 : Lifecycle.handles) (h h1 : list Lifecycle.call) (e : exn) :
  Lifecycle.playwright s = false ->
  raises h Lifecycle.Start = None ->
  Lifecycle.init_playwright raises s h = (Some e, s1, h1) ->
  Lifecycle.playwright s1 = true /\
  Lifecycle.context s1 = Lifecycle.context s /\
  forall raises' h', Lifecycle.init_playwright raises' s1 h' = (None, s1, h').
Proof.
  intros Hs Hstart. unfold Lifecycle.init_playwright. rewrite Hs, Hstart. simpl.
  destruct (raises (h ++ [Lifecycle.Start]) Lifecycle.Launch) as [e1|].
  { intros [= <- <- <-]. simpl. done. }
  destruct (raises _ Lifecycle.NewContext) as [e2|]; [| done].
  intros [= <- <- <-]. simpl. done.
Qed.

(** On a machine without browser the first call fails at the launch. *)
Lemma failed_launch_without_browser :
  Lifecycle.playwright Lifecycle.fresh = false /\
  Lifecycle.no_browser [] Lifecycle.Start = None /\
  Lifecycle.init_playwright Lifecycle.no_browser Lifecycle.fresh []
    = (Some "Executable doesn't exist", Lifecycle.Handles true false false,
       [Lifecycle.Start; Lifecycle.Launch]) /\
  forall raises' h',
    Lifecycle.init_playwright raises' (Lifecycle.Handles true false false) h'
      = (None, Lifecycle.Handles true false false, h').
Proof.
  split; [reflexivity |]. split; [reflexivity |]. split; [reflexivity |].
  exact (proj2 (proj2 (failed_launch_is_not_retried Lifecycle.no_browser Lifecycle.fresh
                         (Lifecycle.Handles true false false) []
                         [Lifecycle.Start; Lifecycle.Launch] "Executable doesn't exist"
                         eq_refl eq_refl eq_refl))).
Defined.

(** X21: a [close_playwright] that returns leaves the three handles
    unset, as [__init__] does, so closing again, as [__exit__] would after
    an explicit close, makes no library call; and it only closes what is
    set. *)
Theorem close_playwright_releases (raises : list Lifecycle.call -> Lifecycle.call -> option exn)
    (s s1 : Lifecycle.handles) (h h1 : list Lifecycle.call) :
  Lifecycle.close_playwright raises s h = (None, s1, h1) ->
  s1 = Lifecycle.fresh /\
  h1 = h ++ (if Lifecycle.context s then [Lifecycle.CloseContext] else [])
         ++ (if Lifecycle.browser s then [Lifecycle.CloseBrowser] else [])
         ++ (if Lifecycle.playwright s then [Lifecycle.Stop] else []) /\
  forall raises' h', Lifecycle.close_playwright raises' s1 h' = (None, s1, h').
Proof.
  destruct s as [[] [] []]; unfold Lifecycle.close_playwright; simpl;
    repeat (match goal with
            | |- context [raises ?h0 ?c] => destruct (raises h0 c); simpl
            end; try done);
    intros [= <- <-];
    (split; [done |]; split; [by rewrite <- ?app_assoc, ?app_nil_r | done]).
Qed.

(** Opened and closed on a machine where every call returns. *)
Lemma close_playwright_after_init :
  Lifecycle.close_playwright Lifecycle.all_fine (Lifecycle.Handles true true true)
      [Lifecycle.Start; Lifecycle.Launch; Lifecycle.NewContext]
    = (None, Lifecycle.fresh,
       [Lifecycle.Start; Lifecycle.Launch; Lifecycle.NewContext;
        Lifecycle.CloseContext; Lifecycle.CloseBrowser; Lifecycle.Stop]) /\
  forall raises' h',
    Lifecycle.close_playwright raises' Lifecycle.fresh h' = (None, Lifecycle.fresh, h').
Proof.
  split; [reflexivity |].
  exact (proj2 (proj2 (close_playwright_releases Lifecycle.all_fine
                         (Lifecycle.Handles true true true) Lifecycle.fresh
                         [Lifecycle.Start; Lifecycle.Launch; Lifecycle.NewContext]
                         [Lifecycle.Start; Lifecycle.Launch; Lifecycle.NewContext;
                          Lifecycle.CloseContext; Lifecycle.CloseBrowser; Lifecycle.Stop]
                         eq_refl))).
Defined.
